(** * data/data_loader.py: spectrogram cache, batch collation and bucketing samplers

    A shallow embedding of [src/data/data_loader.py].  Python values are
    modelled by the Rocq data they denote: NumPy arrays and Torch tensors
    as a shape together with a row-major buffer, files as byte strings in
    a finite map, exceptions as an error result, and the process-level
    random number generators as explicit state.  Libraries the module
    calls but does not define (librosa, sox, hashlib, NumPy serialisation,
    Torch's generator) are taken as parameters. *)

From Stdlib Require Import ZArith QArith Qround Reals Qreals List String Ascii Strings.Byte Lia Lra.
From stdpp Require Import base option list gmap strings pretty sorting.

Local Open Scope Z_scope.
Local Open Scope nat_scope.

Set Default Proof Using "Type".

(** ** Python exceptions and results *)

Inductive pyexc : Type :=
| KeyboardInterrupt
| SystemExit
| AssertionError
| ZeroDivisionError
| ValueError
| KeyError
| TypeError
| IndexError
| AttributeError
| OSError
| FileNotFoundError
| RuntimeError
| NotImplementedError
| PlainException (msg : string).

(** [except Exception] catches every class above except the two that
    derive from [BaseException] directly. *)
Definition is_Exception (e : pyexc) : bool :=
  match e with
  | KeyboardInterrupt | SystemExit => false
  | _ => true
  end.

Inductive result (A : Type) : Type :=
| Ok (a : A)
| Raise (e : pyexc).
Arguments Ok {A} a.
Arguments Raise {A} e.

Definition rbind {A B} (r : result A) (k : A -> result B) : result B :=
  match r with
  | Ok a => k a
  | Raise e => Raise e
  end.

(** ** NumPy arrays of rank two

    [nd_data] is the C-ordered buffer: row [i] occupies positions
    [i * nd_cols .. (i + 1) * nd_cols - 1]. *)

Record ndarray (A : Type) : Type := mk_ndarray {
  nd_rows : nat;
  nd_cols : nat;
  nd_data : list A
}.
Arguments mk_ndarray {A} _ _ _.
Arguments nd_rows {A} _.
Arguments nd_cols {A} _.
Arguments nd_data {A} _.

Definition nd_wf {A} (a : ndarray A) : Prop :=
  length (nd_data a) = nd_rows a * nd_cols a.

Definition nd_wfb {A} (a : ndarray A) : bool :=
  length (nd_data a) =? nd_rows a * nd_cols a.

(** [a[i]] as a list (no bounds check: short or empty past the end). *)
Definition nd_row {A} (a : ndarray A) (i : nat) : list A :=
  take (nd_cols a) (drop (i * nd_cols a) (nd_data a)).

Definition nd_of_rows {A} (cols : nat) (rows : list (list A)) : ndarray A :=
  mk_ndarray (length rows) cols (concat rows).

Definition nd_to_rows {A} (a : ndarray A) : list (list A) :=
  map (nd_row a) (seq 0 (nd_rows a)).

Section Resize.
Context {A : Type} (zero : A).

(** [ndarray.resize((rows, cols))], in place: the buffer is reallocated
    to [rows * cols] items, keeping its prefix and filling with zeros. *)
Definition nd_resize (rows cols : nat) (a : ndarray A) : ndarray A :=
  let n := rows * cols in
  mk_ndarray rows cols
    (take n (nd_data a) ++ replicate (n - length (nd_data a)) zero).

(** [a[lo:]] *)
Definition nd_slice_from (lo : nat) (a : ndarray A) : ndarray A :=
  mk_ndarray (nd_rows a - lo) (nd_cols a)
    (drop (lo * nd_cols a) (nd_data a)).

(** [a[:hi]] *)
Definition nd_slice_to (hi : nat) (a : ndarray A) : ndarray A :=
  let r := Nat.min hi (nd_rows a) in
  mk_ndarray r (nd_cols a) (take (r * nd_cols a) (nd_data a)).

(** The row indices selected by [a[hi:lo:-1]] for [0 <= lo], [0 <= hi]:
    from [min hi (rows - 1)] down to [lo + 1]. *)
Definition rev_range (rows hi lo : nat) : list nat :=
  let start := Nat.min hi (rows - 1) in
  if rows =? 0 then [] else reverse (seq (S lo) (start - lo)).

(** [a[hi:lo:-1]], a copy *)
Definition nd_slice_rev (hi lo : nat) (a : ndarray A) : ndarray A :=
  nd_of_rows (nd_cols a) (map (nd_row a) (rev_range (nd_rows a) hi lo)).

(** [a[lo:] = b]; NumPy refuses shapes it cannot broadcast.  Only equal
    shapes are accepted here, which is all the caller produces. *)
Definition nd_assign_from (lo : nat) (a b : ndarray A) : result (ndarray A) :=
  if (nd_rows b =? nd_rows a - lo) && (nd_cols b =? nd_cols a)
  then Ok (mk_ndarray (nd_rows a) (nd_cols a)
             (take (lo * nd_cols a) (nd_data a) ++ nd_data b))
  else Raise ValueError.

(** Lines 202-208 of [SpectrogramParser.audio_to_stft]: what happens to
    the magnitude array once librosa has produced it. *)
Definition fit_freq_bins (spect : ndarray A) : result (ndarray A) :=
  let shape := (nd_rows spect, nd_cols spect) in
  rbind
    (if fst shape <? 161 then
       let spect := nd_resize 161 (snd shape) spect in
       nd_assign_from 81 spect (nd_slice_rev 80 0 spect)
     else Ok spect)
    (fun spect => Ok (nd_slice_to 161 spect)).
End Resize.


(** ** Python strings, [pathlib] paths and [hashlib.sha1] *)


Definition quote_char : ascii := ascii_of_nat 34.
Definition backslash_char : ascii := ascii_of_nat 92.

(** [str(n)] for an integer *)
Definition py_str_int (n : Z) : string := pretty n.

(** [s[:n]] and [s[n:]] on strings *)
Definition str_take (n : nat) (s : string) : string :=
  string_of_list_ascii (take n (list_ascii_of_string s)).
Definition str_drop (n : nat) (s : string) : string :=
  string_of_list_ascii (drop n (list_ascii_of_string s)).

(** [s.replace('"', '\\"')]: a backslash before every double quote *)
Definition escape_quotes (s : string) : string :=
  string_of_list_ascii
    (concat (map (fun c => if Ascii.eqb c quote_char
                           then [backslash_char; quote_char] else [c])
                 (list_ascii_of_string s))).

(** [s.strip()]: whitespace removed at both ends *)
Definition is_space (c : ascii) : bool :=
  let n := nat_of_ascii c in
  (n =? 32)%nat || ((9 <=? n)%nat && (n <=? 13)%nat) || ((28 <=? n)%nat && (n <=? 31)%nat).

Fixpoint lstrip_chars (l : list ascii) : list ascii :=
  match l with
  | c :: l' => if is_space c then lstrip_chars l' else l
  | [] => []
  end.

Definition py_strip (s : string) : string :=
  string_of_list_ascii
    (reverse (lstrip_chars (reverse (lstrip_chars (list_ascii_of_string s))))).

(** [s.split(sep)] on a single character *)
Fixpoint split_on (sep : ascii) (cur : list ascii) (l : list ascii) : list string :=
  match l with
  | [] => [string_of_list_ascii (reverse cur)]
  | c :: l' =>
      if Ascii.eqb c sep
      then string_of_list_ascii (reverse cur) :: split_on sep [] l'
      else split_on sep (c :: cur) l'
  end.

Fixpoint str_join (sep : string) (l : list string) : string :=
  match l with
  | [] => ""
  | [x] => x
  | x :: l' => (x ++ sep ++ str_join sep l')%string
  end.

(** A [pathlib.PurePosixPath]: whether it is anchored at the root, and
    its components.  Empty and [.] components are dropped on parsing, as
    pathlib does; the two-slash anchor of POSIX is not distinguished. *)
Record PurePath : Type := mk_path {
  p_abs : bool;
  p_parts : list string
}.

Definition keep_part (s : string) : bool :=
  negb (String.eqb s "") && negb (String.eqb s ".").

Definition path_of_string (s : string) : PurePath :=
  mk_path
    (match s with String c _ => Ascii.eqb c "/" | EmptyString => false end)
    (filter (fun x => keep_part x = true) (split_on "/" [] (list_ascii_of_string s))).

(** [p / q] *)
Definition path_join (p q : PurePath) : PurePath :=
  if p_abs q then q else mk_path (p_abs p) (p_parts p ++ p_parts q).

(** [Path(a, b, c)] *)
Definition Path3 (a b c : string) : PurePath :=
  path_join (path_join (path_of_string a) (path_of_string b)) (path_of_string c).

(** [str(p)] *)
Definition path_str (p : PurePath) : string :=
  match p_abs p, p_parts p with
  | false, [] => "."
  | false, parts => str_join "/" parts
  | true, parts => ("/" ++ str_join "/" parts)%string
  end.

(** [p.name] *)
Definition path_name (p : PurePath) : string := List.last (p_parts p) "".

(** [p.parent] *)
Definition path_parent (p : PurePath) : PurePath :=
  mk_path (p_abs p) (removelast (p_parts p)).

(** The name under which the operating system finds a file given as a
    string: the string form of its path. *)
Definition fs_key (s : string) : string := path_str (path_of_string s).


(** ** [hashlib.sha1(...).hexdigest()]

    SHA-1 as in FIPS 180-4, over bytes as numbers below 256 and 32-bit
    words as [N] with the wrap-around written out. *)

Module Sha1.
Local Open Scope N_scope.

Definition w32 (x : N) : N := N.land x 0xFFFFFFFF.
Definition rotl (n x : N) : N :=
  w32 (N.lor (N.shiftl x n) (N.shiftr x (32 - n))).
Definition add32 (x y : N) : N := w32 (x + y).

Definition be_bytes (k : nat) (x : N) : list N :=
  map (fun i => N.land (N.shiftr x (8 * N.of_nat (k - 1 - i))) 0xFF) (seq 0 k).
Definition be_word (bs : list N) : N :=
  fold_left (fun acc b => N.lor (N.shiftl acc 8) b) bs 0.

Definition pad (msg : list N) : list N :=
  let len := length msg in
  let zeros := ((64 - ((len + 9) mod 64)) mod 64)%nat in
  msg ++ [0x80] ++ replicate zeros 0 ++ be_bytes 8 (8 * N.of_nat len).

Fixpoint chunks {A} (fuel k : nat) (l : list A) : list (list A) :=
  match fuel with
  | O => []
  | S fuel =>
      match l with
      | [] => []
      | _ => take k l :: chunks fuel k (drop k l)
      end
  end.

(** The message schedule, newest word first. *)
Fixpoint extend (n : nat) (w : list N) : list N :=
  match n with
  | O => w
  | S n =>
      let g i := nth i w 0 in
      extend n
        (rotl 1 (N.lxor (N.lxor (g 2%nat) (g 7%nat))
                        (N.lxor (g 13%nat) (g 15%nat))) :: w)
  end.

Definition f (t : nat) (b c d : N) : N :=
  if (t <? 20)%nat then N.lor (N.land b c) (N.land (N.lxor b 0xFFFFFFFF) d)
  else if (t <? 40)%nat then N.lxor (N.lxor b c) d
  else if (t <? 60)%nat then N.lor (N.lor (N.land b c) (N.land b d)) (N.land c d)
  else N.lxor (N.lxor b c) d.

Definition k (t : nat) : N :=
  if (t <? 20)%nat then 0x5A827999
  else if (t <? 40)%nat then 0x6ED9EBA1
  else if (t <? 60)%nat then 0x8F1BBCDC
  else 0xCA62C1D6.

Definition state : Type := N * N * N * N * N.

Definition round (st : state) (tw : nat * N) : state :=
  let '(a, b, c, d, e) := st in
  let '(t, w) := tw in
  let tmp :=
    add32 (add32 (add32 (add32 (rotl 5 a) (f t b c d)) e) (k t)) w in
  (tmp, a, rotl 30 b, c, d).

Definition block (h : state) (blk : list N) : state :=
  let w16 := map be_word (chunks 16 4 blk) in
  let w := rev (extend 64 (rev w16)) in
  let '(a, b, c, d, e) := fold_left round (combine (seq 0 80) w) h in
  let '(h0, h1, h2, h3, h4) := h in
  (add32 h0 a, add32 h1 b, add32 h2 c, add32 h3 d, add32 h4 e).

Definition init : state :=
  (0x67452301, 0xEFCDAB89, 0x98BADCFE, 0x10325476, 0xC3D2E1F0).

Definition hex_digit (n : N) : ascii :=
  nth (N.to_nat n) (list_ascii_of_string "0123456789abcdef") "0"%char.

Definition hex8 (x : N) : list ascii :=
  map (fun i => hex_digit (N.land (N.shiftr x (4 * N.of_nat (7 - i))) 0xF))
      (seq 0 8).

Definition hexdigest (msg : list byte) : string :=
  let bs := pad (map Byte.to_N msg) in
  let '(h0, h1, h2, h3, h4) :=
    fold_left block (chunks (length bs) 64 bs) init in
  string_of_list_ascii (hex8 h0 ++ hex8 h1 ++ hex8 h2 ++ hex8 h3 ++ hex8 h4).

End Sha1.

Definition bytes_of_string (s : string) : list byte :=
  map byte_of_ascii (list_ascii_of_string s).


(** ** Library interfaces

    Array elements are values of an abstract floating-point type with the
    operations NumPy, Torch and SciPy provide on it.  Python's own floats
    (window sizes, tempo and gain factors, noise levels) are rationals. *)

Record numlib : Type := mk_numlib {
  num : Type;
  f_zero : num;
  f_of_Q : Q -> num;
  f_add : num -> num -> num;
  f_neg : num -> num;
  f_mul : num -> num -> num;
  f_div : num -> num -> num;
  f_sqrt : num -> num;
  f_log1p : num -> num;
  (** [mean()] and [std()] of the listed elements *)
  f_mean : list num -> num;
  f_std : list num -> num;
  (** [scipy.ndimage.gaussian_filter1d(v, sigma)] along the last axis *)
  gaussian_filter1d : list num -> Z -> list num
}.

(** What [parse_audio] hands back: a NumPy array or a Torch tensor. *)
Inductive spect_val (A : Type) : Type :=
| NdArray (a : ndarray A)
| FloatTensor (a : ndarray A).
Arguments NdArray {A} a.
Arguments FloatTensor {A} a.

Definition spect_data {A} (v : spect_val A) : ndarray A :=
  match v with NdArray a | FloatTensor a => a end.

(** Objects a [.npy] file can hold, as far as the cache reads them. *)
Inductive pyobj (A : Type) : Type :=
| PyDict (items : list (string * option (spect_val A)))
| PyFloat (x : A)
| PyNone.
Arguments PyDict {A} items.
Arguments PyFloat {A} x.
Arguments PyNone {A}.

(** What [np.load] returns: a zero-dimensional object array, or an
    ordinary array. *)
Inductive npy (A : Type) : Type :=
| Npy0d (o : pyobj A)
| NpyArr (a : ndarray A).
Arguments Npy0d {A} o.
Arguments NpyArr {A} a.

Inductive window_fn : Type := hamming | hann | blackman | bartlett.

(** What a file holds: plain bytes, or the object a completed [np.save]
    stored in it ([np.load] gives that object back). *)
Inductive fdata (A : Type) : Type :=
| FBytes (bs : list byte)
| FNpy (o : pyobj A).
Arguments FBytes {A} bs.
Arguments FNpy {A} o.

Abbreviation files A := (gmap string (fdata A)).

Record extlib (K : numlib) : Type := mk_extlib {
  (** [torchaudio.load(path, normalization=False)] on the file's bytes:
      a tensor of shape channels x frames, and the sample rate *)
  torchaudio_load : list byte -> result (ndarray (num K) * Z);
  (** [os.system(cmd)]: what the command does to the file system *)
  os_system : string -> files (num K) -> files (num K);
  (** [subprocess.check_output([cmd], shell=True)] *)
  check_output : string -> files (num K) -> result (list byte);
  (** [float(bytes)] and [str(float)] *)
  py_float : list byte -> result Q;
  py_str_float : Q -> string;
  (** the name [NamedTemporaryFile(suffix)] picks *)
  mktemp : string -> files (num K) -> string;
  (** [librosa.util.find_files(dir)] *)
  find_files : string -> files (num K) -> list string;
  (** [librosa.magphase(librosa.stft(y, n_fft, hop_length, win_length,
      window))[0]] *)
  stft_magnitude : list (num K) -> Z -> Z -> Z -> window_fn ->
                   result (ndarray (num K));
  (** the bytes [np.save] writes for an object, and what [np.load] makes
      of bytes that no completed [np.save] wrote *)
  np_save_bytes : pyobj (num K) -> list byte;
  np_load_bytes : list byte -> result (npy (num K))
}.
Arguments torchaudio_load {K} _.
Arguments os_system {K} _.
Arguments check_output {K} _.
Arguments py_float {K} _.
Arguments py_str_float {K} _.
Arguments mktemp {K} _.
Arguments find_files {K} _.
Arguments stft_magnitude {K} _.
Arguments np_save_bytes {K} _.
Arguments np_load_bytes {K} _.

(** ** Process state *)

(** A generator: the raw 53-bit words it will produce and how many have
    been consumed. *)
Record rng : Type := mk_rng {
  rng_raw : nat -> N;
  rng_pos : nat
}.

Definition rng_next (g : rng) : N * rng :=
  (rng_raw g (rng_pos g), mk_rng (rng_raw g) (S (rng_pos g))).

(** A double in [0, 1) *)
Definition rng_double (g : rng) : Q * rng :=
  let '(x, g') := rng_next g in
  (Qmake (Z.of_N (x mod 2 ^ 53)) (2 ^ 53), g').

(** An integer in [0, bound) for [0 < bound] *)
Definition rng_below (bound : nat) (g : rng) : nat * rng :=
  let '(x, g') := rng_next g in
  (N.to_nat (x mod N.of_nat bound), g').

Inductive event : Type :=
| EPrint (msg : string)
| EPrintExc (msg : string) (e : pyexc)
| ETraceback
| ESystem (cmd : string)
| EStft (n_fft hop_length : Z)
| ESave (path : string)
| ERename (src dst : string)
| EUnlink (path : string)
| EMove (src dst : string)
| EMkdir (path : string).

(** Where in the cache write a SIGINT arrives. *)
Inductive sigint_at : Type :=
| AtSaveStart
| DuringSave (written : nat)
| BeforeRename
| AfterRename.

Record world (E : Type) : Type := mk_world {
  fs : files E;
  dirs : gset string;
  py_random : rng;
  np_random : rng;
  torch_random : rng;
  events : list event;
  sigint : option sigint_at
}.
Arguments mk_world {E} _ _ _ _ _ _ _.
Arguments fs {E} _.
Arguments dirs {E} _.
Arguments py_random {E} _.
Arguments np_random {E} _.
Arguments torch_random {E} _.
Arguments events {E} _.
Arguments sigint {E} _.

Section World.
Context {E : Type}.
Implicit Types (w : world E).

Definition set_fs (f : files E -> files E) w : world E :=
  mk_world (f (fs w)) (dirs w) (py_random w) (np_random w) (torch_random w)
    (events w) (sigint w).
Definition set_dirs (f : gset string -> gset string) w : world E :=
  mk_world (fs w) (f (dirs w)) (py_random w) (np_random w) (torch_random w)
    (events w) (sigint w).
Definition set_py_random (g : rng) w : world E :=
  mk_world (fs w) (dirs w) g (np_random w) (torch_random w) (events w) (sigint w).
Definition set_np_random (g : rng) w : world E :=
  mk_world (fs w) (dirs w) (py_random w) g (torch_random w) (events w) (sigint w).
Definition set_torch_random (g : rng) w : world E :=
  mk_world (fs w) (dirs w) (py_random w) (np_random w) g (events w) (sigint w).
Definition log_event (e : event) w : world E :=
  mk_world (fs w) (dirs w) (py_random w) (np_random w) (torch_random w)
    (events w ++ [e]) (sigint w).
Definition clear_sigint w : world E :=
  mk_world (fs w) (dirs w) (py_random w) (np_random w) (torch_random w)
    (events w) None.

End World.

(** ** Computations: state passing with exceptions *)

Definition M (E A : Type) : Type := world E -> result A * world E.

Section Monad.
Context {E : Type}.
Abbreviation M' := (M E).

Definition ret {A} (a : A) : M' A := fun w => (Ok a, w).
Definition raise {A} (e : pyexc) : M' A := fun w => (Raise e, w).
Definition bind {A B} (m : M' A) (k : A -> M' B) : M' B :=
  fun w => match m w with
           | (Ok a, w') => k a w'
           | (Raise e, w') => (Raise e, w')
           end.
Definition lift {A} (r : result A) : M' A := fun w => (r, w).
Definition modify (f : world E -> world E) : M' unit := fun w => (Ok tt, f w).
Definition gets {A} (f : world E -> A) : M' A := fun w => (Ok (f w), w).

(** [try: m except <classes matched by catches>: handler] *)
Definition try_except {A} (m : M' A) (catches : pyexc -> bool)
    (handler : pyexc -> M' A) : M' A :=
  fun w => match m w with
           | (Raise e, w') => if catches e then handler e w' else (Raise e, w')
           | r => r
           end.

Definition py_assert (c : bool) : M' unit :=
  if c then ret tt else raise AssertionError.

End Monad.

Notation "'let*' x ':=' m 'in' k" := (bind m (fun x => k))
  (at level 10, x pattern, m at level 100, k at level 200).
Notation "m ;; k" := (bind m (fun _ => k))
  (at level 100, right associativity).

Section OS.
Context {E : Type}.
Abbreviation M' := (M E).

Definition emit (e : event) : M' unit := modify (log_event e).
Definition print (msg : string) : M' unit := emit (EPrint msg).

(** *** The operating system *)

Definition path_exists (p : string) : M' bool :=
  gets (fun w => bool_decide (is_Some (fs w !! fs_key p))
                 || bool_decide (fs_key p ∈ dirs w)).

Definition write_file (p : string) (d : fdata E) : M' unit :=
  modify (set_fs (fun f => <[fs_key p := d]> f)).

Definition os_unlink (p : string) : M' unit :=
  fun w => match fs w !! fs_key p with
           | Some _ => (Ok tt, log_event (EUnlink (fs_key p))
                                 (set_fs (delete (fs_key p)) w))
           | None => (Raise FileNotFoundError, w)
           end.

(** [os.rename] and [shutil.move] of a file onto a file name *)
Definition move_file (src dst : string) : M' unit :=
  fun w => match fs w !! fs_key src with
           | Some bs =>
               (Ok tt, set_fs (fun f => <[fs_key dst := bs]> (delete (fs_key src) f)) w)
           | None => (Raise FileNotFoundError, w)
           end.

(** [p.mkdir(parents=True, exist_ok=True)] *)
Definition mkdir_parents (p : PurePath) : M' unit :=
  modify (set_dirs (fun d =>
    d ∪ list_to_set (map (fun n => path_str (mk_path (p_abs p) (take n (p_parts p))))
                         (seq 1 (length (p_parts p)))))) ;;
  emit (EMkdir (path_str p)).

End OS.


(** ** Formatting numbers the way [str.format] does *)

Definition round_half_even (q : Q) : Z :=
  let fl := Qfloor q in
  match Qcompare (q - inject_Z fl) (1 # 2) with
  | Lt => fl
  | Gt => (fl + 1)%Z
  | Eq => if Z.even fl then fl else (fl + 1)%Z
  end.

Definition pad3 (n : Z) : string :=
  let s := pretty n in
  ((if (n <? 10)%Z then "00" else if (n <? 100)%Z then "0" else "") ++ s)%string.

(** ["{:.3f}".format(q)] *)
Definition fmt_3f (q : Q) : string :=
  let t := Z.abs (round_half_even (q * 1000)) in
  ((match Qcompare q 0 with Lt => "-" | _ => "" end)
     ++ pretty (t / 1000)%Z ++ "." ++ pad3 (t mod 1000)%Z)%string.

Definition dq : string := String quote_char EmptyString.

(** A Python index into a sequence of [n] items *)
Definition py_index (n : nat) (i : Z) : option nat :=
  if ((0 <=? i) && (i <? Z.of_nat n))%Z then Some (Z.to_nat i)
  else if ((- Z.of_nat n <=? i) && (i <? 0))%Z then Some (Z.to_nat (Z.of_nat n + i))
  else None.

Section Audio.
Context (K : numlib) (X : extlib K).
Abbreviation F := (num K).
Abbreviation M' := (M (num K)).

(** [open(path, 'rb').read()] *)
Definition read_bytes (p : string) : M' (list byte) :=
  fun w => match fs w !! fs_key p with
           | Some (FBytes bs) => (Ok bs, w)
           | Some (FNpy o) => (Ok (np_save_bytes X o), w)
           | None => (Raise FileNotFoundError, w)
           end.

(** [a.T] *)
Definition nd_transpose (a : ndarray F) : ndarray F :=
  mk_ndarray (nd_cols a) (nd_rows a)
    (concat (map (fun j => map (fun i => nth (i * nd_cols a + j) (nd_data a) (f_zero K))
                               (seq 0 (nd_rows a)))
                 (seq 0 (nd_cols a)))).

(** [load_audio], lines 36-46.  A rank-two array always takes the outer
    branch; [squeeze] of a one-column array is its buffer. *)
Definition load_audio (path : string) (channel : Z) : M' (list F * Z) :=
  let* bs := read_bytes path in
  let* (sound, sample_rate) := lift (torchaudio_load X bs) in
  let sound := nd_transpose sound in
  if nd_cols sound =? 1 then ret (nd_data sound, sample_rate)
  else if (channel =? -1)%Z then
    ret (map (f_mean K) (nd_to_rows sound), sample_rate)
  else
    match py_index (nd_cols sound) channel with
    | Some c => ret (map (fun row => nth c row (f_zero K)) (nd_to_rows sound),
                     sample_rate)
    | None => raise IndexError
    end.

(** [with NamedTemporaryFile(suffix=...) as f: body(f.name)]: the file
    exists, empty, while the body runs and is removed afterwards. *)
Definition with_tempfile {A} (suffix : string) (body : string -> M' A) : M' A :=
  fun w =>
    let name := mktemp X suffix (fs w) in
    let '(r, w') := body name (set_fs (fun f => <[fs_key name := FBytes []]> f) w) in
    (r, set_fs (delete (fs_key name)) w').

Definition run_system (cmd : string) : M' unit :=
  modify (set_fs (os_system X cmd)) ;; emit (ESystem cmd).

(** [np.random.uniform(low, high)], [np.random.rand()] *)
Definition np_rand : M' Q :=
  fun w => let '(u, g) := rng_double (np_random w) in (Ok u, set_np_random g w).

Definition np_uniform (low high : Q) : M' Q :=
  let* u := np_rand in ret (low + (high - low) * u)%Q.

(** [get_audio_length], lines 462-464 *)
Definition get_audio_length (path : string) : M' Q :=
  let cmd := ("soxi -D " ++ dq ++ escape_quotes (py_strip path) ++ dq)%string in
  let* output := (fun w => (check_output X cmd (fs w), w)) in
  lift (py_float X output).

(** [audio_with_sox], lines 467-479 *)
Definition audio_with_sox (path : string) (sample_rate : Z)
    (start_time end_time : Q) : M' (list F * Z) :=
  with_tempfile ".wav" (fun tar_filename =>
    let sox_params :=
      ("sox " ++ dq ++ escape_quotes path ++ dq ++ " -r " ++ py_str_int sample_rate
         ++ " -c 1 -b 16 -e si " ++ tar_filename
         ++ " trim " ++ py_str_float X start_time
         ++ " =" ++ py_str_float X end_time
         ++ " >>sox.1.log 2>>sox.2.log")%string in
    run_system sox_params ;;
    let* (y, sample_rate_) := load_audio tar_filename (-1) in
    py_assert (sample_rate =? sample_rate_)%Z ;;
    ret (y, sample_rate)).

(** The command line of [augment_audio_with_sox], lines 488-495 *)
Definition sox_augment_command (path : string) (sample_rate : Z)
    (augmented_filename : string) (tempo gain : Q) (channel : Z) : string :=
  let sox_augment_params :=
    ["tempo"; fmt_3f tempo; "gain"; fmt_3f gain]
      ++ (if (channel =? -1)%Z then []
          else ["remix"; py_str_int (channel + 1)]) in
  ("sox " ++ dq ++ escape_quotes path ++ dq ++ " -r " ++ py_str_int sample_rate
     ++ " -c 1 -b 16 -t wav -e si " ++ augmented_filename
     ++ " " ++ str_join " " sox_augment_params
     ++ " >>sox.1.log 2>>sox.2.log")%string.

(** [augment_audio_with_sox], lines 482-499 *)
Definition augment_audio_with_sox (path : string) (sample_rate : Z)
    (tempo gain : Q) (channel : Z) : M' (list F * Z) :=
  with_tempfile ".wav" (fun augmented_filename =>
    let sox_params :=
      sox_augment_command path sample_rate augmented_filename tempo gain channel in
    run_system sox_params ;;
    let* (y, sample_rate_) := load_audio augmented_filename (-1) in
    py_assert (sample_rate =? sample_rate_)%Z ;;
    ret (y, sample_rate)).

(** [load_randomly_augmented_audio], lines 502-515 *)
Definition load_randomly_augmented_audio (path : string) (sample_rate : Z)
    (tempo_range gain_range : Q * Q) (channel : Z) : M' (list F * Z) :=
  let '(low_tempo, high_tempo) := tempo_range in
  let* tempo_value := np_uniform low_tempo high_tempo in
  let '(low_gain, high_gain) := gain_range in
  let* gain_value := np_uniform low_gain high_gain in
  let* (audio, sample_rate_) :=
    augment_audio_with_sox path sample_rate tempo_value gain_value channel in
  py_assert (sample_rate =? sample_rate_)%Z ;;
  ret (audio, sample_rate).

Definition default_gain_range : Q * Q := (-(10), 10)%Q.

(** *** [NoiseInjection], lines 65-97 *)

Record NoiseInjection : Type := mk_noise {
  ni_paths : list string;
  ni_sample_rate : Z;
  ni_noise_levels : Q * Q
}.

Definition NoiseInjection_init (path : string) (sample_rate : Z)
    (noise_levels : Q * Q) : M' NoiseInjection :=
  let* found := path_exists path in
  if negb found then
    print ("Directory doesn't exist: " ++ path)%string ;; raise OSError
  else
    let* paths := gets (fun w => find_files X path (fs w)) in
    ret (mk_noise paths sample_rate noise_levels).

Definition f_dot (x y : list F) : F :=
  fold_left (f_add K) (zip_with (f_mul K) x y) (f_zero K).

Definition f_of_nat (n : nat) : F := f_of_Q K (inject_Z (Z.of_nat n)).

Definition inject_noise_sample (self : NoiseInjection) (data : list F)
    (noise_path : string) (noise_level : Q) : M' (list F) :=
  let* noise_len := get_audio_length noise_path in
  if (ni_sample_rate self =? 0)%Z then raise ZeroDivisionError else
  let data_len := (inject_Z (Z.of_nat (length data)) / inject_Z (ni_sample_rate self))%Q in
  let* u := np_rand in
  let noise_start := (u * (noise_len - data_len))%Q in
  let noise_end := (noise_start + data_len)%Q in
  let* (noise_dst, sample_rate_) :=
    audio_with_sox noise_path (ni_sample_rate self) noise_start noise_end in
  py_assert (sample_rate_ =? ni_sample_rate self)%Z ;;
  py_assert (length data =? length noise_dst) ;;
  let noise_energy :=
    f_div K (f_sqrt K (f_dot noise_dst noise_dst)) (f_of_nat (length noise_dst)) in
  let data_energy :=
    f_div K (f_sqrt K (f_dot data data)) (f_of_nat (length data)) in
  ret (zip_with
         (fun d n =>
            f_add K d
              (f_div K (f_mul K (f_mul K (f_of_Q K noise_level) n) data_energy)
                 noise_energy))
         data noise_dst).

(** [np.random.choice(paths)] refuses an empty sequence. *)
Definition np_choice (paths : list string) : M' string :=
  match paths with
  | [] => raise ValueError
  | p :: _ =>
      fun w => let '(i, g) := rng_below (length paths) (np_random w) in
               (Ok (nth i paths p), set_np_random g w)
  end.

Definition inject_noise (self : NoiseInjection) (data : list F) : M' (list F) :=
  let* noise_path := np_choice (ni_paths self) in
  let* noise_level :=
    np_uniform (fst (ni_noise_levels self)) (snd (ni_noise_levels self)) in
  inject_noise_sample self data noise_path noise_level.

End Audio.


(** ** [SpectrogramParser], lines 100-252 *)

Definition TEMPOS (tempo_id : Z) : option (string * (Q * Q)) :=
  match tempo_id with
  | 0%Z => Some ("1.0", (1, 1)%Q)
  | 1%Z => Some ("0.9", (85 # 100, 95 # 100))
  | 2%Z => Some ("1.1", (105 # 100, 115 # 100))
  | _ => None
  end.

(** The [normalize] argument: a boolean or a mode name. *)
Inductive pynorm : Type :=
| NormBool (b : bool)
| NormStr (s : string).

Definition norm_is (n : pynorm) (name : string) : bool :=
  match n with NormStr s => String.eqb s name | NormBool _ => false end.

Definition norm_falsy (n : pynorm) : bool :=
  match n with NormBool b => negb b | NormStr s => String.eqb s "" end.

(** [windows.get(name, windows['hamming'])] *)
Definition windows_get (name : string) : window_fn :=
  if String.eqb name "hann" then hann
  else if String.eqb name "blackman" then blackman
  else if String.eqb name "bartlett" then bartlett
  else hamming.

(** [int(x)] of a float: truncation towards zero *)
Definition py_int (q : Q) : Z := Z.quot (Qnum q) (Zpos (Qden q)).

Record audio_conf : Type := mk_audio_conf {
  ac_window_stride : Q;
  ac_window_size : Q;
  ac_sample_rate : Z;
  ac_window : string;
  ac_noise_dir : option string;
  ac_noise_levels : Q * Q;
  ac_noise_prob : option Q
}.

Section Parser.
Context (K : numlib) (X : extlib K).
Abbreviation F := (num K).
Abbreviation M' := (M (num K)).

Record SpectrogramParser : Type := mk_parser {
  window_stride : Q;
  window_size : Q;
  sample_rate : Z;
  window : window_fn;
  normalize : pynorm;
  augment : bool;
  channel : Z;
  cache_path : string;
  noiseInjector : option NoiseInjection;
  noise_prob : option Q
}.

Definition SpectrogramParser_init (conf : audio_conf) (cache_path : string)
    (normalize : pynorm) (augment : bool) (channel : Z) : M' SpectrogramParser :=
  let* injector :=
    match ac_noise_dir conf with
    | Some dir =>
        let* ni := NoiseInjection_init K X dir (ac_sample_rate conf)
                     (ac_noise_levels conf) in
        ret (Some ni)
    | None => ret None
    end in
  ret (mk_parser (ac_window_stride conf) (ac_window_size conf)
         (ac_sample_rate conf) (windows_get (ac_window conf))
         normalize augment channel cache_path injector (ac_noise_prob conf)).

(** [.item()] of a loaded array, then [['spect']] *)
Definition npy_item (a : npy F) : result (pyobj F) :=
  match a with
  | Npy0d o => Ok o
  | NpyArr arr =>
      match nd_data arr with
      | [x] => Ok (PyFloat x)
      | _ => Raise ValueError
      end
  end.

Fixpoint dict_get {V} (key : string) (items : list (string * V)) : option V :=
  match items with
  | [] => None
  | (k, v) :: rest => if String.eqb k key then Some v else dict_get key rest
  end.

Definition getitem_spect (o : pyobj F) : result (option (spect_val F)) :=
  match o with
  | PyDict items =>
      match dict_get "spect" items with
      | Some v => Ok v
      | None => Raise KeyError
      end
  | _ => Raise TypeError
  end.

(** [np.load(path)] *)
Definition np_load (path : string) : M' (npy F) :=
  fun w => match fs w !! fs_key path with
           | Some (FNpy o) => (Ok (Npy0d o), w)
           | Some (FBytes bs) => (np_load_bytes X bs, w)
           | None => (Raise FileNotFoundError, w)
           end.

Definition np_load_spect (path : string) : M' (option (spect_val F)) :=
  let* arr := np_load path in
  let* obj := lift (npy_item arr) in
  lift (getitem_spect obj).

(** The cache file of an audio file with the given bytes (lines 130-135). *)
Definition chan_name (channel : Z) : string :=
  if (channel =? -1)%Z then "avg" else py_str_int channel.

Definition cache_file (cache_path audio_path : string) (content : list byte)
    (tempo_name : string) (channel : Z) : PurePath :=
  let f_path := path_of_string audio_path in
  let f_hash := str_take 9 (Sha1.hexdigest content) in
  Path3 cache_path (str_take 2 f_hash)
    (path_name f_path ++ "." ++ str_drop 2 f_hash ++ "." ++ tempo_name
       ++ "." ++ chan_name channel ++ ".npy")%string.

(** Lines 132-140 of [load_audio_cache]: hash the audio file, name the
    cache file, make its directory, and move a cache file of the old
    naming scheme into place if there is one and the new one is absent. *)
Definition locate_cache (self : SpectrogramParser) (audio_path : string)
    (tempo_name : string) : M' PurePath :=
  let chan := chan_name (channel self) in
  let f_path := path_of_string audio_path in
  let* content := read_bytes K X (path_str f_path) in
  let cache_fn :=
    cache_file (cache_path self) audio_path content tempo_name (channel self) in
  mkdir_parents (path_parent cache_fn) ;;
  let old_cache_fn := (audio_path ++ "-" ++ tempo_name ++ "-" ++ chan ++ ".npy")%string in
  let* old_exists := path_exists old_cache_fn in
  let* new_exists := path_exists (path_str cache_fn) in
  (if old_exists && negb new_exists then
     print ("Moving " ++ old_cache_fn ++ " to " ++ path_str cache_fn)%string ;;
     move_file old_cache_fn (path_str cache_fn) ;;
     emit (EMove (fs_key old_cache_fn) (fs_key (path_str cache_fn)))
   else ret tt) ;;
  ret cache_fn.

(** Lines 141-149: the guarded read *)
Definition read_cache (cache_fn : PurePath) : M' (option (spect_val F)) :=
  let* present := path_exists (path_str cache_fn) in
  if present then
    try_except (np_load_spect (path_str cache_fn)) is_Exception
      (fun e =>
         emit (EPrintExc ("Can't load file " ++ path_str cache_fn
                            ++ " with exception:")%string e) ;;
         emit ETraceback ;;
         ret None)
  else ret None.

(** [load_audio_cache], lines 129-150 *)
Definition load_audio_cache (self : SpectrogramParser) (audio_path : string)
    (tempo_id : Z) : M' (PurePath * option (spect_val F)) :=
  match TEMPOS tempo_id with
  | None => raise KeyError
  | Some (tempo_name, tempo) =>
      let* cache_fn := locate_cache self audio_path tempo_name in
      let* spec := read_cache cache_fn in
      ret (cache_fn, spec)
  end.

(** [audio_to_stft], lines 193-208 *)
Definition audio_to_stft (self : SpectrogramParser) (y : list F)
    (sample_rate : Z) : M' (ndarray F) :=
  let n_fft := py_int (inject_Z sample_rate * (window_size self + (1 # 100000000)))%Q in
  let win_length := n_fft in
  let hop_length := py_int (inject_Z sample_rate * (window_stride self + (1 # 100000000)))%Q in
  emit (EStft n_fft hop_length) ;;
  let* spect := lift (stft_magnitude X y n_fft hop_length win_length (window self)) in
  lift (fit_freq_bins (f_zero K) spect).

Definition nd_map (f : F -> F) (a : ndarray F) : ndarray F :=
  mk_ndarray (nd_rows a) (nd_cols a) (map f (nd_data a)).

(** [t.add_(-m)] and [t.div_(m)] for a scalar [m] *)
Definition add_scalar (m : F) (a : ndarray F) : ndarray F :=
  nd_map (fun x => f_add K x m) a.
Definition div_scalar (m : F) (a : ndarray F) : ndarray F :=
  nd_map (fun x => f_div K x m) a.

(** [t.mean(dim=0, keepdim=True)], [t.std(dim=0, keepdim=True)]: one
    value per column *)
Definition nd_columns (a : ndarray F) : list (list F) :=
  nd_to_rows (nd_transpose K a).
Definition mean_dim0 (a : ndarray F) : list F := map (f_mean K) (nd_columns a).
Definition std_dim0 (a : ndarray F) : list F := map (f_std K) (nd_columns a).

(** [normalize_audio], lines 210-249 *)
Definition normalize_audio (self : SpectrogramParser) (spect : ndarray F)
    : M' (spect_val F) :=
  let n := normalize self in
  if norm_is n "mean" then
    let spect := nd_map (f_log1p K) spect in
    let mean := f_mean K (nd_data spect) in
    ret (FloatTensor (add_scalar (f_neg K mean) spect))
  else if norm_is n "norm" then
    let spect := nd_map (f_log1p K) spect in
    let mean := f_mean K (nd_data spect) in
    let spect := add_scalar (f_neg K mean) spect in
    let std := std_dim0 spect in
    ret (FloatTensor (div_scalar (f_mean K std) spect))
  else if norm_is n "frame" then
    let spect := nd_map (f_log1p K) spect in
    let mean := mean_dim0 spect in
    let mean := gaussian_filter1d K mean 50 in
    ret (FloatTensor (add_scalar (f_neg K (f_mean K mean)) spect))
  else if norm_is n "max_frame" then
    let spect :=
      nd_map (fun x => f_log1p K (f_mul K x (f_of_Q K (inject_Z 1048576)))) spect in
    let mean := mean_dim0 spect in
    let mean := gaussian_filter1d K mean 20 in
    let max_mean := f_mean K mean in
    ret (FloatTensor (add_scalar (f_neg K max_mean) spect))
  else if norm_falsy n || norm_is n "none" then
    ret (FloatTensor (nd_map (f_log1p K) spect))
  else raise (PlainException "No such normalization").

(** [random.randrange(n)] *)
Definition random_randrange (n : nat) : M' Z :=
  fun w => let '(i, g) := rng_below n (py_random w) in
           (Ok (Z.of_nat i), set_py_random g w).

(** [np.random.binomial(1, p)]: one uniform draw, success when it falls
    in the upper [p] of the unit interval *)
Definition np_binomial1 (p : option Q) : M' bool :=
  match p with
  | None => raise TypeError
  | Some p =>
      let* u := np_rand K in
      ret (match Qcompare (1 - p) u with Lt => true | _ => false end)
  end.

(** [torch.rand(1)] *)
Definition torch_rand : M' Q :=
  fun w => let '(u, g) := rng_double (torch_random w) in
           (Ok u, set_torch_random g w).

(** A SIGINT due at the given point is delivered as KeyboardInterrupt. *)
Definition deliver_sigint (point : sigint_at -> bool) : M' unit :=
  fun w => match sigint w with
           | Some s => if point s then (Raise KeyboardInterrupt, clear_sigint w)
                       else (Ok tt, w)
           | None => (Ok tt, w)
           end.

(** [np.save(path, obj)]: the file is created and its bytes written; a
    SIGINT can arrive before the file is opened or after a prefix of the
    bytes has been written. *)
Definition np_save (path : string) (obj : pyobj F) : M' unit :=
  deliver_sigint (fun s => match s with AtSaveStart => true | _ => false end) ;;
  (fun w => match sigint w with
            | Some (DuringSave k) =>
                (Raise KeyboardInterrupt,
                 clear_sigint
                   (set_fs (fun f => <[fs_key path := FBytes (take k (np_save_bytes X obj))]> f) w))
            | _ => (Ok tt, w)
            end) ;;
  write_file path (FNpy obj) ;;
  emit (ESave (fs_key path)).

Definition os_rename (src dst : string) : M' unit :=
  move_file src dst ;; emit (ERename (fs_key src) (fs_key dst)).

Definition is_KeyboardInterrupt (e : pyexc) : bool :=
  match e with KeyboardInterrupt => true | _ => false end.

(** Lines 178-184: the cache write and its handler *)
Definition store_in_cache (cache_fn : PurePath) (spect : spect_val F) : M' unit :=
  try_except
    (np_save (path_str cache_fn ++ ".tmp.npy")%string (PyDict [("spect", Some spect)]) ;;
     deliver_sigint (fun s => match s with BeforeRename => true | _ => false end) ;;
     os_rename (path_str cache_fn ++ ".tmp.npy")%string (path_str cache_fn) ;;
     deliver_sigint (fun s => match s with AfterRename => true | _ => false end))
    is_KeyboardInterrupt
    (fun _ => os_unlink (path_str cache_fn)).

(** Lines 162-175: what [parse_audio] computes when the cache gave
    nothing *)
Definition compute_spect (self : SpectrogramParser) (audio_path : string)
    (tempo_range : Q * Q) : M' (spect_val F) :=
  let* (y, sample_rate) :=
    if augment self || true then
      load_randomly_augmented_audio K X audio_path (sample_rate self)
        tempo_range default_gain_range (channel self)
    else
      load_audio K X audio_path (channel self) in
  let* y :=
    match noiseInjector self with
    | Some injector =>
        let* add_noise := np_binomial1 (noise_prob self) in
        if add_noise then inject_noise K X injector y else ret y
    | None => ret y
    end in
  let* spect := audio_to_stft self y sample_rate in
  normalize_audio self spect.

(** [spect.add_(torch.rand(1) - 0.5)] *)
Definition add_jitter (spect : spect_val F) : M' (spect_val F) :=
  match spect with
  | FloatTensor t =>
      let* u := torch_rand in
      ret (FloatTensor (add_scalar (f_of_Q K (u - (1 # 2))%Q) t))
  | NdArray _ => raise AttributeError
  end.

(** Lines 153-156: the tempo variant *)
Definition choose_tempo (self : SpectrogramParser) : M' Z :=
  if augment self then random_randrange 3 else ret 0%Z.

(** Lines 162-184: the body of [if spect is None] *)
Definition recompute (self : SpectrogramParser) (audio_path : string)
    (tempo_id : Z) (cache_fn : PurePath) : M' (spect_val F) :=
  match TEMPOS tempo_id with
  | None => raise KeyError
  | Some (_, tempo_range) =>
      let* spect := compute_spect self audio_path tempo_range in
      (if (tempo_id =? 0)%Z then store_in_cache cache_fn spect else ret tt) ;;
      ret spect
  end.

(** Lines 186-188 *)
Definition finish (self : SpectrogramParser) (spect : spect_val F)
    : M' (spect_val F) :=
  if augment self && norm_is (normalize self) "max_frame"
  then add_jitter spect
  else ret spect.

(** [parse_audio], lines 152-188 *)
Definition parse_audio (self : SpectrogramParser) (audio_path : string)
    : M' (spect_val F) :=
  let* tempo_id := choose_tempo self in
  let* (cache_fn, spect) := load_audio_cache self audio_path tempo_id in
  let* spect :=
    match spect with
    | None => recompute self audio_path tempo_id cache_fn
    | Some spect => ret spect
    end in
  finish self spect.

Definition parse_audio_for_transcription (self : SpectrogramParser)
    (audio_path : string) : M' (spect_val F) :=
  parse_audio self audio_path.

End Parser.


(** ** [_collate_fn], lines 365-390 *)

Section Collate.
Context {A : Type} (zero : A).

(** One dataset item: the feature tensor (frequency x time), the label
    sequence and the audio path. *)
Record sample : Type := mk_sample {
  s_tensor : ndarray A;
  s_target : list Z;
  s_path : string
}.

(** [sample[0].size(1)] *)
Definition seq_len (s : sample) : nat := nd_cols (s_tensor s).

(** [sorted(batch, key=..., reverse=True)]: descending, and stable (items
    of equal length keep their order). *)
Fixpoint insert_desc (x : sample) (l : list sample) : list sample :=
  match l with
  | [] => [x]
  | y :: l' =>
      if seq_len y <=? seq_len x then x :: l else y :: insert_desc x l'
  end.

Definition sorted_desc (batch : list sample) : list sample :=
  fold_right insert_desc [] batch.

(** [max(batch, key=func)]: the first item of greatest length *)
Fixpoint max_by_len (best : sample) (l : list sample) : sample :=
  match l with
  | [] => best
  | y :: l' => max_by_len (if seq_len best <? seq_len y then y else best) l'
  end.

Definition py_max (batch : list sample) : result sample :=
  match batch with
  | [] => Raise ValueError
  | x :: l => Ok (max_by_len x l)
  end.

(** [torch.zeros(rows, cols)] *)
Definition nd_zeros (rows cols : nat) : ndarray A :=
  mk_ndarray rows cols (replicate (rows * cols) zero).

(** [dst.narrow(1, 0, n).copy_(src)]: columns [0..n) of every row of
    [dst] are overwritten with [src], which must have [n] columns and
    either as many rows as [dst] or a single row, which is then repeated. *)
Definition narrow_copy (dst : ndarray A) (n : nat) (src : ndarray A)
    : result (ndarray A) :=
  if negb (n <=? nd_cols dst) then Raise RuntimeError
  else if negb (nd_cols src =? n) then Raise RuntimeError
  else if negb ((nd_rows src =? nd_rows dst) || (nd_rows src =? 1)) then
    Raise RuntimeError
  else
    Ok (nd_of_rows (nd_cols dst)
          (map (fun i =>
                  nd_row src (if nd_rows src =? nd_rows dst then i else 0)
                    ++ drop n (nd_row dst i))
               (seq 0 (nd_rows dst)))).

Record collated : Type := mk_collated {
  inputs : list (list (ndarray A));
  targets : list Z;
  filenames : list string;
  input_percentages : list Q;
  target_sizes : list Z
}.

(** The body of the loop, for index [x] *)
Definition collate_step (batch : list sample) (freq_size max_seqlength : nat)
    (acc : collated) (x : nat) : result collated :=
  match batch !! x with
  | None => Raise IndexError
  | Some sample =>
      let tensor := s_tensor sample in
      let target := s_target sample in
      let filenames := filenames acc ++ [s_path sample] in
      let seq_length := nd_cols tensor in
      rbind (narrow_copy (nd_zeros freq_size max_seqlength) seq_length tensor)
        (fun plane =>
           let inputs := <[x := [plane]]> (inputs acc) in
           if max_seqlength =? 0 then Raise ZeroDivisionError
           else
             let fraction :=
               (inject_Z (Z.of_nat seq_length) / inject_Z (Z.of_nat max_seqlength))%Q in
             Ok (mk_collated inputs
                   (targets acc ++ target)
                   filenames
                   (<[x := fraction]> (input_percentages acc))
                   (<[x := Z.of_nat (length target)]> (target_sizes acc))))
  end.

Fixpoint collate_loop (batch : list sample) (freq_size max_seqlength : nat)
    (acc : collated) (xs : list nat) : result collated :=
  match xs with
  | [] => Ok acc
  | x :: xs' =>
      rbind (collate_step batch freq_size max_seqlength acc x)
        (fun acc' => collate_loop batch freq_size max_seqlength acc' xs')
  end.

Definition _collate_fn (batch : list sample) : result collated :=
  let batch := sorted_desc batch in
  rbind (py_max batch) (fun longest =>
    let longest_sample := s_tensor longest in
    let freq_size := nd_rows longest_sample in
    let minibatch_size := length batch in
    let max_seqlength := nd_cols longest_sample in
    let inputs :=
      replicate minibatch_size [nd_zeros freq_size max_seqlength] in
    let input_percentages := replicate minibatch_size 0%Q in
    let target_sizes := replicate minibatch_size 0%Z in
    collate_loop batch freq_size max_seqlength
      (mk_collated inputs [] [] input_percentages target_sizes)
      (seq 0 minibatch_size)).

End Collate.
Arguments sample : clear implicits.
Arguments collated : clear implicits.
Arguments mk_sample {A} _ _ _.
Arguments s_tensor {A} _.
Arguments s_target {A} _.
Arguments s_path {A} _.
Arguments seq_len {A} _.
Arguments inputs {A} _.
Arguments targets {A} _.
Arguments filenames {A} _.
Arguments input_percentages {A} _.
Arguments target_sizes {A} _.
Arguments sorted_desc {A} _.


(** ** Samplers, lines 402-459 *)

(** [[ids[i:i + batch_size] for i in range(0, len(ids), batch_size)]]
    with [ids = list(range(0, n))].  A zero step is refused by [range];
    a negative one gives an empty range. *)
Definition make_bins (n : nat) (batch_size : Z) : result (list (list nat)) :=
  if (batch_size =? 0)%Z then Raise ValueError
  else if (batch_size <? 0)%Z then Ok []
  else
    let bs := Z.to_nat batch_size in
    let ids := seq 0 n in
    Ok (map (fun k => take bs (drop (k * bs) ids))
            (seq 0 ((n + bs - 1) / bs))).

(** [x[i], x[j] = x[j], x[i]] *)
Definition swap {A} (l : list A) (i j : nat) : list A :=
  match l !! i, l !! j with
  | Some a, Some b => <[i := b]> (<[j := a]> l)
  | _, _ => l
  end.

(** [np.random.shuffle(x)]: for [i] from [len(x) - 1] down to 1, swap
    item [i] with item [j] drawn from [0..i]. *)
Fixpoint shuffle_from {A} (i : nat) (l : list A) (g : rng) : list A * rng :=
  match i with
  | O => (l, g)
  | S i' =>
      let '(j, g') := rng_below (S i) g in
      shuffle_from i' (swap l i j) g'
  end.

Definition np_shuffle {E A} (l : list A) : M E (list A) :=
  fun w =>
    let '(l', g) := shuffle_from (length l - 1) l (np_random w) in
    (Ok l', set_np_random g w).

Module BucketingSampler.

Record t : Type := mk {
  data_source_len : nat;
  bins : list (list nat)
}.

Definition init (data_source_len : nat) (batch_size : Z) : result t :=
  rbind (make_bins data_source_len batch_size)
    (fun bins => Ok (mk data_source_len bins)).

(** [__iter__], run to exhaustion: every bin is shuffled in place and
    yielded, so the sampler's own bins end up being the yielded lists. *)
Fixpoint iter_bins {E} (todo : list (list nat)) : M E (list (list nat)) :=
  match todo with
  | [] => ret []
  | ids :: rest =>
      let* ids' := np_shuffle ids in
      let* rest' := iter_bins rest in
      ret (ids' :: rest')
  end.

Definition iter {E} (self : t) : M E (list (list nat) * t) :=
  let* yielded := iter_bins (bins self) in
  ret (yielded, mk (data_source_len self) yielded).

Definition len (self : t) : nat := length (bins self).

(** [shuffle(self, epoch)], lines 420-421 *)
Definition shuffle {E} (self : t) (epoch : Z) : M E t :=
  let* bins' := np_shuffle (bins self) in
  ret (mk (data_source_len self) bins').

End BucketingSampler.

(** [l[offset::step]] for [0 < step] *)
Definition stride_slice {A} (l : list A) (offset step : nat) : list A :=
  omap (fun k => l !! (offset + k * step))
       (seq 0 ((length l - offset + step - 1) / step)).

Module DistributedBucketingSampler.
Section WithTorch.
(** [torch.distributed.get_world_size()], [get_rank()], and
    [torch.randperm(n, generator=g)] after [g.manual_seed(seed)] *)
Context (get_world_size get_rank : nat).
Context (torch_randperm : Z -> nat -> list nat).

Record t : Type := mk {
  data_source_len : nat;
  ids : list nat;
  batch_size : Z;
  bins : list (list nat);
  num_replicas : nat;
  rank : nat;
  num_samples : nat;
  total_size : nat
}.

(** [int(math.ceil(a * 1.0 / b))] *)
Definition ceil_div (a b : nat) : nat := (a + b - 1) / b.

Definition init (data_source_len : nat) (batch_size : Z)
    (num_replicas rank : option nat) : result t :=
  let num_replicas := default get_world_size num_replicas in
  let rank := default get_rank rank in
  let ids := seq 0 data_source_len in
  rbind (make_bins data_source_len batch_size) (fun bins =>
    if num_replicas =? 0 then Raise ZeroDivisionError
    else
      let num_samples := ceil_div (length bins) num_replicas in
      Ok (mk data_source_len ids batch_size bins num_replicas rank
            num_samples (num_samples * num_replicas))).

(** [__iter__], lines 443-449 *)
Definition iter (self : t) : result (list (list nat)) :=
  let offset := rank self in
  let bins := bins self ++ take (total_size self - length (bins self)) (bins self) in
  if negb (length bins =? total_size self) then Raise AssertionError
  else Ok (stride_slice bins offset (num_replicas self)).

Definition len (self : t) : nat := num_samples self.

Definition with_bins (self : t) (bins' : list (list nat)) : t :=
  mk (data_source_len self) (ids self) (batch_size self) bins'
     (num_replicas self) (rank self) (num_samples self) (total_size self).

(** [[self.bins[i] for i in bin_ids]] *)
Fixpoint select_bins (bins : list (list nat)) (bin_ids : list nat)
    : result (list (list nat)) :=
  match bin_ids with
  | [] => Ok []
  | i :: rest =>
      match bins !! i with
      | Some b => rbind (select_bins bins rest) (fun bs => Ok (b :: bs))
      | None => Raise IndexError
      end
  end.

(** [shuffle(self, epoch)], lines 454-459 *)
Definition shuffle {E} (self : t) (epoch : Z) : M E t :=
  let bin_ids := torch_randperm epoch (length (bins self)) in
  let* bins' := lift (select_bins (bins self) bin_ids) in
  ret (with_bins self bins').

End WithTorch.
End DistributedBucketingSampler.

(** ** [SpectrogramDataset], lines 255-362 *)

(** The Python values that occur in manifest and curriculum rows. *)
Inductive pyval : Type :=
| PStr (s : string)
| PInt (n : Z)
| PFloat (q : Q)
| PNone
| POffsets (l : list Z).

(** [tuple(row[0], row[1], row[2] if len(row) > 2 else 0)] *)
Definition manifest_item : Type := string * string * pyval.

(** One row of the curriculum: a dict from column names to values *)
Definition curriculum_row : Type := gmap string pyval.

(** The module-level dict [TS_CACHE] *)
Definition ts_cache : Type := gmap string (list Z).

(** [l[:k]] *)
Definition py_slice_to {A} (k : Z) (l : list A) : list A :=
  if (0 <=? k)%Z then take (Z.to_nat k) l
  else take (length l - Z.to_nat (- k)) l.

Fixpoint mapM {A B} (f : A -> result B) (l : list A) : result (list B) :=
  match l with
  | [] => Ok []
  | x :: l' => rbind (f x) (fun y => rbind (mapM f l') (fun ys => Ok (y :: ys)))
  end.

Module SpectrogramDataset.
Section WithLibraries.
Context (K : numlib) (X : extlib K).
Abbreviation F := (num K).

(** [csv.reader] and [csv.DictReader] over the bytes of a file opened
    with [newline=''] (a missing field of a [DictReader] row is [None]);
    [float] of a string; what reading a file opened with
    [encoding='utf8'] returns; the class [Labels] of [data.labels];
    the state [np.random.seed] installs; [Curriculum.sample] of
    [data.curriculum], consumed by [list]. *)
Context (csv_reader : list byte -> list (list string)).
Context (csv_DictReader : list byte -> list curriculum_row).
Context (float_of_string : string -> result Q).
Context (read_text : list byte -> result string).
Context (Labels : Type) (Labels_init : string -> Labels).
Context (Labels_parse : Labels -> string -> result (list Z)).
Context (Labels_render_transcript : Labels -> list Z -> result string).
Context (seeded_state : Z -> rng).

(** The process as the dataset sees it: [TS_CACHE] and everything else *)
Record state : Type := mk_state {
  TS_CACHE : ts_cache;
  process : world F
}.

Definition MD (A : Type) : Type := state -> result A * state.

Definition in_process {A} (m : M F A) : MD A :=
  fun s => let '(r, w) := m (process s) in (r, mk_state (TS_CACHE s) w).

Record t : Type := mk {
  parser : SpectrogramParser;
  all_ids : list manifest_item;
  ids : list manifest_item;
  size : nat;
  labels : Labels;
  curriculum : gmap string curriculum_row
}.

Context (Curriculum_sample : t -> Z -> Q -> MD (list manifest_item)).

(** Line 280 *)
Definition manifest_row (row : list string) : result manifest_item :=
  match row with
  | [] => Raise IndexError
  | [_] => Raise IndexError
  | [a; b] => Ok (a, b, PInt 0)
  | a :: b :: c :: _ => Ok (a, b, PStr c)
  end.

(** [float(v)] *)
Definition py_float_of (v : pyval) : result Q :=
  match v with
  | PStr s => float_of_string s
  | PInt n => Ok (inject_Z n)
  | PFloat q => Ok q
  | PNone | POffsets _ => Raise TypeError
  end.

(** [r[key] = float(r[key])] *)
Definition floated (key : string) (r : curriculum_row) : result curriculum_row :=
  match r !! key with
  | None => Raise KeyError
  | Some v => rbind (py_float_of v) (fun q => Ok (<[key := PFloat q]> r))
  end.

(** [{row['wav']: row for row in rows}], later rows replacing earlier
    ones.  A row whose [wav] field is [None] is keyed by [None], where no
    lookup by path finds it; it is left out here. *)
Fixpoint by_wav (rows : list curriculum_row) (acc : gmap string curriculum_row)
    : result (gmap string curriculum_row) :=
  match rows with
  | [] => Ok acc
  | row :: rest =>
      match row !! "wav"%string with
      | None => Raise KeyError
      | Some (PStr wav) => by_wav rest (<[wav := row]> acc)
      | Some _ => by_wav rest acc
      end
  end.

Definition fresh_row (wav : string) : curriculum_row :=
  {[ "wav"%string := PStr wav;
     "text"%string := PStr "";
     "transcript"%string := PStr "";
     "offsets"%string := PNone;
     "cer"%string := PFloat (999 # 1000);
     "wer"%string := PFloat (999 # 1000) ]}.

(** Lines 299-304 *)
Definition fresh_curriculum (ids : list manifest_item) : gmap string curriculum_row :=
  fold_left (fun acc '(wav, _, _) => <[wav := fresh_row wav]> acc) ids ∅.

(** [__init__], lines 259-305.  [max_items] and [curriculum_filepath]
    are [None] or a value. *)
Definition init (conf : audio_conf) (manifest_filepath cache_path : string)
    (labels : string) (normalize : pynorm) (augment : bool)
    (max_items : option Z) (curriculum_filepath : option string) : M F t :=
  let* manifest := read_bytes K X manifest_filepath in
  let* ids := lift (mapM manifest_row (csv_reader manifest)) in
  let ids :=
    match max_items with
    | Some k => if (k =? 0)%Z then ids else py_slice_to k ids
    | None => ids
    end in
  let labels := Labels_init labels in
  let* curriculum :=
    match curriculum_filepath with
    | Some fn =>
        if String.eqb fn "" then ret (fresh_curriculum ids)
        else
          let* bs := read_bytes K X fn in
          let* rows :=
            lift (mapM (fun r => rbind (floated "cer" r) (floated "wer"))
                       (csv_DictReader bs)) in
          lift (by_wav rows ∅)
    | None => ret (fresh_curriculum ids)
    end in
  let* parser := SpectrogramParser_init K X conf cache_path normalize augment (-1) in
  ret (mk parser ids ids (length ids) labels curriculum).

(** [parse_transcript], lines 347-356 *)
Definition parse_transcript (self : t) (transcript_path : string) : MD (list Z) :=
  fun s =>
    match TS_CACHE s !! transcript_path with
    | Some ts => (Ok ts, s)
    | None =>
        let parsed :=
          if String.eqb transcript_path "" then Labels_parse (labels self) ""
          else
            match fst (read_bytes K X transcript_path (process s)) with
            | Ok bs => rbind (read_text bs) (Labels_parse (labels self))
            | Raise e => Raise e
            end in
        match parsed with
        | Ok ts => (Ok ts, mk_state (<[transcript_path := ts]> (TS_CACHE s)) (process s))
        | Raise e => (Raise e, s)
        end
    end.

(** [get_reference_transcript], lines 361-362 *)
Definition get_reference_transcript (self : t) (txt : string) : MD string :=
  fun s =>
    match parse_transcript self txt s with
    | (Ok ts, s') => (Labels_render_transcript (labels self) ts, s')
    | (Raise e, s') => (Raise e, s')
    end.

(** [__getitem__], lines 307-312 *)
Definition getitem (self : t) (index : Z)
    : MD (spect_val F * list Z * string) :=
  fun s =>
    match py_index (length (ids self)) index with
    | None => (Raise IndexError, s)
    | Some i =>
        match ids self !! i with
        | None => (Raise IndexError, s)
        | Some (audio_path, transcript_path, dur) =>
            match in_process (parse_audio K X (parser self) audio_path) s with
            | (Raise e, s1) => (Raise e, s1)
            | (Ok spect, s1) =>
                match parse_transcript self transcript_path s1 with
                | (Raise e, s2) => (Raise e, s2)
                | (Ok reference, s2) => (Ok (spect, reference, audio_path), s2)
                end
            end
        end
    end.

(** [get_curriculum_info], lines 314-318 *)
Definition get_curriculum_info (self : t) (item : manifest_item)
    : MD (pyval * pyval) :=
  let '(audio_path, transcript_path, _dur) := item in
  fun s =>
    match curriculum self !! audio_path with
    | None =>
        match get_reference_transcript self transcript_path s with
        | (Ok ref, s') => (Ok (PStr ref, PFloat (999 # 1000)), s')
        | (Raise e, s') => (Raise e, s')
        end
    | Some row =>
        match row !! "text"%string, row !! "cer"%string with
        | Some text, Some cer => (Ok (text, cer), s)
        | _, _ => (Raise KeyError, s)
        end
    end.

Definition with_ids (self : t) (ids' : list manifest_item) (size' : nat) : t :=
  mk (parser self) (all_ids self) ids' size' (labels self) (curriculum self).

(** [np.random.seed(epoch)] *)
Definition np_random_seed (epoch : Z) : M F unit :=
  if ((0 <=? epoch) && (epoch <? 2 ^ 32))%Z
  then modify (set_np_random (seeded_state epoch))
  else raise ValueError.

(** [set_curriculum_epoch], lines 320-328.  The object is returned
    beside the outcome: an exception after line 325 leaves it with the
    new [ids] and the old [size]. *)
Definition set_curriculum_epoch (self : t) (epoch : Z) (sample : bool)
    : state -> result unit * t * state :=
  fun s =>
    let '(chosen, s1) :=
      if sample then
        Curriculum_sample self epoch
          (inject_Z (Z.of_nat (length (all_ids self))) / 2)%Q s
      else (Ok (all_ids self), s) in
    match chosen with
    | Raise e => (Raise e, self, s1)
    | Ok ids1 =>
        let self1 := with_ids self ids1 (size self) in
        match in_process (np_random_seed epoch ;; np_shuffle ids1) s1 with
        | (Raise e, s2) => (Raise e, self1, s2)
        | (Ok ids2, s2) => (Ok tt, with_ids self ids2 (length ids2), s2)
        end
    end.

(** [update_curriculum], lines 330-338 *)
Definition update_curriculum (self : t) (audio_path : string)
    (reference transcript offsets cer wer : pyval) : t :=
  mk (parser self) (all_ids self) (ids self) (size self) (labels self)
     (<[audio_path :=
          {[ "wav"%string := PStr audio_path;
             "text"%string := reference;
             "transcript"%string := transcript;
             "offsets"%string := offsets;
             "cer"%string := cer;
             "wer"%string := wer ]}]> (curriculum self)).

(** [__len__] *)
Definition len (self : t) : nat := size self.

End WithLibraries.
End SpectrogramDataset.


(** ** Concrete generators and worlds for the examples *)

(** A generator producing the multiples of an odd constant, offset by a
    seed. *)
Definition seeded_rng (seed : Z) : rng :=
  mk_rng (fun i => ((Z.to_N (Z.abs seed) + 1) * (N.of_nat i + 7)
                      * 6364136223846793005) mod 2 ^ 53)%N
         0.

Definition reference_randperm (seed : Z) (n : nat) : list nat :=
  fst (shuffle_from (n - 1) (seq 0 n) (seeded_rng seed)).

(** A process with the given files and NumPy generator, nothing logged,
    no signal pending. *)
Definition world_of {E} (files : files E) (np : rng) : world E :=
  mk_world files ∅ (seeded_rng 1) np (seeded_rng 2) [] None.

(** ** Idealised arithmetic: array elements as real numbers *)

Definition real_sum (l : list R) : R := fold_right Rplus 0%R l.

Definition real_mean (l : list R) : R := (real_sum l / INR (length l))%R.

Definition real_std (l : list R) : R :=
  let m := real_mean l in
  sqrt (real_sum (map (fun x => (x - m) * (x - m))%R l) / (INR (length l) - 1))%R.

(** SciPy's [reflect] boundary: [(d c b a | a b c d | d c b a)] *)
Definition reflect_index (n : nat) (i : Z) : nat :=
  let m := (i mod (2 * Z.of_nat n))%Z in
  Z.to_nat (if (m <? Z.of_nat n)%Z then m else (2 * Z.of_nat n - 1 - m)%Z).

(** A Gaussian kernel truncated at four standard deviations and
    normalised to sum 1, correlated with the reflected signal *)
Definition real_gaussian_filter1d (v : list R) (sigma : Z) : list R :=
  let lw := (4 * sigma)%Z in
  let ks := map (fun i => (Z.of_nat i - lw)%Z) (seq 0 (Z.to_nat (2 * lw + 1))) in
  let phi k := exp (- (IZR (k * k) / (2 * IZR (sigma * sigma))))%R in
  let total := real_sum (map phi ks) in
  map (fun t =>
         real_sum
           (map (fun k => (phi k / total
                           * nth (reflect_index (length v) (Z.of_nat t + k)) v 0)%R)
                ks))
      (seq 0 (length v)).

Definition real_numlib : numlib :=
  mk_numlib R 0%R Q2R Rplus Ropp Rmult Rdiv sqrt (fun x => ln (1 + x))%R
    real_mean real_std real_gaussian_filter1d.

(** ** Stand-ins for the external tools

    A decoder that reads every byte of a file as one sample of a single
    channel at 16 kHz; a command runner that leaves its command line in
    the temporary file, so that what is decoded afterwards depends on
    every argument of the command; a transform with two frequency bins
    that repeats the signal in both; a serialiser whose every output
    starts with the same five bytes, and a loader that rejects all bytes
    no [np.save] wrote. *)

Definition byte_sample (b : byte) : R := IZR (Z.of_N (Byte.to_N b)).

Definition toy_tools : extlib real_numlib :=
  mk_extlib real_numlib
    (fun bs => Ok (mk_ndarray 1 (length bs) (map byte_sample bs), 16000%Z))
    (fun cmd f => <["/tmp/audio.wav" := FBytes (bytes_of_string cmd)]> f)
    (fun _ _ => Ok (bytes_of_string "1.0"))
    (fun _ => Ok 1%Q)
    fmt_3f
    (fun suffix _ => ("/tmp/audio" ++ suffix)%string)
    (fun _ _ => [])
    (fun y _ _ _ _ => Ok (mk_ndarray 2 (length y) (y ++ y)))
    (fun _ => bytes_of_string "NUMPY")
    (fun _ => Raise ValueError).

(** *** Facts about rows of a buffer *)

Section RowFacts.
Context {A : Type}.
Implicit Types (l d : list A) (c i j : nat).

Lemma take_drop_app_l l1 l2 k c :
  k + c <= length l1 ->
  take c (drop k (l1 ++ l2)) = take c (drop k l1).
Proof.
  intros H. rewrite drop_app_le by lia.
  rewrite take_app_le; [done|]. rewrite length_drop. lia.
Qed.

Lemma take_drop_app_r l1 l2 k c :
  take c (drop (length l1 + k) (l1 ++ l2)) = take c (drop k l2).
Proof. by rewrite drop_app_add. Qed.

Lemma take_drop_take l n k c :
  k + c <= n -> take c (drop k (take n l)) = take c (drop k l).
Proof.
  intros H. rewrite <- (take_drop n l) at 2.
  destruct (decide (n <= length l)) as [Hn|Hn].
  - symmetry. apply take_drop_app_l. rewrite length_take. lia.
  - rewrite (take_ge l n) by lia. rewrite (drop_ge l n) by lia.
    by rewrite app_nil_r.
Qed.

Lemma take_drop_concat (rows : list (list A)) c j row :
  Forall (fun r => length r = c) rows ->
  rows !! j = Some row ->
  take c (drop (j * c) (concat rows)) = row.
Proof.
  intros Hall. revert j. induction Hall as [|r rows Hr Hall IH]; intros j Hj.
  - done.
  - destruct j as [|j]; simpl in *.
    + injection Hj as ->. rewrite drop_0. rewrite take_app_length'; done.
    + replace (c + j * c) with (length r + j * c) by lia.
      rewrite drop_app_add. by apply IH.
Qed.

Lemma length_concat_uniform (rows : list (list A)) c :
  Forall (fun r => length r = c) rows ->
  length (concat rows) = length rows * c.
Proof.
  induction 1 as [|r rows Hr _ IH]; simpl; [done|].
  rewrite length_app, IH, Hr. done.
Qed.
End RowFacts.

Section ResizeFacts.
Context {A : Type} (zero : A).
Implicit Types (a : ndarray A).

Lemma nd_resize_wf rows cols a : nd_wf (nd_resize zero rows cols a).
Proof.
  unfold nd_wf, nd_resize. simpl.
  rewrite length_app, length_take, length_replicate. lia.
Qed.

Lemma nd_row_length a i :
  nd_wf a -> i < nd_rows a -> length (nd_row a i) = nd_cols a.
Proof.
  unfold nd_wf, nd_row. intros Hwf Hi.
  rewrite length_take, length_drop, Hwf. nia.
Qed.

(** Rows that the old buffer held in full survive a resize that keeps
    the row width; the rows past them are zero. *)
Lemma nd_resize_row_old rows a i :
  nd_wf a -> i < nd_rows a -> i < rows ->
  nd_row (nd_resize zero rows (nd_cols a) a) i = nd_row a i.
Proof.
  unfold nd_wf, nd_row, nd_resize. simpl. intros Hwf Hi Hr.
  rewrite take_drop_app_l.
  - apply take_drop_take. nia.
  - rewrite length_take, Hwf. nia.
Qed.

Lemma nd_resize_row_new rows a i :
  nd_wf a -> nd_rows a <= i -> i < rows ->
  nd_row (nd_resize zero rows (nd_cols a) a) i = replicate (nd_cols a) zero.
Proof.
  unfold nd_wf, nd_row, nd_resize. simpl. intros Hwf Hi Hr.
  set (c := nd_cols a) in *.
  assert (Hlen : length (take (rows * c) (nd_data a)) = nd_rows a * c).
  { rewrite length_take, Hwf. nia. }
  replace (i * c) with (length (take (rows * c) (nd_data a)) + (i - nd_rows a) * c).
  2:{ rewrite Hlen. nia. }
  rewrite take_drop_app_r, Hwf, drop_replicate, take_replicate.
  f_equal. nia.
Qed.

Lemma rev_range_161 : rev_range 161 80 0 = reverse (seq 1 80).
Proof. reflexivity. Qed.

Lemma rev_seq_lookup n m j :
  j < m -> reverse (seq n m) !! j = Some (n + m - 1 - j).
Proof.
  intros Hj.
  rewrite reverse_lookup by (rewrite length_seq; lia).
  rewrite length_seq, lookup_seq_lt by lia. f_equal. lia.
Qed.
End ResizeFacts.

(** The array [fit_freq_bins] builds when the natural bin count is below
    161: the resized buffer's first 81 rows, then rows 80 down to 1. *)
Definition mirrored {A} (zero : A) (spect : ndarray A) : ndarray A :=
  let r := nd_resize zero 161 (nd_cols spect) spect in
  mk_ndarray 161 (nd_cols spect)
    (take (81 * nd_cols spect) (nd_data r)
       ++ concat (map (nd_row r) (reverse (seq 1 80)))).

Section FitFacts.
Context {A : Type} (zero : A).
Implicit Types (spect : ndarray A).

Lemma mirrored_wf spect : nd_wf (mirrored zero spect).
Proof.
  unfold nd_wf, mirrored. cbn [nd_data nd_rows nd_cols].
  pose proof (nd_resize_wf zero 161 (nd_cols spect) spect) as Hwf.
  set (r := nd_resize zero 161 (nd_cols spect) spect) in *.
  rewrite length_app, length_take.
  rewrite (length_concat_uniform _ (nd_cols spect)).
  - rewrite length_map, length_reverse, length_seq. unfold nd_wf in Hwf.
    rewrite Hwf. subst r. cbn [nd_resize nd_rows nd_cols]. lia.
  - apply Forall_forall. intros row Hin.
    apply list_elem_of_fmap in Hin as (i & -> & Hi).
    apply elem_of_reverse, elem_of_seq in Hi.
    apply (nd_row_length r i Hwf). subst r. cbn [nd_resize nd_rows]. lia.
Qed.

Lemma fit_freq_bins_small spect :
  nd_rows spect < 161 -> fit_freq_bins zero spect = Ok (mirrored zero spect).
Proof.
  intros Hlt. unfold fit_freq_bins. cbn [fst snd].
  apply Nat.ltb_lt in Hlt as ->.
  unfold nd_assign_from, nd_slice_rev, nd_of_rows.
  cbn [nd_rows nd_cols nd_data nd_resize].
  rewrite length_map, rev_range_161, length_reverse, length_seq.
  change (80 =? 161 - 81) with true. rewrite Nat.eqb_refl.
  cbn [andb rbind]. f_equal. unfold nd_slice_to. cbn [nd_rows nd_cols nd_data].
  pose proof (mirrored_wf spect) as Hwf. unfold nd_wf, mirrored in Hwf.
  cbn [nd_rows nd_cols nd_data nd_resize] in Hwf.
  unfold mirrored. cbn [nd_resize nd_cols nd_data nd_rows].
  rewrite Nat.min_id. f_equal. apply take_ge. rewrite Hwf. done.
Qed.

Lemma fit_freq_bins_large spect :
  161 <= nd_rows spect -> fit_freq_bins zero spect = Ok (nd_slice_to 161 spect).
Proof.
  intros Hge. unfold fit_freq_bins. cbn [fst snd].
  apply Nat.ltb_ge in Hge as ->. done.
Qed.

(** Rows 0..80 of the mirrored array are those of the resized buffer. *)
Lemma mirrored_row_low spect i :
  i < 81 ->
  nd_row (mirrored zero spect) i
  = nd_row (nd_resize zero 161 (nd_cols spect) spect) i.
Proof.
  intros Hi. pose proof (nd_resize_wf zero 161 (nd_cols spect) spect) as Hwf.
  unfold nd_wf in Hwf. unfold nd_row, mirrored.
  set (r := nd_resize zero 161 (nd_cols spect) spect) in *.
  assert (Hc : nd_cols r = nd_cols spect) by done.
  assert (Hr : nd_rows r = 161) by done.
  cbn [nd_cols nd_data]. rewrite Hc, Hr in *.
  rewrite take_drop_app_l.
  - apply take_drop_take. nia.
  - rewrite length_take, Hwf. nia.
Qed.

(** Row [81 + j] is row [80 - j] of the resized buffer. *)
Lemma mirrored_row_high spect j :
  j < 80 ->
  nd_row (mirrored zero spect) (81 + j)
  = nd_row (nd_resize zero 161 (nd_cols spect) spect) (80 - j).
Proof.
  intros Hj. pose proof (nd_resize_wf zero 161 (nd_cols spect) spect) as Hwf.
  unfold nd_row at 1. unfold mirrored.
  set (r := nd_resize zero 161 (nd_cols spect) spect) in *.
  assert (Hc : nd_cols r = nd_cols spect) by done.
  assert (Hr : nd_rows r = 161) by done.
  cbn [nd_cols nd_data].
  set (c := nd_cols spect) in *.
  assert (Hlen : length (take (81 * c) (nd_data r)) = 81 * c).
  { rewrite length_take. unfold nd_wf in Hwf. rewrite Hwf, Hc, Hr. nia. }
  replace ((81 + j) * c) with (length (take (81 * c) (nd_data r)) + j * c)
    by (rewrite Hlen; nia).
  rewrite take_drop_app_r.
  apply take_drop_concat.
  - apply Forall_forall. intros row Hin.
    apply list_elem_of_fmap in Hin as (i & -> & Hi).
    apply elem_of_reverse, elem_of_seq in Hi.
    rewrite <- Hc. apply (nd_row_length r i Hwf). lia.
  - change (map (nd_row r) (reverse (seq 1 80)))
      with (nd_row r <$> reverse (seq 1 80)).
    rewrite list_lookup_fmap, rev_seq_lookup by lia.
    simpl. repeat f_equal; lia.
Qed.
End FitFacts.


(** * Strings and paths *)

Definition chars (s : string) : list ascii := list_ascii_of_string s.

(** No [/] inside *)
Definition slash_free (s : string) : Prop := Forall (fun c => c <> "/"%char) (chars s).

Lemma chars_app (a b : string) : chars (a ++ b) = chars a ++ chars b.
Proof.
  unfold chars. induction a as [|c a IH]; [done|].
  change (String c a ++ b)%string with (String c (a ++ b)).
  cbn [list_ascii_of_string app]. by rewrite IH.
Qed.

Lemma chars_inj (a b : string) : chars a = chars b -> a = b.
Proof.
  intros H. rewrite <- (string_of_list_ascii_of_string a).
  rewrite <- (string_of_list_ascii_of_string b). unfold chars in H. by rewrite H.
Qed.

Lemma chars_of_list (l : list ascii) : chars (string_of_list_ascii l) = l.
Proof. apply list_ascii_of_string_of_list_ascii. Qed.

Lemma slash_free_app (a b : string) :
  slash_free a -> slash_free b -> slash_free (a ++ b).
Proof. unfold slash_free. rewrite chars_app. apply Forall_app_2. Qed.

Lemma string_app_inv_tail (a b t : string) : (a ++ t = b ++ t)%string -> a = b.
Proof.
  intros H. apply chars_inj. apply (f_equal chars) in H.
  rewrite !chars_app in H. by apply app_inv_tail in H.
Qed.

Lemma string_app_inv_head (h a b : string) : (h ++ a = h ++ b)%string -> a = b.
Proof.
  intros H. apply chars_inj. apply (f_equal chars) in H.
  rewrite !chars_app in H. by apply app_inv_head in H.
Qed.

Lemma str_take_drop (n : nat) (s : string) : (str_take n s ++ str_drop n s)%string = s.
Proof.
  apply chars_inj. rewrite chars_app. unfold str_take, str_drop.
  rewrite !chars_of_list. apply take_drop.
Qed.

Lemma length_str_take n s : length (chars (str_take n s)) = n `min` length (chars s).
Proof. unfold str_take. by rewrite chars_of_list, length_take. Qed.

Lemma length_str_drop n s : length (chars (str_drop n s)) = length (chars s) - n.
Proof. unfold str_drop. by rewrite chars_of_list, length_drop. Qed.

Lemma slash_free_take n s : slash_free s -> slash_free (str_take n s).
Proof. unfold slash_free, str_take. rewrite chars_of_list. apply Forall_take. Qed.

Lemma slash_free_drop n s : slash_free s -> slash_free (str_drop n s).
Proof. unfold slash_free, str_drop. rewrite chars_of_list. apply Forall_drop. Qed.

(** Splitting a string without separator gives the string itself; every
    piece of a split is free of the separator. *)
Lemma split_on_none (sep : ascii) (cur l : list ascii) :
  Forall (fun c => c <> sep) l ->
  split_on sep cur l = [string_of_list_ascii (reverse cur ++ l)].
Proof.
  intros H. revert cur. induction H as [|c l Hc _ IH]; intros cur; cbn.
  - by rewrite app_nil_r.
  - destruct (Ascii.eqb_spec c sep) as [->|_]; [done|].
    rewrite IH, reverse_cons. by rewrite <- app_assoc.
Qed.

Lemma split_on_pieces (sep : ascii) (l cur : list ascii) :
  Forall (fun c => c <> sep) cur ->
  Forall (fun s => Forall (fun c => c <> sep) (chars s)) (split_on sep cur l).
Proof.
  revert cur. induction l as [|c l IH]; intros cur Hcur; cbn.
  - constructor; [|done]. rewrite chars_of_list. by apply Forall_reverse.
  - destruct (Ascii.eqb_spec c sep) as [->|Hne].
    + constructor; [|by apply IH].
      rewrite chars_of_list. by apply Forall_reverse.
    + apply IH. by constructor.
Qed.

Lemma path_of_string_single (s : string) :
  slash_free s -> s <> "" -> s <> "." ->
  path_of_string s = mk_path false [s].
Proof.
  intros Hfree Hne Hdot. unfold path_of_string. f_equal.
  - destruct s as [|c s]; [done|]. apply Ascii.eqb_neq.
    by apply Forall_cons in Hfree as [? _].
  - fold (chars s). rewrite split_on_none by done.
    change (reverse [] ++ chars s) with (list_ascii_of_string s).
    rewrite string_of_list_ascii_of_string.
    cbn [filter list_filter]. unfold keep_part.
    apply String.eqb_neq in Hne as ->. apply String.eqb_neq in Hdot as ->.
    by rewrite decide_True.
Qed.

Lemma path_name_slash_free (s : string) : slash_free (path_name (path_of_string s)).
Proof.
  unfold path_name, path_of_string. cbn [p_parts].
  pose proof (split_on_pieces "/" (list_ascii_of_string s) [] ltac:(constructor)) as H.
  set (parts := filter _ _).
  assert (Hparts : Forall slash_free parts).
  { subst parts. apply Forall_forall. intros p [_ Hp]%list_elem_of_filter.
    rewrite Forall_forall in H. by apply H. }
  clearbody parts. clear H.
  induction Hparts as [|p parts Hp Hps IH]; cbn; [constructor|].
  destruct parts; [done|]. apply IH.
Qed.

(** *** Digits *)

Lemma hex_digit_not_slash n : Sha1.hex_digit n <> "/"%char.
Proof.
  unfold Sha1.hex_digit. generalize (N.to_nat n). intros k.
  do 17 (destruct k as [|k]; [cbn; discriminate|]). cbn. discriminate.
Qed.

Lemma hex8_chars x :
  length (Sha1.hex8 x) = 8 /\ Forall (fun c => c <> "/"%char) (Sha1.hex8 x).
Proof.
  unfold Sha1.hex8. split; [by rewrite length_map|].
  apply Forall_forall. intros c (i & -> & _)%list_elem_of_fmap.
  apply hex_digit_not_slash.
Qed.

Lemma hexdigest_chars (msg : list byte) :
  length (chars (Sha1.hexdigest msg)) = 40 /\ slash_free (Sha1.hexdigest msg).
Proof.
  unfold Sha1.hexdigest, slash_free.
  destruct (fold_left _ _ _) as [[[[h0 h1] h2] h3] h4].
  rewrite chars_of_list.
  destruct (hex8_chars h0) as [L0 F0], (hex8_chars h1) as [L1 F1],
    (hex8_chars h2) as [L2 F2], (hex8_chars h3) as [L3 F3],
    (hex8_chars h4) as [L4 F4].
  split.
  - rewrite !length_app. lia.
  - repeat apply Forall_app_2; done.
Qed.

Lemma pretty_N_char_not_slash k : pretty_N_char k <> "/"%char.
Proof. unfold pretty_N_char. repeat case_match; discriminate. Qed.

Lemma pretty_N_go_slash_free (x : N) (s : string) :
  slash_free s -> slash_free (pretty_N_go x s).
Proof.
  revert s. induction (N.lt_wf_0 x) as [x _ IH]. intros s Hs.
  destruct (decide (0 < x)%N) as [Hpos|Hz].
  - rewrite pretty_N_go_step by done. apply IH.
    + apply N.div_lt; [done|lia].
    + constructor; [apply pretty_N_char_not_slash|done].
  - assert (x = 0%N) as -> by lia. by rewrite pretty_N_go_0.
Qed.

Lemma pretty_Z_slash_free (z : Z) : slash_free (pretty z).
Proof.
  assert (HN : forall n : N, slash_free (pretty n)).
  { intros n. unfold pretty, pretty_N. case_decide.
    - repeat constructor; discriminate.
    - apply pretty_N_go_slash_free. constructor. }
  destruct z as [|p|p]; unfold pretty, pretty_Z.
  - repeat constructor; discriminate.
  - apply HN.
  - apply (slash_free_app "-"); [repeat constructor; discriminate|apply HN].
Qed.

Lemma chan_name_slash_free (channel : Z) : slash_free (chan_name channel).
Proof.
  unfold chan_name. case_match.
  - repeat constructor; discriminate.
  - apply pretty_Z_slash_free.
Qed.

Lemma TEMPOS_slash_free tempo_id tempo_name range :
  TEMPOS tempo_id = Some (tempo_name, range) -> slash_free tempo_name.
Proof.
  unfold TEMPOS. intros H.
  repeat case_match; simplify_eq; repeat constructor; discriminate.
Qed.


(** * Reasoning about computations *)

Section MonadFacts.
Context {E : Type}.
Implicit Types (w : world E).

Lemma bind_ok {A B} (m : M E A) (k : A -> M E B) w a w1 :
  m w = (Ok a, w1) -> bind m k w = k a w1.
Proof. unfold bind. by intros ->. Qed.

Lemma bind_raise {A B} (m : M E A) (k : A -> M E B) w e w1 :
  m w = (Raise e, w1) -> bind m k w = (Raise e, w1).
Proof. unfold bind. by intros ->. Qed.

Lemma bind_ok_inv {A B} (m : M E A) (k : A -> M E B) w b w' :
  bind m k w = (Ok b, w') ->
  exists a w1, m w = (Ok a, w1) /\ k a w1 = (Ok b, w').
Proof.
  unfold bind. destruct (m w) as [[a|e] w1]; [|done]. intros H. eauto.
Qed.

(** The [np.save] calls logged so far *)
Definition is_save (e : event) : bool :=
  match e with ESave _ => true | _ => false end.

Definition saves w : list event := filter (fun e => is_save e = true) (events w).

(** A computation that calls [np.save] nowhere and leaves a pending
    signal pending *)
Definition quiet {A} (m : M E A) : Prop :=
  forall w, saves (snd (m w)) = saves w /\ sigint (snd (m w)) = sigint w.

Lemma quiet_ret {A} (a : A) : quiet (ret a).
Proof. by intros w. Qed.

Lemma quiet_raise {A} e : quiet (raise (A:=A) e).
Proof. by intros w. Qed.

Lemma quiet_lift {A} (r : result A) : quiet (lift r).
Proof. by intros w. Qed.

Lemma quiet_gets {A} (f : world E -> A) : quiet (gets f).
Proof. by intros w. Qed.

Lemma quiet_bind {A B} (m : M E A) (k : A -> M E B) :
  quiet m -> (forall a, quiet (k a)) -> quiet (bind m k).
Proof.
  intros Hm Hk w. unfold bind. specialize (Hm w).
  destruct (m w) as [[a|e] w1]; cbn [snd] in *; [|done].
  destruct (Hk a w1) as [H1 H2]. destruct Hm as [H3 H4]. split; congruence.
Qed.

Lemma quiet_try_except {A} (m : M E A) catches (handler : pyexc -> M E A) :
  quiet m -> (forall e, quiet (handler e)) -> quiet (try_except m catches handler).
Proof.
  intros Hm Hh w. unfold try_except. specialize (Hm w).
  destruct (m w) as [[a|e] w1]; cbn [snd] in *; [done|].
  destruct (catches e); [|done].
  destruct (Hh e w1) as [H1 H2]. destruct Hm as [H3 H4]. split; congruence.
Qed.

Lemma quiet_modify (f : world E -> world E) :
  (forall w, events (f w) = events w /\ sigint (f w) = sigint w) ->
  quiet (modify f).
Proof.
  intros Hf w. unfold modify, saves. cbn [snd].
  destruct (Hf w) as [-> ->]. done.
Qed.

Lemma quiet_set_fs (f : files E -> files E) : quiet (modify (set_fs f)).
Proof. by apply quiet_modify. Qed.

Lemma quiet_emit e : is_save e = false -> quiet (emit e).
Proof.
  intros He w. unfold emit, modify, saves. cbn [snd log_event events sigint].
  split; [|done]. rewrite filter_app. cbn. rewrite decide_False by congruence.
  by rewrite app_nil_r.
Qed.

Lemma quiet_print msg : quiet (print (E:=E) msg).
Proof. by apply quiet_emit. Qed.

Lemma quiet_py_assert c : quiet (py_assert (E:=E) c).
Proof. unfold py_assert. destruct c; [apply quiet_ret|apply quiet_raise]. Qed.

Lemma quiet_path_exists p : quiet (path_exists (E:=E) p).
Proof. apply quiet_gets. Qed.

Lemma quiet_write_file p d : quiet (write_file (E:=E) p d).
Proof. apply quiet_set_fs. Qed.

Lemma quiet_os_unlink p : quiet (os_unlink (E:=E) p).
Proof.
  intros w. unfold os_unlink. destruct (fs w !! fs_key p); [|done].
  cbn [snd]. unfold saves. cbn [log_event events sigint set_fs].
  split; [|done]. rewrite filter_app. cbn. by rewrite app_nil_r.
Qed.

Lemma quiet_move_file src dst : quiet (move_file (E:=E) src dst).
Proof. intros w. unfold move_file. by destruct (fs w !! fs_key src). Qed.

Lemma quiet_mkdir_parents p : quiet (mkdir_parents (E:=E) p).
Proof.
  unfold mkdir_parents. apply quiet_bind; [by apply quiet_modify|].
  intros _. by apply quiet_emit.
Qed.

End MonadFacts.

Create HintDb quiet.
#[export] Hint Resolve quiet_ret quiet_raise quiet_lift quiet_gets
  quiet_try_except quiet_set_fs quiet_print quiet_py_assert quiet_path_exists
  quiet_write_file quiet_os_unlink quiet_move_file quiet_mkdir_parents : quiet.

(** Decompose a goal [quiet m] along the structure of [m]. *)
Ltac quiet_step :=
  match goal with
  | |- quiet (bind _ _) => apply quiet_bind
  | |- quiet (try_except _ _ _) => apply quiet_try_except
  | |- quiet (emit _) => apply quiet_emit; reflexivity
  | |- quiet (match ?x with _ => _ end) => destruct x
  | |- quiet (let '(_, _) := ?x in _) => destruct x
  | |- forall _, _ => intro
  | |- quiet _ => solve [eauto with quiet]
  end.
Ltac solve_quiet := repeat quiet_step.


(** * The pipeline saves nothing before the cache write *)

Section PipelineQuiet.
Context (K : numlib) (X : extlib K).
Abbreviation F := (num K).

Lemma quiet_read_bytes p : quiet (read_bytes K X p).
Proof. intros w. unfold read_bytes. by repeat case_match. Qed.

Lemma quiet_np_rand : quiet (np_rand K).
Proof. intros w. unfold np_rand. by destruct (rng_double _). Qed.

Lemma quiet_np_uniform lo hi : quiet (np_uniform K lo hi).
Proof. unfold np_uniform. apply quiet_bind; [apply quiet_np_rand|]. solve_quiet. Qed.

Lemma quiet_np_choice paths : quiet (np_choice K paths).
Proof.
  unfold np_choice. destruct paths; [apply quiet_raise|].
  intros w. by destruct (rng_below _ _).
Qed.

Lemma quiet_run_system cmd : quiet (run_system K X cmd).
Proof. unfold run_system. solve_quiet. Qed.

Lemma quiet_with_tempfile {A} suffix (body : string -> M F A) :
  (forall name, quiet (body name)) -> quiet (with_tempfile K X suffix body).
Proof.
  intros Hb w. unfold with_tempfile.
  match goal with |- context [body ?n ?w0] =>
    specialize (Hb n w0); destruct (body n w0) as [r w'] end.
  exact Hb.
Qed.

Lemma quiet_load_audio path channel : quiet (load_audio K X path channel).
Proof.
  unfold load_audio. apply quiet_bind; [apply quiet_read_bytes|].
  solve_quiet.
Qed.

Lemma quiet_get_audio_length path : quiet (get_audio_length K X path).
Proof.
  unfold get_audio_length. apply quiet_bind; [by intros w|]. solve_quiet.
Qed.

Hint Resolve quiet_read_bytes quiet_np_rand quiet_np_uniform quiet_np_choice
  quiet_run_system quiet_load_audio quiet_get_audio_length : quiet.

Lemma quiet_audio_with_sox path sr t0 t1 : quiet (audio_with_sox K X path sr t0 t1).
Proof. unfold audio_with_sox. apply quiet_with_tempfile. solve_quiet. Qed.

Lemma quiet_augment_audio_with_sox path sr tempo gain channel :
  quiet (augment_audio_with_sox K X path sr tempo gain channel).
Proof. unfold augment_audio_with_sox. apply quiet_with_tempfile. solve_quiet. Qed.

Hint Resolve quiet_audio_with_sox quiet_augment_audio_with_sox : quiet.

Lemma quiet_load_randomly_augmented_audio path sr tr gr channel :
  quiet (load_randomly_augmented_audio K X path sr tr gr channel).
Proof.
  unfold load_randomly_augmented_audio. destruct tr, gr. solve_quiet.
Qed.

Lemma quiet_inject_noise ni data : quiet (inject_noise K X ni data).
Proof. unfold inject_noise, inject_noise_sample. solve_quiet. Qed.

Lemma quiet_np_binomial1 p : quiet (np_binomial1 K p).
Proof. unfold np_binomial1. solve_quiet. Qed.

Lemma quiet_audio_to_stft self y sr : quiet (audio_to_stft K X self y sr).
Proof. unfold audio_to_stft. solve_quiet. Qed.

Lemma quiet_normalize_audio self spect : quiet (normalize_audio K self spect).
Proof. unfold normalize_audio. repeat case_match; solve_quiet. Qed.

Hint Resolve quiet_load_randomly_augmented_audio quiet_inject_noise
  quiet_np_binomial1 quiet_audio_to_stft quiet_normalize_audio : quiet.

Lemma quiet_compute_spect self path range : quiet (compute_spect K X self path range).
Proof. unfold compute_spect. solve_quiet. Qed.

Lemma quiet_np_load path : quiet (np_load K X path).
Proof. intros w. unfold np_load. by repeat case_match. Qed.

Lemma quiet_np_load_spect path : quiet (np_load_spect K X path).
Proof. unfold np_load_spect. apply quiet_bind; [apply quiet_np_load|]. solve_quiet. Qed.

Hint Resolve quiet_np_load_spect : quiet.

Lemma quiet_locate_cache self path tempo_name :
  quiet (locate_cache K X self path tempo_name).
Proof. unfold locate_cache. solve_quiet. Qed.

Lemma quiet_read_cache cache_fn : quiet (read_cache K X cache_fn).
Proof. unfold read_cache. solve_quiet. Qed.

Hint Resolve quiet_locate_cache quiet_read_cache : quiet.

Lemma quiet_load_audio_cache self path tempo_id :
  quiet (load_audio_cache K X self path tempo_id).
Proof. unfold load_audio_cache. solve_quiet. Qed.

Lemma quiet_choose_tempo self : quiet (choose_tempo K self).
Proof.
  unfold choose_tempo. destruct (augment self); [|apply quiet_ret].
  intros w. unfold random_randrange. by destruct (rng_below _ _).
Qed.

Lemma quiet_finish self spect : quiet (finish K self spect).
Proof.
  unfold finish. case_match; [|apply quiet_ret].
  unfold add_jitter. destruct spect; [apply quiet_raise|].
  apply quiet_bind; [|solve_quiet].
  intros w. unfold torch_rand. by destruct (rng_double _).
Qed.

End PipelineQuiet.


(** * The cache write *)

Section Store.
Context (K : numlib) (X : extlib K).
Abbreviation F := (num K).
Implicit Types (w : world F) (cache_fn : PurePath) (spect : spect_val F).

Definition tmp_key cache_fn : string := fs_key (path_str cache_fn ++ ".tmp.npy").
Definition cache_key cache_fn : string := fs_key (path_str cache_fn).
Definition cache_entry spect : fdata F := FNpy (PyDict [("spect", Some spect)]).

(** Without a signal, the write leaves the saved object under the cache
    file's name, removes the temporary file, and logs one [np.save]. *)
Definition stored cache_fn spect w : world F :=
  log_event (ERename (tmp_key cache_fn) (cache_key cache_fn))
    (set_fs (fun f => <[cache_key cache_fn := cache_entry spect]>
                        (delete (tmp_key cache_fn) f))
       (log_event (ESave (tmp_key cache_fn))
          (set_fs (fun f => <[tmp_key cache_fn := cache_entry spect]> f) w))).

Lemma store_in_cache_ok cache_fn spect w :
  sigint w = None ->
  store_in_cache K X cache_fn spect w = (Ok tt, stored cache_fn spect w).
Proof.
  intros Hsig. destruct w as [f d g1 g2 g3 ev sg]. cbn [sigint] in Hsig. subst sg.
  unfold stored, store_in_cache, try_except, np_save, os_rename, bind,
    deliver_sigint, write_file, emit, modify, move_file.
  cbn [sigint set_fs log_event fs dirs py_random np_random torch_random events].
  fold (tmp_key cache_fn) (cache_key cache_fn).
  rewrite lookup_insert_eq. done.
Qed.

Lemma stored_lookup cache_fn spect w :
  fs (stored cache_fn spect w) !! cache_key cache_fn = Some (cache_entry spect).
Proof. unfold stored. cbn [fs log_event set_fs]. apply lookup_insert_eq. Qed.

Lemma stored_saves cache_fn spect w :
  saves (stored cache_fn spect w) = saves w ++ [ESave (tmp_key cache_fn)].
Proof.
  unfold stored, saves. cbn [events log_event set_fs].
  rewrite !filter_app. cbn. by rewrite app_nil_r.
Qed.

Lemma stored_sigint cache_fn spect w : sigint (stored cache_fn spect w) = sigint w.
Proof. done. Qed.

(** A signal while [np.save] is writing: the temporary file holds a
    prefix of the bytes; the handler unlinks the cache file's own name. *)
Lemma store_in_cache_interrupted_in_save cache_fn spect w k :
  sigint w = Some (DuringSave k) ->
  store_in_cache K X cache_fn spect w
  = os_unlink (path_str cache_fn)
      (clear_sigint
         (set_fs (fun f => <[tmp_key cache_fn :=
                    FBytes (take k (np_save_bytes X (PyDict [("spect", Some spect)])))]> f)
            w)).
Proof.
  intros Hsig. destruct w as [f d g1 g2 g3 ev sg]. cbn [sigint] in Hsig. subst sg.
  unfold store_in_cache, try_except, np_save, bind, deliver_sigint.
  cbn [sigint]. done.
Qed.

(** A signal after [os.rename] has returned: the handler removes the
    complete cache file and the computation goes on. *)
Lemma store_in_cache_interrupted_after_rename cache_fn spect w :
  sigint w = Some AfterRename ->
  store_in_cache K X cache_fn spect w
  = (Ok tt,
     log_event (EUnlink (cache_key cache_fn))
       (set_fs (delete (cache_key cache_fn))
          (clear_sigint (stored cache_fn spect w)))).
Proof.
  intros Hsig. destruct w as [f d g1 g2 g3 ev sg]. cbn [sigint] in Hsig. subst sg.
  unfold stored, store_in_cache, try_except, np_save, os_rename, bind,
    deliver_sigint, write_file, emit, modify, move_file, os_unlink.
  cbn [sigint set_fs log_event fs dirs py_random np_random torch_random events
       clear_sigint is_KeyboardInterrupt].
  fold (tmp_key cache_fn) (cache_key cache_fn).
  rewrite lookup_insert_eq.
  cbn [sigint set_fs log_event fs dirs py_random np_random torch_random events
       clear_sigint is_KeyboardInterrupt].
  rewrite lookup_insert_eq. done.
Qed.

(** The read of a file a completed [np.save] of this module wrote *)
Lemma read_cache_hit cache_fn spect w :
  fs w !! cache_key cache_fn = Some (cache_entry spect) ->
  read_cache K X cache_fn w = (Ok (Some spect), w).
Proof.
  intros Hfile. unfold read_cache, bind, path_exists, gets.
  fold (cache_key cache_fn). rewrite Hfile.
  rewrite bool_decide_eq_true_2 by eauto. cbn [orb].
  unfold try_except, np_load_spect, bind, np_load.
  fold (cache_key cache_fn). rewrite Hfile. done.
Qed.

(** A read that fails with an [Exception] is logged and counts as a miss. *)
Lemma read_cache_error cache_fn w e w1 :
  path_exists (path_str cache_fn) w = (Ok true, w) ->
  np_load_spect K X (path_str cache_fn) w = (Raise e, w1) ->
  is_Exception e = true ->
  read_cache K X cache_fn w
  = (Ok None,
     log_event ETraceback
       (log_event (EPrintExc ("Can't load file " ++ path_str cache_fn
                                ++ " with exception:") e) w1)).
Proof.
  intros Hex Hload Hexc. unfold read_cache.
  rewrite (bind_ok _ _ _ _ _ Hex). unfold try_except. rewrite Hload, Hexc.
  done.
Qed.

Lemma np_load_spect_world path w r w1 :
  np_load_spect K X path w = (r, w1) -> w1 = w.
Proof.
  unfold np_load_spect, bind, np_load, lift.
  repeat case_match; intros; simplify_eq; done.
Qed.

End Store.
Arguments stored {K} _ _ _.
Arguments cache_entry {K} _.

(** Whatever happens during the cache write, KeyboardInterrupt does not
    leave [store_in_cache]: the handler ends normally or with the error
    of its own [os.unlink]. *)
Lemma store_in_cache_never_raises_interrupt (K : numlib) (X : extlib K)
    (cache_fn : PurePath) (spect : spect_val (num K)) (w : world (num K)) :
  fst (store_in_cache K X cache_fn spect w) <> Raise KeyboardInterrupt.
Proof.
  unfold store_in_cache, try_except.
  match goal with |- context [bind ?m ?k w] => destruct (bind m k w) as [[u|e] w1] end.
  - done.
  - destruct e; cbn [is_KeyboardInterrupt fst]; try done.
    unfold os_unlink. by case_match.
Qed.

(** The handler touches one name only, the cache file's. *)
Lemma os_unlink_other {E} (p : string) (w : world E) (q : string) :
  q <> fs_key p -> fs (snd (os_unlink p w)) !! q = fs w !! q.
Proof.
  intros Hne. unfold os_unlink. case_match; [|done].
  cbn [snd fs log_event set_fs]. by rewrite lookup_delete_ne.
Qed.


(** * Properties of the collator *)

Section CollateFacts.
Context {A : Type} (zero : A).
Implicit Types (s x y : sample A) (batch l : list (sample A)).

(** [b] is at most as long as [a] *)
Definition longer_first (a b : sample A) : Prop := seq_len b <= seq_len a.

Lemma insert_desc_Permutation x l : insert_desc x l ≡ₚ x :: l.
Proof.
  induction l as [|y l IH]; [done|]. cbn [insert_desc].
  destruct (seq_len y <=? seq_len x); [done|].
  rewrite IH. apply Permutation_swap.
Qed.

Lemma sorted_desc_Permutation batch : sorted_desc batch ≡ₚ batch.
Proof.
  induction batch as [|x l IH]; [done|].
  unfold sorted_desc in *. cbn [fold_right].
  by rewrite insert_desc_Permutation, IH.
Qed.

Lemma insert_desc_sorted x l :
  StronglySorted longer_first l -> StronglySorted longer_first (insert_desc x l).
Proof.
  induction 1 as [|y l Hsorted IH Hall]; cbn [insert_desc].
  - repeat constructor.
  - destruct (Nat.leb_spec (seq_len y) (seq_len x)) as [Hle|Hgt].
    + constructor; [by constructor|].
      constructor; [done|].
      eapply Forall_impl; [exact Hall|]. unfold longer_first. intros; lia.
    + constructor; [done|].
      rewrite insert_desc_Permutation. constructor; [|done].
      unfold longer_first. lia.
Qed.

Lemma sorted_desc_sorted batch : StronglySorted longer_first (sorted_desc batch).
Proof.
  induction batch as [|x l IH]; [constructor|].
  by apply insert_desc_sorted.
Qed.

Lemma max_by_len_head x l :
  Forall (longer_first x) l -> max_by_len x l = x.
Proof.
  induction 1 as [|y l Hy _ IH]; [done|]. cbn [max_by_len].
  unfold longer_first in Hy.
  destruct (Nat.ltb_spec (seq_len x) (seq_len y)); [lia|done].
Qed.

(** The longest item comes first after sorting, and [max] picks it. *)
Lemma py_max_sorted batch :
  batch <> [] ->
  exists x l, sorted_desc batch = x :: l
    /\ py_max (sorted_desc batch) = Ok x
    /\ Forall (longer_first x) l
    /\ seq_len x = max_list (map seq_len batch).
Proof.
  intros Hne. pose proof (sorted_desc_sorted batch) as Hs.
  pose proof (sorted_desc_Permutation batch) as Hp.
  destruct (sorted_desc batch) as [|x l] eqn:Heq.
  { apply Permutation_nil_l in Hp. by subst. }
  apply StronglySorted_inv in Hs as [_ Hall].
  exists x, l. split; [done|]. split.
  { cbn [py_max]. by rewrite max_by_len_head. }
  split; [done|].
  change (map seq_len batch) with (seq_len <$> batch).
  rewrite <- Hp. cbn. apply Nat.le_antisymm.
  - lia.
  - apply Nat.max_lub; [done|].
    clear -Hall. induction Hall as [|y l Hy _ IH]; cbn; [lia|].
    unfold longer_first in Hy. lia.
Qed.


Lemma insert_after_prefix {B} (l1 : list B) (k n : nat) (x z : B) :
  length l1 = k -> k < n ->
  <[k := x]> (l1 ++ replicate (n - k) z) = (l1 ++ [x]) ++ replicate (n - S k) z.
Proof.
  intros Hlen Hk. rewrite insert_app_r_alt by lia.
  rewrite Hlen, Nat.sub_diag.
  replace (n - k) with (S (n - S k)) by lia.
  cbn. by rewrite <- app_assoc.
Qed.

(** What the loop writes for one item: its padded plane, its share of the
    longest length and its label count. *)
Definition plane_of (freq_size max_seqlength : nat) (s : sample A) : ndarray A :=
  nd_of_rows max_seqlength
    (map (fun i =>
            nd_row (s_tensor s)
              (if nd_rows (s_tensor s) =? freq_size then i else 0)
              ++ drop (seq_len s) (nd_row (nd_zeros zero freq_size max_seqlength) i))
         (seq 0 freq_size)).

Definition fraction_of (max_seqlength : nat) (s : sample A) : Q :=
  (inject_Z (Z.of_nat (seq_len s)) / inject_Z (Z.of_nat max_seqlength))%Q.

Definition target_size_of (s : sample A) : Z := Z.of_nat (length (s_target s)).

(** The accumulator after the first [k] items of a batch of [n] *)
Definition collated_upto (batch : list (sample A))
    (freq_size max_seqlength n k : nat) : collated A :=
  let done_ := take k batch in
  mk_collated
    (map (fun s => [plane_of freq_size max_seqlength s]) done_
       ++ replicate (n - k) [nd_zeros zero freq_size max_seqlength])
    (concat (map s_target done_))
    (map s_path done_)
    (map (fraction_of max_seqlength) done_ ++ replicate (n - k) 0%Q)
    (map target_size_of done_ ++ replicate (n - k) 0%Z).

(** An item the loop accepts: not longer than the longest, and with the
    batch's number of frequency rows (or a single row to repeat). *)
Definition fits (freq_size max_seqlength : nat) (s : sample A) : Prop :=
  seq_len s <= max_seqlength
  /\ (nd_rows (s_tensor s) = freq_size \/ nd_rows (s_tensor s) = 1).

Lemma narrow_copy_fits freq_size max_seqlength s :
  fits freq_size max_seqlength s ->
  narrow_copy (nd_zeros zero freq_size max_seqlength) (seq_len s) (s_tensor s)
  = Ok (plane_of freq_size max_seqlength s).
Proof.
  intros [Hlen Hrows]. unfold narrow_copy, plane_of, seq_len in *.
  cbn [nd_zeros nd_cols nd_rows].
  apply Nat.leb_le in Hlen as ->. rewrite Nat.eqb_refl. cbn [negb].
  destruct (nd_rows (s_tensor s) =? freq_size) eqn:Hf; [done|].
  destruct Hrows as [Hr|Hr].
  - apply Nat.eqb_neq in Hf. done.
  - rewrite Hr. done.
Qed.

Lemma collate_step_fits batch freq_size max_seqlength k s :
  max_seqlength <> 0 ->
  batch !! k = Some s ->
  fits freq_size max_seqlength s ->
  collate_step zero batch freq_size max_seqlength
    (collated_upto batch freq_size max_seqlength (length batch) k) k
  = Ok (collated_upto batch freq_size max_seqlength (length batch) (S k)).
Proof.
  intros HT Hk Hfits. unfold collate_step. rewrite Hk. cbv zeta.
  change (nd_cols (s_tensor s)) with (seq_len s).
  rewrite (narrow_copy_fits _ _ _ Hfits). cbn [rbind].
  apply Nat.eqb_neq in HT as ->.
  assert (Hlt : k < length batch) by (by eapply lookup_lt_Some).
  assert (Hlen : length (take k batch) = k) by (rewrite length_take; lia).
  unfold collated_upto. cbn [inputs targets filenames input_percentages target_sizes].
  rewrite (take_S_r _ _ _ Hk).
  rewrite !map_app, concat_app. cbn [map concat]. rewrite app_nil_r.
  rewrite !insert_after_prefix by (by rewrite ?length_map).
  done.
Qed.

Lemma collate_loop_fits batch freq_size max_seqlength :
  max_seqlength <> 0 ->
  Forall (fits freq_size max_seqlength) batch ->
  forall m k, k + m = length batch ->
    collate_loop zero batch freq_size max_seqlength
      (collated_upto batch freq_size max_seqlength (length batch) k) (seq k m)
    = Ok (collated_upto batch freq_size max_seqlength (length batch) (length batch)).
Proof.
  intros HT Hall. induction m as [|m IH]; intros k Hk.
  - cbn. do 2 f_equal. lia.
  - cbn [seq collate_loop].
    destruct (lookup_lt_is_Some_2 batch k) as [s Hs]; [lia|].
    rewrite (collate_step_fits _ _ _ _ s HT Hs).
    + cbn [rbind]. apply IH. lia.
    + rewrite Forall_lookup in Hall. by eapply Hall.
Qed.


Lemma nd_zeros_row rows cols i :
  i < rows -> nd_row (nd_zeros zero rows cols) i = replicate cols zero.
Proof.
  intros Hi. unfold nd_row, nd_zeros. cbn [nd_cols nd_data].
  rewrite drop_replicate, take_replicate. f_equal. nia.
Qed.

(** Row [i] of an item's plane: the item's row, then zeros up to the
    longest length. *)
Lemma plane_of_row freq_size max_seqlength s i :
  nd_wf (s_tensor s) ->
  nd_rows (s_tensor s) = freq_size ->
  seq_len s <= max_seqlength ->
  i < freq_size ->
  nd_row (plane_of freq_size max_seqlength s) i
  = nd_row (s_tensor s) i ++ replicate (max_seqlength - seq_len s) zero.
Proof.
  intros Hwf Hrows Hlen Hi. unfold plane_of.
  rewrite Hrows, Nat.eqb_refl.
  unfold nd_row at 1, nd_of_rows. cbn [nd_cols nd_data].
  apply take_drop_concat.
  - apply Forall_forall. intros row Hin.
    apply list_elem_of_fmap in Hin as (j & -> & Hj%elem_of_seq).
    rewrite length_app, length_drop, nd_row_length by (done || lia).
    rewrite nd_zeros_row by lia. rewrite length_replicate.
    unfold seq_len in *. lia.
  - change (map ?f ?l) with (f <$> l).
    rewrite list_lookup_fmap, lookup_seq_lt by done.
    cbn [fmap option_fmap option_map Nat.add].
    rewrite nd_zeros_row by done. by rewrite drop_replicate.
Qed.

Lemma sum_target_sizes (l : list (sample A)) :
  foldr Z.add 0%Z (map target_size_of l)
  = Z.of_nat (length (concat (map s_target l))).
Proof.
  induction l as [|s l IH]; [done|].
  cbn [map foldr concat]. rewrite length_app, IH. unfold target_size_of. lia.
Qed.

End CollateFacts.


(** * Properties of the samplers *)

Section SamplerFacts.
Context (get_world_size get_rank : nat).
Context (torch_randperm : Z -> nat -> list nat).
Import DistributedBucketingSampler.

Lemma make_bins_length n bs :
  (0 < bs)%Z ->
  exists bins, make_bins n bs = Ok bins
    /\ length bins = ceil_div n (Z.to_nat bs).
Proof.
  intros Hbs. unfold make_bins.
  destruct (Z.eqb_spec bs 0) as [->|_]; [lia|].
  destruct (Z.ltb_spec bs 0) as [?|_]; [lia|].
  eexists. split; [done|]. by rewrite length_map, length_seq.
Qed.

Lemma stride_slice_lookup {A} (l : list A) offset step k :
  0 < step -> offset + k * step < length l ->
  stride_slice l offset step !! k = l !! (offset + k * step).
Proof.
  intros Hstep Hlt. unfold stride_slice.
  set (n := (length l - offset + step - 1) / step).
  assert (Hk : k < n).
  { subst n. apply Nat.div_le_lower_bound; [lia|]. nia. }
  assert (Hall : forall m j, j < m ->
            (forall i, i < m -> offset + i * step < length l) ->
            omap (fun i => l !! (offset + i * step)) (seq 0 m) !! j
            = l !! (offset + j * step)).
  { clear. induction m as [|m IH]; intros j Hj Hin; [lia|].
    rewrite seq_S, omap_app. simpl.
    assert (Hlen : length (omap (fun i => l !! (offset + i * step)) (seq 0 m)) = m).
    { clear IH Hj. induction m as [|m IHm]; [done|].
      rewrite seq_S, omap_app, length_app, IHm by (intros; apply Hin; lia).
      simpl. destruct (lookup_lt_is_Some_2 l (offset + m * step)) as [x ->];
        [apply Hin; lia|]. simpl. lia. }
    destruct (decide (j < m)) as [Hlt|Hge].
    - rewrite lookup_app_l by lia. apply IH; [done|]. intros; apply Hin; lia.
    - assert (j = m) as -> by lia.
      rewrite lookup_app_r by lia. rewrite Hlen, Nat.sub_diag.
      destruct (lookup_lt_is_Some_2 l (offset + m * step)) as [x Hx];
        [apply Hin; lia|]. rewrite Hx. done. }
  apply Hall; [done|]. intros i Hi. subst n.
  assert (i * step + step <= length l - offset + step - 1); [|lia].
  assert (Hd := Nat.Div0.mul_div_le (length l - offset + step - 1) step).
  nia.
Qed.

(** When the padding needed does not exceed the number of bins, the
    assertion of [__iter__] holds and rank [rank self] receives the bins
    at positions [rank], [rank + R], [rank + 2 R], ... of the padded list. *)
Lemma iter_ok (self : t) :
  total_size self - length (bins self) <= length (bins self) ->
  length (bins self) <= total_size self ->
  iter self
  = Ok (stride_slice
          (bins self ++ take (total_size self - length (bins self)) (bins self))
          (rank self) (num_replicas self)).
Proof.
  intros Hpad Hle. unfold iter.
  rewrite length_app, length_take.
  replace (length (bins self)
           + (total_size self - length (bins self)) `min` length (bins self))
    with (total_size self) by lia.
  by rewrite Nat.eqb_refl.
Qed.

(** When more padding is needed than there are bins, one wrap-around is
    not enough and the assertion of [__iter__] fails. *)
Lemma iter_assertion_fails (self : t) :
  length (bins self) < total_size self - length (bins self) ->
  iter self = Raise AssertionError.
Proof.
  intros Hpad. unfold iter.
  rewrite length_app, length_take.
  destruct (Nat.eqb_spec
    (length (bins self)
     + (total_size self - length (bins self)) `min` length (bins self))
    (total_size self)) as [Heq|_]; [lia|done].
Qed.

Lemma stride_slice_elem_of {A} (l : list A) offset step (x : A) :
  x ∈ stride_slice l offset step -> x ∈ l.
Proof.
  unfold stride_slice. intros (k & _ & Hk)%list_elem_of_omap.
  by eapply list_elem_of_lookup_2.
Qed.

Lemma stride_slice_length {A} (l : list A) offset step :
  0 < step ->
  length (stride_slice l offset step) = (length l - offset + step - 1) / step.
Proof.
  intros Hstep. unfold stride_slice.
  set (n := (length l - offset + step - 1) / step).
  assert (Hin : forall i, i < n -> offset + i * step < length l).
  { intros i Hi. subst n.
    assert (Hd := Nat.Div0.mul_div_le (length l - offset + step - 1) step).
    nia. }
  clearbody n. induction n as [|n IH]; [done|].
  rewrite seq_S, omap_app, length_app, IH by (intros; apply Hin; lia).
  simpl. destruct (lookup_lt_is_Some_2 l (offset + n * step)) as [x ->];
    [apply Hin; lia|]. simpl. lia.
Qed.

(** Every bin reaches some rank: position [i] of the bin list is yielded
    to rank [i mod R] as its item number [i / R]. *)
Lemma stride_slice_covers {A} (l : list A) (R i : nat) (b : A) :
  0 < R -> l !! i = Some b ->
  stride_slice l (i mod R) R !! (i / R) = Some b.
Proof.
  intros HR Hi.
  assert (Hlt : i < length l) by (by eapply lookup_lt_Some).
  assert (Hdm : i mod R + i / R * R = i).
  { rewrite (Nat.div_mod_eq i R) at 3. lia. }
  rewrite stride_slice_lookup by lia. by rewrite Hdm.
Qed.

End SamplerFacts.

Lemma swap_Permutation {A} (l : list A) i j : swap l i j ≡ₚ l.
Proof.
  unfold swap. destruct (l !! i) as [a|] eqn:Hi; [|done].
  destruct (l !! j) as [b|] eqn:Hj; [|done].
  by apply Permutation_insert_swap.
Qed.

Lemma shuffle_from_Permutation {A} i (l : list A) g :
  fst (shuffle_from i l g) ≡ₚ l.
Proof.
  revert l g. induction i as [|i IH]; intros l g; [done|].
  cbn [shuffle_from]. destruct (rng_below (S (S i)) g) as [j g'].
  rewrite IH. apply swap_Permutation.
Qed.

(** The shuffle of [BucketingSampler] never looks at [epoch]. *)
Lemma bucketing_shuffle_ignores_epoch {E} (self : BucketingSampler.t) e1 e2
    (w : world E) :
  BucketingSampler.shuffle self e1 w = BucketingSampler.shuffle self e2 w.
Proof. reflexivity. Qed.

(** It rearranges the bins and advances NumPy's generator. *)
Lemma bucketing_shuffle_Permutation {E} (self : BucketingSampler.t) epoch
    (w : world E) :
  exists self',
    fst (BucketingSampler.shuffle self epoch w) = Ok self'
    /\ BucketingSampler.bins self' ≡ₚ BucketingSampler.bins self.
Proof.
  unfold BucketingSampler.shuffle, bind, np_shuffle, ret.
  pose proof (shuffle_from_Permutation
                (length (BucketingSampler.bins self) - 1)
                (BucketingSampler.bins self) (np_random w)) as Hp.
  destruct (shuffle_from _ _ _) as [l' g]. simpl in *.
  eexists. split; [done|]. done.
Qed.

Section SelectBins.
Import DistributedBucketingSampler.

Lemma select_bins_total (bins : list (list nat)) (bin_ids : list nat) :
  Forall (fun i => i < length bins) bin_ids ->
  select_bins bins bin_ids = Ok (map (fun i => nth i bins []) bin_ids).
Proof.
  induction 1 as [|i rest Hi _ IH]; [done|].
  cbn [select_bins map].
  destruct (lookup_lt_is_Some_2 bins i Hi) as [b Hb].
  rewrite Hb, IH. cbn [rbind]. do 2 f_equal.
  symmetry. by apply nth_lookup_Some.
Qed.

Lemma map_nth_seq {A} (l : list A) d :
  map (fun i => nth i l d) (seq 0 (length l)) = l.
Proof.
  apply list_eq. intros i.
  change (map ?f ?l) with (f <$> l). rewrite list_lookup_fmap.
  destruct (decide (i < length l)) as [Hi|Hi].
  - rewrite lookup_seq_lt by done. simpl.
    destruct (lookup_lt_is_Some_2 l i Hi) as [x Hx].
    rewrite Hx. f_equal. by apply nth_lookup_Some.
  - rewrite lookup_seq_ge by lia. by rewrite lookup_ge_None_2 by lia.
Qed.

Lemma select_bins_Permutation (bins : list (list nat)) (bin_ids : list nat) :
  bin_ids ≡ₚ seq 0 (length bins) ->
  exists bins', select_bins bins bin_ids = Ok bins' /\ bins' ≡ₚ bins.
Proof.
  intros Hp. exists (map (fun i => nth i bins []) bin_ids). split.
  - apply select_bins_total. rewrite Hp.
    apply Forall_forall. intros i Hi%elem_of_seq. lia.
  - transitivity (map (fun i => nth i bins []) (seq 0 (length bins))).
    + change (map ?f ?l) with (f <$> l). by rewrite Hp.
    + by rewrite map_nth_seq.
Qed.
End SelectBins.


(** * Claims about the transform *)

Section StftClaims.
Context (K : numlib) (X : extlib K).

(** Bins 0..80 after the fit: the natural bins as far as they go, zeros
    above them. *)
Lemma mirrored_row_natural (m : ndarray (num K)) (i : nat) :
  nd_wf m -> i < 81 ->
  nd_row (mirrored (f_zero K) m) i
  = if i <? nd_rows m then nd_row m i else replicate (nd_cols m) (f_zero K).
Proof.
  intros Hwf Hi. rewrite mirrored_row_low by done.
  destruct (Nat.ltb_spec i (nd_rows m)).
  - apply nd_resize_row_old; lia || done.
  - apply nd_resize_row_new; lia || done.
Qed.


End StftClaims.

(** A transform configured for a 20 ms window at 16 kHz, not augmenting *)
Definition plain_parser : SpectrogramParser :=
  mk_parser (1 # 100) (2 # 100) 16000 hamming (NormBool false) false (-1)
    "/cache" None None.



(** * Claims about the cache *)

(** ** The cache path *)

(** The file name inside the shard directory *)
Definition cache_basename (audio_path : string) (content : list byte)
    (tempo_name : string) (channel : Z) : string :=
  (path_name (path_of_string audio_path) ++ "."
     ++ (str_drop 2 (str_take 9 (Sha1.hexdigest content)) ++ "."
     ++ (tempo_name ++ "." ++ chan_name channel ++ ".npy")))%string.

Definition cache_shard (content : list byte) : string :=
  str_take 2 (str_take 9 (Sha1.hexdigest content)).

Lemma cache_file_parts cache_path audio_path content tempo_name channel :
  slash_free tempo_name ->
  cache_file cache_path audio_path content tempo_name channel
  = mk_path (p_abs (path_of_string cache_path))
      ((p_parts (path_of_string cache_path) ++ [cache_shard content])
         ++ [cache_basename audio_path content tempo_name channel]).
Proof.
  intros Htempo. unfold cache_file, Path3.
  destruct (hexdigest_chars content) as [Hlen Hfree].
  remember (Sha1.hexdigest content) as h eqn:Hh.
  assert (Hshard : path_of_string (str_take 2 (str_take 9 h))
                   = mk_path false [str_take 2 (str_take 9 h)]).
  { apply path_of_string_single.
    - by do 2 apply slash_free_take.
    - intros Heq. apply (f_equal (fun s => length (chars s))) in Heq.
      cbv beta in Heq.
      unfold cache_shard in Heq. rewrite !length_str_take, Hlen in Heq.
      cbn in Heq. lia.
    - intros Heq. apply (f_equal (fun s => length (chars s))) in Heq.
      cbv beta in Heq.
      unfold str_take in Heq. rewrite !chars_of_list, !length_take in Heq.
      fold (chars h) in Heq. rewrite Hlen in Heq. cbn in Heq. lia. }
  assert (Hbase : path_of_string
            (path_name (path_of_string audio_path) ++ "." ++ str_drop 2 (str_take 9 h)
               ++ "." ++ tempo_name ++ "." ++ chan_name channel ++ ".npy")%string
          = mk_path false
              [(path_name (path_of_string audio_path) ++ "."
                  ++ str_drop 2 (str_take 9 h)
                  ++ "." ++ tempo_name ++ "." ++ chan_name channel ++ ".npy")%string]).
  { apply path_of_string_single.
    - apply slash_free_app; [apply path_name_slash_free|].
      apply (slash_free_app "."); [repeat constructor; discriminate|].
      apply slash_free_app; [by apply slash_free_drop, slash_free_take|].
      apply (slash_free_app "."); [repeat constructor; discriminate|].
      apply slash_free_app; [done|].
      apply (slash_free_app "."); [repeat constructor; discriminate|].
      apply slash_free_app; [apply chan_name_slash_free|].
      repeat constructor; discriminate.
    - intros Heq. apply (f_equal (fun s => length (chars s))) in Heq.
      cbv beta in Heq.
      rewrite !chars_app, !length_app in Heq. cbn in Heq. lia.
    - intros Heq. apply (f_equal (fun s => length (chars s))) in Heq.
      cbv beta in Heq.
      rewrite !chars_app, !length_app in Heq. cbn in Heq. lia. }
  rewrite Hshard, Hbase. subst h. done.
Qed.

(** C5 (as amended): the cache path is made of the cache root, the first
    two of the nine hex digits of the SHA-1 of the file's bytes, and a
    file name built from the audio file's base name, the other seven
    digits, the tempo name and the channel.  For one cache root, tempo
    variant and channel:
    - two files with the same bytes and the same base name, in whatever
      directories, have the same cache path;
    - two files with the same bytes and different base names have
      different cache paths;
    - two files whose nine-digit digests differ have different cache
      paths. *)
Theorem cache_path_spec (cache_path a1 a2 : string) (c1 c2 : list byte)
    (tempo_id : Z) (tempo_name : string) (tempo_range : Q * Q) (channel : Z) :
  TEMPOS tempo_id = Some (tempo_name, tempo_range) ->
  let path_of a c := cache_file cache_path a c tempo_name channel in
  let name_of a := path_name (path_of_string a) in
  let digest9 c := str_take 9 (Sha1.hexdigest c) in
  (c1 = c2 -> name_of a1 = name_of a2 -> path_of a1 c1 = path_of a2 c2)
  /\ (c1 = c2 -> name_of a1 <> name_of a2 -> path_of a1 c1 <> path_of a2 c2)
  /\ (digest9 c1 <> digest9 c2 -> path_of a1 c1 <> path_of a2 c2).
Proof.
  intros Htempo path_of name_of digest9.
  pose proof (TEMPOS_slash_free _ _ _ Htempo) as Hfree.
  split; [|split].
  - intros -> Hname. unfold path_of, cache_file. fold (name_of a1) (name_of a2).
    by rewrite Hname.
  - intros -> Hname Heq. unfold path_of in Heq.
    rewrite !cache_file_parts in Heq by done.
    injection Heq as Heq. apply app_inj_tail in Heq as [_ Heq].
    unfold cache_basename in Heq. fold (name_of a1) (name_of a2) in Heq.
    apply Hname. by apply string_app_inv_tail in Heq.
  - intros Hdigest Heq. unfold path_of in Heq.
    rewrite !cache_file_parts in Heq by done.
    injection Heq as Heq. apply app_inj_tail in Heq as [Hshard Hbase].
    apply app_inj_tail in Hshard as [_ Hshard].
    apply Hdigest. unfold digest9.
    rewrite <- (str_take_drop 2 (str_take 9 (Sha1.hexdigest c1))).
    rewrite <- (str_take_drop 2 (str_take 9 (Sha1.hexdigest c2))).
    unfold cache_shard in Hshard. rewrite Hshard. f_equal.
    unfold cache_basename in Hbase.
    apply (f_equal chars) in Hbase. rewrite !chars_app in Hbase.
    rewrite (app_assoc (chars (name_of a1))) in Hbase.
    rewrite (app_assoc (chars (name_of a2))) in Hbase.
    destruct (hexdigest_chars c1) as [L1 _], (hexdigest_chars c2) as [L2 _].
    apply app_inj_2 in Hbase as [_ Hbase].
    + apply app_inv_tail in Hbase. by apply chars_inj.
    + by rewrite !length_app, !length_str_drop, !length_str_take, L1, L2.
Qed.

Definition riff : list byte := bytes_of_string "RIFF".

Lemma cache_path_spec_witness :
  TEMPOS 0 = Some ("1.0", (1, 1)%Q)
  /\ cache_file "/cache" "/data/one/a.wav" riff "1.0" (-1)
     = cache_file "/cache" "/data/two/a.wav" riff "1.0" (-1).
Proof.
  split; [reflexivity|].
  apply (cache_path_spec "/cache" "/data/one/a.wav" "/data/two/a.wav" riff riff
           0 "1.0" (1, 1)%Q (-1) eq_refl); reflexivity.
Defined.

(** C5, counterexample: the same bytes under two file names.  The cache
    path carries the base name, so renaming a file changes it. *)
Lemma cache_path_changes_on_rename :
  path_str (cache_file "/cache" "/data/a.wav" riff "1.0" (-1))
    = "/cache/6c/a.wav.a0a12c2.1.0.avg.npy"
  /\ path_str (cache_file "/cache" "/data/b.wav" riff "1.0" (-1))
    = "/cache/6c/b.wav.a0a12c2.1.0.avg.npy"
  /\ cache_file "/cache" "/data/a.wav" riff "1.0" (-1)
     <> cache_file "/cache" "/data/b.wav" riff "1.0" (-1).
Proof. vm_compute. repeat split; discriminate. Qed.

(** Two different contents whose SHA-1 digests agree on the first nine
    hex digits share a cache path: not every change of the bytes changes
    the path. *)
Lemma cache_path_digest_collision :
  bytes_of_string "RIFF67740" <> bytes_of_string "RIFF201935"
  /\ Sha1.hexdigest (bytes_of_string "RIFF67740")
     = "1863ae6e1c45488d54ade8cee0b22bff12305e75"
  /\ Sha1.hexdigest (bytes_of_string "RIFF201935")
     = "1863ae6e1b4fcdeb142e1426bf015fae1042828f"
  /\ cache_file "/cache" "/data/a.wav" (bytes_of_string "RIFF67740") "1.0" (-1)
     = cache_file "/cache" "/data/a.wav" (bytes_of_string "RIFF201935") "1.0" (-1).
Proof. vm_compute. repeat split; discriminate. Qed.


(** ** What [parse_audio] reads from and writes to the cache *)

Section CacheClaims.
Context (K : numlib) (X : extlib K).
Abbreviation F := (num K).
Implicit Types (w : world F) (self : SpectrogramParser) (spect : spect_val F).

Lemma parse_audio_hit self audio_path w tempo_id w0 cache_fn spect w1 :
  choose_tempo K self w = (Ok tempo_id, w0) ->
  load_audio_cache K X self audio_path tempo_id w0 = (Ok (cache_fn, Some spect), w1) ->
  parse_audio K X self audio_path w = finish K self spect w1.
Proof.
  intros Ht Hl. unfold parse_audio.
  rewrite (bind_ok _ _ _ _ _ Ht), (bind_ok _ _ _ _ _ Hl). done.
Qed.

Lemma parse_audio_miss self audio_path w tempo_id w0 cache_fn w1 :
  choose_tempo K self w = (Ok tempo_id, w0) ->
  load_audio_cache K X self audio_path tempo_id w0 = (Ok (cache_fn, None), w1) ->
  parse_audio K X self audio_path w
  = bind (recompute K X self audio_path tempo_id cache_fn) (finish K self) w1.
Proof.
  intros Ht Hl. unfold parse_audio.
  rewrite (bind_ok _ _ _ _ _ Ht), (bind_ok _ _ _ _ _ Hl). done.
Qed.

Lemma load_audio_cache_tempo self audio_path tempo_id w r w1 :
  load_audio_cache K X self audio_path tempo_id w = (Ok r, w1) ->
  exists tempo_name tempo_range, TEMPOS tempo_id = Some (tempo_name, tempo_range).
Proof.
  unfold load_audio_cache. destruct (TEMPOS tempo_id) as [[n r']|]; [eauto|done].
Qed.

(** Other tempo variants: the recomputation is the whole of it. *)
Lemma recompute_other_tempo self audio_path tempo_id cache_fn name range w :
  TEMPOS tempo_id = Some (name, range) -> tempo_id <> 0%Z ->
  recompute K X self audio_path tempo_id cache_fn w
  = compute_spect K X self audio_path range w.
Proof.
  intros HT Hne. unfold recompute. rewrite HT.
  apply Z.eqb_neq in Hne as ->. unfold bind, ret.
  by destruct (compute_spect _ _ _ _ _ _) as [[s|e] w'].
Qed.

Lemma recompute_tempo_0_ok self audio_path cache_fn w spect w2 :
  compute_spect K X self audio_path (1, 1)%Q w = (Ok spect, w2) ->
  sigint w2 = None ->
  recompute K X self audio_path 0 cache_fn w
  = (Ok spect, stored cache_fn spect w2).
Proof.
  intros Hc Hsig. unfold recompute. cbn [TEMPOS Z.eqb].
  rewrite (bind_ok _ _ _ _ _ Hc). unfold bind.
  by rewrite store_in_cache_ok.
Qed.

Lemma recompute_tempo_0_raise self audio_path cache_fn w e w2 :
  compute_spect K X self audio_path (1, 1)%Q w = (Raise e, w2) ->
  recompute K X self audio_path 0 cache_fn w = (Raise e, w2).
Proof.
  intros Hc. unfold recompute. cbn [TEMPOS Z.eqb].
  by rewrite (bind_raise _ _ _ _ _ Hc).
Qed.

Lemma finish_fs self spect w : fs (snd (finish K self spect w)) = fs w.
Proof.
  unfold finish. case_match; [|done].
  unfold add_jitter. destruct spect; [done|].
  unfold bind, torch_rand. by destruct (rng_double _).
Qed.

(** A miss at tempo variant 0 whose recomputation succeeds *)
Lemma parse_audio_miss_at_tempo_0 self audio_path w w0 cache_fn w1 spect w2 :
  sigint w = None ->
  choose_tempo K self w = (Ok 0%Z, w0) ->
  load_audio_cache K X self audio_path 0 w0 = (Ok (cache_fn, None), w1) ->
  compute_spect K X self audio_path (1, 1)%Q w1 = (Ok spect, w2) ->
  let out := parse_audio K X self audio_path w in
  out = finish K self spect (stored cache_fn spect w2)
  /\ saves (snd out) = saves w ++ [ESave (tmp_key cache_fn)]
  /\ fs (snd out) !! cache_key cache_fn = Some (cache_entry spect).
Proof.
  intros Hsig Ht Hl Hc out.
  destruct (quiet_choose_tempo K self w) as [Hs0 Hg0]. rewrite Ht in Hs0, Hg0.
  destruct (quiet_load_audio_cache K X self audio_path 0 w0) as [Hs1 Hg1].
  rewrite Hl in Hs1, Hg1.
  destruct (quiet_compute_spect K X self audio_path (1, 1)%Q w1) as [Hs2 Hg2].
  rewrite Hc in Hs2, Hg2. cbn [snd] in *.
  assert (Hout : out = finish K self spect (stored cache_fn spect w2)).
  { subst out. rewrite (parse_audio_miss _ _ _ _ _ _ _ Ht Hl).
    apply bind_ok. apply recompute_tempo_0_ok; [done|congruence]. }
  split; [done|]. rewrite Hout. split.
  - destruct (quiet_finish K self spect (stored cache_fn spect w2)) as [-> _].
    rewrite stored_saves. congruence.
  - rewrite finish_fs. apply stored_lookup.
Qed.

(** C6 (as amended): [parse_audio] calls [np.save] exactly when the cache
    lookup gave nothing, the tempo variant is 0 and the recomputation
    succeeded; the saved object then sits under the cache file's name.
    On a hit, for any tempo variant, the cached value is used and nothing
    is recomputed or saved.  For tempo variants 1 and 2 a miss recomputes
    and saves nothing. *)
Theorem parse_audio_saves_on_miss_at_tempo_0 self audio_path w tempo_id w0
    cache_fn cached w1 :
  sigint w = None ->
  choose_tempo K self w = (Ok tempo_id, w0) ->
  load_audio_cache K X self audio_path tempo_id w0 = (Ok (cache_fn, cached), w1) ->
  let out := parse_audio K X self audio_path w in
  match cached with
  | Some spect =>
      out = finish K self spect w1 /\ saves (snd out) = saves w
  | None =>
      if (tempo_id =? 0)%Z then
        (forall spect w2,
           compute_spect K X self audio_path (1, 1)%Q w1 = (Ok spect, w2) ->
           out = finish K self spect (stored cache_fn spect w2)
           /\ saves (snd out) = saves w ++ [ESave (tmp_key cache_fn)]
           /\ fs (snd out) !! cache_key cache_fn = Some (cache_entry spect))
        /\ (forall e w2,
              compute_spect K X self audio_path (1, 1)%Q w1 = (Raise e, w2) ->
              out = (Raise e, w2) /\ saves (snd out) = saves w)
      else
        exists tempo_name tempo_range,
          TEMPOS tempo_id = Some (tempo_name, tempo_range)
          /\ out = bind (compute_spect K X self audio_path tempo_range)
                     (finish K self) w1
          /\ saves (snd out) = saves w
  end.
Proof.
  intros Hsig Ht Hl out.
  destruct (quiet_choose_tempo K self w) as [Hs0 Hg0]. rewrite Ht in Hs0, Hg0.
  destruct (quiet_load_audio_cache K X self audio_path tempo_id w0) as [Hs1 Hg1].
  rewrite Hl in Hs1, Hg1. cbn [snd] in *.
  destruct cached as [spect|].
  - subst out. rewrite (parse_audio_hit _ _ _ _ _ _ _ _ Ht Hl).
    split; [done|]. destruct (quiet_finish K self spect w1) as [-> _]. congruence.
  - destruct (Z.eqb_spec tempo_id 0) as [->|Hne].
    + split.
      * intros spect w2 Hc.
        by apply (parse_audio_miss_at_tempo_0 _ _ _ w0 _ w1).
      * intros e w2 Hc.
        destruct (quiet_compute_spect K X self audio_path (1, 1)%Q w1) as [Hs2 _].
        rewrite Hc in Hs2. cbn [snd] in *.
        assert (Hout : out = (Raise e, w2)).
        { subst out. rewrite (parse_audio_miss _ _ _ _ _ _ _ Ht Hl).
          apply bind_raise. by apply recompute_tempo_0_raise. }
        split; [done|]. rewrite Hout. cbn [snd]. congruence.
    + destruct (load_audio_cache_tempo _ _ _ _ _ _ Hl) as (name & range & HT).
      exists name, range. split; [done|].
      assert (Hout : out = bind (compute_spect K X self audio_path range)
                             (finish K self) w1).
      { subst out. rewrite (parse_audio_miss _ _ _ _ _ _ _ Ht Hl).
        unfold bind. by rewrite (recompute_other_tempo _ _ _ _ name range). }
      split; [done|]. rewrite Hout.
      assert (Hq : quiet (bind (compute_spect K X self audio_path range) (finish K self))).
      { apply quiet_bind; [apply quiet_compute_spect|intros; apply quiet_finish]. }
      destruct (Hq w1) as [-> _]. congruence.
Qed.


(** The recomputed value is the normalised transform. *)
Lemma compute_spect_inv self audio_path range w spect w2 :
  compute_spect K X self audio_path range w = (Ok spect, w2) ->
  exists y sample_rate raw wa wb,
    audio_to_stft K X self y sample_rate wa = (Ok raw, wb)
    /\ normalize_audio K self raw wb = (Ok spect, w2).
Proof.
  unfold compute_spect. intros H.
  apply bind_ok_inv in H as ([y sr] & w3 & _ & H).
  apply bind_ok_inv in H as (y' & w4 & _ & H).
  apply bind_ok_inv in H as (raw & w5 & Hstft & H).
  eauto 10.
Qed.

Lemma normalize_audio_tensor self raw w spect w' :
  normalize_audio K self raw w = (Ok spect, w') ->
  exists t, spect = FloatTensor t /\ nd_rows t = nd_rows raw /\ nd_cols t = nd_cols raw.
Proof.
  unfold normalize_audio, ret, raise.
  repeat case_match; intros; simplify_eq; eexists; split; done.
Qed.

Lemma normalize_audio_plain self raw w :
  normalize self = NormBool false ->
  normalize_audio K self raw w = (Ok (FloatTensor (nd_map K (f_log1p K) raw)), w).
Proof. unfold normalize_audio. by intros ->. Qed.

Lemma finish_plain self spect :
  augment self && norm_is (normalize self) "max_frame" = false ->
  finish K self spect = ret spect.
Proof. unfold finish. by intros ->. Qed.

(** C1 (as amended): on a miss at tempo variant 0, with no signal pending
    and a recomputation that succeeds, what [parse_audio] saves under the
    cache file's name is the value [normalize_audio] returned for the
    transform, a tensor: the spectrogram after normalisation.  A later
    read of that file returns this value, and on a cache hit
    [parse_audio] hands the cached value on as it is (adding only the
    jitter of line 187 when augmenting in [max_frame] mode): no
    normalisation is applied to it. *)
Theorem cache_holds_normalized_spectrogram self audio_path w w0 cache_fn w1
    spect w2 :
  sigint w = None ->
  choose_tempo K self w = (Ok 0%Z, w0) ->
  load_audio_cache K X self audio_path 0 w0 = (Ok (cache_fn, None), w1) ->
  compute_spect K X self audio_path (1, 1)%Q w1 = (Ok spect, w2) ->
  (exists y sample_rate raw wa wb t,
     audio_to_stft K X self y sample_rate wa = (Ok raw, wb)
     /\ normalize_audio K self raw wb = (Ok spect, w2)
     /\ spect = FloatTensor t)
  /\ parse_audio K X self audio_path w
     = finish K self spect (stored cache_fn spect w2)
  /\ fs (snd (parse_audio K X self audio_path w)) !! cache_key cache_fn
     = Some (cache_entry spect)
  /\ (forall wh,
        fs wh !! cache_key cache_fn = Some (cache_entry spect) ->
        read_cache K X cache_fn wh = (Ok (Some spect), wh))
  /\ (forall audio_path' w' tempo_id' w0' cache_fn' cached w1',
        choose_tempo K self w' = (Ok tempo_id', w0') ->
        load_audio_cache K X self audio_path' tempo_id' w0'
          = (Ok (cache_fn', Some cached), w1') ->
        parse_audio K X self audio_path' w' = finish K self cached w1'
        /\ (augment self && norm_is (normalize self) "max_frame" = false ->
            parse_audio K X self audio_path' w' = (Ok cached, w1'))).
Proof.
  intros Hsig Ht Hl Hc.
  destruct (parse_audio_miss_at_tempo_0 self audio_path w w0 cache_fn w1
              spect w2 Hsig Ht Hl Hc) as (Hout & _ & Hfs).
  split; [|split; [done|split; [done|split]]].
  - destruct (compute_spect_inv _ _ _ _ _ _ Hc) as (y & sr & raw & wa & wb & Hs & Hn).
    destruct (normalize_audio_tensor _ _ _ _ _ Hn) as (t & -> & _).
    eauto 10.
  - intros wh. apply read_cache_hit.
  - intros p' w' tid' w0' cfn' cached w1' Ht' Hl'.
    pose proof (parse_audio_hit _ _ _ _ _ _ _ _ Ht' Hl') as Hhit.
    split; [done|]. intros Hplain. by rewrite Hhit, finish_plain.
Qed.

(** C10: once the cache file has been located and is present, a read of it
    that raises any [Exception] is reported with a message and a
    traceback; [load_audio_cache] returns the path with no spectrogram,
    and [parse_audio] goes on to recompute instead of raising. *)
Theorem cache_read_error_is_a_miss self audio_path w tempo_id w0 tempo_name
    tempo_range cache_fn w1 (d : fdata F) e :
  choose_tempo K self w = (Ok tempo_id, w0) ->
  TEMPOS tempo_id = Some (tempo_name, tempo_range) ->
  locate_cache K X self audio_path tempo_name w0 = (Ok cache_fn, w1) ->
  fs w1 !! cache_key cache_fn = Some d ->
  np_load_spect K X (path_str cache_fn) w1 = (Raise e, w1) ->
  is_Exception e = true ->
  let w2 :=
    log_event ETraceback
      (log_event (EPrintExc ("Can't load file " ++ path_str cache_fn
                               ++ " with exception:") e) w1) in
  load_audio_cache K X self audio_path tempo_id w0 = (Ok (cache_fn, None), w2)
  /\ parse_audio K X self audio_path w
     = bind (recompute K X self audio_path tempo_id cache_fn) (finish K self) w2.
Proof.
  intros Ht HT Hloc Hfile Hload Hexc w2.
  assert (Hl : load_audio_cache K X self audio_path tempo_id w0
               = (Ok (cache_fn, None), w2)).
  { unfold load_audio_cache. rewrite HT.
    rewrite (bind_ok _ _ _ _ _ Hloc).
    erewrite bind_ok; [done|].
    apply read_cache_error; [|done..].
    unfold path_exists, gets. fold (cache_key cache_fn). rewrite Hfile.
    by rewrite bool_decide_eq_true_2 by eauto. }
  split; [done|]. by apply (parse_audio_miss _ _ _ _ w0).
Qed.

End CacheClaims.


(** ** The decode-augment stage *)

Section AugmentClaims.
Context (K : numlib) (X : extlib K).
Abbreviation F := (num K).
Implicit Types (w : world F).

Lemma load_audio_events path channel w :
  events (snd (load_audio K X path channel w)) = events w.
Proof.
  unfold load_audio, bind, read_bytes, lift, ret, raise.
  repeat case_match; simplify_eq; done.
Qed.

(** Whatever the tempo range, [load_randomly_augmented_audio] draws the
    gain from NumPy's process-level generator and passes it to sox: the
    one command it runs carries the tempo made of the first draw and the
    gain made of the second. *)
Lemma load_randomly_augmented_audio_command path sample_rate lo hi glo ghi
    channel w :
  let u1 := fst (rng_double (np_random w)) in
  let u2 := fst (rng_double (snd (rng_double (np_random w)))) in
  events (snd (load_randomly_augmented_audio K X path sample_rate (lo, hi)
                 (glo, ghi) channel w))
  = events w
      ++ [ESystem (sox_augment_command path sample_rate
                     (mktemp X ".wav" (fs w))
                     (lo + (hi - lo) * u1)%Q (glo + (ghi - glo) * u2)%Q channel)].
Proof.
  intros u1 u2. subst u1 u2.
  unfold load_randomly_augmented_audio, np_uniform, np_rand, bind, ret.
  destruct (rng_double (np_random w)) as [u1 g1] eqn:E1.
  cbn [np_random set_np_random fst snd].
  destruct (rng_double g1) as [u2 g2] eqn:E2. cbn [fst snd].
  unfold augment_audio_with_sox, with_tempfile, run_system, emit, modify, bind.
  cbn [fs set_np_random set_fs log_event].
  match goal with |- context [load_audio K X ?p ?c ?w0] =>
    pose proof (load_audio_events p c w0) as Hev;
    destruct (load_audio K X p c w0) as [[[y sr]|e] w'] end;
    cbn [snd events log_event set_fs] in Hev |- *.
  - unfold py_assert, ret, raise.
    repeat case_match; simplify_eq; cbn [snd events set_fs]; exact Hev.
  - exact Hev.
Qed.

End AugmentClaims.


(** ** The claims on a small file system

    One audio file, [/data/a.wav], holding the four bytes [RIFF], and the
    stand-in tools. *)

Definition toy_fs : files R := {[ "/data/a.wav" := FBytes riff ]}.

Definition toy_world : world R := world_of toy_fs (seeded_rng 3).

Definition toy_cache_fn : PurePath :=
  cache_file "/cache" "/data/a.wav" riff "1.0" (-1).

(** The world after the cache lookup, and after the recomputation *)
Definition toy_looked_up : world R :=
  snd (load_audio_cache real_numlib toy_tools plain_parser "/data/a.wav" 0 toy_world).

Definition toy_computed : world R :=
  snd (compute_spect real_numlib toy_tools plain_parser "/data/a.wav" (1, 1)%Q
         toy_looked_up).

(** The command the run hands to sox: tempo from the first draw of
    NumPy's generator, gain from the second *)
Definition toy_cmd : string :=
  let '(u1, g1) := rng_double (seeded_rng 3) in
  let '(u2, _) := rng_double g1 in
  sox_augment_command "/data/a.wav" 16000 "/tmp/audio.wav"
    (1 + (1 - 1) * u1)%Q (-(10) + (10 - -(10)) * u2)%Q (-1).

(** The decoded samples, the magnitude array [audio_to_stft] returns for
    them, and what [normalize_audio] makes of it *)
Definition toy_y : list R := map byte_sample (bytes_of_string toy_cmd).

Definition toy_raw : ndarray R :=
  mirrored 0%R (mk_ndarray 2 (length toy_y) (toy_y ++ toy_y)).

Definition toy_spect : spect_val R :=
  FloatTensor (nd_map real_numlib (fun x => ln (1 + x))%R toy_raw).

Lemma toy_lookup_misses :
  load_audio_cache real_numlib toy_tools plain_parser "/data/a.wav" 0 toy_world
  = (Ok (toy_cache_fn, None), toy_looked_up).
Proof. vm_compute. reflexivity. Qed.

Lemma toy_transform :
  fst (audio_to_stft real_numlib toy_tools plain_parser toy_y 16000 toy_world)
  = Ok toy_raw.
Proof. vm_compute. reflexivity. Qed.

Lemma toy_recomputation :
  compute_spect real_numlib toy_tools plain_parser "/data/a.wav" (1, 1)%Q
    toy_looked_up
  = (Ok toy_spect, toy_computed).
Proof. vm_compute. reflexivity. Qed.

Lemma cache_holds_normalized_spectrogram_witness :
  fs (snd (parse_audio real_numlib toy_tools plain_parser "/data/a.wav" toy_world))
    !! cache_key toy_cache_fn
  = Some (cache_entry (K:=real_numlib) toy_spect).
Proof.
  apply (cache_holds_normalized_spectrogram real_numlib toy_tools plain_parser
           "/data/a.wav" toy_world toy_world toy_cache_fn toy_looked_up
           toy_spect toy_computed eq_refl eq_refl toy_lookup_misses
           toy_recomputation).
Defined.

Lemma toy_run_cache_entry :
  fs (snd (parse_audio real_numlib toy_tools plain_parser "/data/a.wav" toy_world))
    !! cache_key toy_cache_fn
  = Some (cache_entry (K:=real_numlib) toy_spect).
Proof. vm_compute. reflexivity. Qed.

(** The logarithm moves every positive sample. *)
Lemma ln1p_moves (x : R) : (0 < x)%R -> ln (1 + x) <> x.
Proof.
  intros Hx Heq.
  assert (H1 : (1 + x < exp x)%R) by (apply exp_ineq1; lra).
  assert (H2 : (ln (1 + x) < ln (exp x))%R) by (apply ln_increasing; lra).
  rewrite ln_exp in H2. lra.
Qed.

Lemma map_moves {A} (f : A -> A) (l : list A) (i : nat) (x : A) :
  l !! i = Some x -> f x <> x -> map f l <> l.
Proof.
  intros Hi Hne Heq. apply (f_equal (fun k => k !! i)) in Heq.
  change (map f l) with (f <$> l) in Heq.
  rewrite list_lookup_fmap, Hi in Heq. cbn in Heq. congruence.
Qed.

(** C1, counterexample: the first run over [/data/a.wav].  The transform
    gives [toy_raw]; the file written under the cache name holds the
    tensor of [log1p] of it, not [toy_raw]: the sample 115 that opens the
    raw array is stored as [ln 116]. *)
Lemma cache_entry_is_not_raw_spectrogram :
  fst (audio_to_stft real_numlib toy_tools plain_parser toy_y 16000 toy_world)
    = Ok toy_raw
  /\ fs (snd (parse_audio real_numlib toy_tools plain_parser "/data/a.wav" toy_world))
       !! cache_key toy_cache_fn
     = Some (cache_entry (K:=real_numlib) (FloatTensor (nd_map real_numlib (fun x => ln (1 + x))%R toy_raw)))
  /\ nd_data toy_raw !! 0 = Some 115%R
  /\ nd_data (nd_map real_numlib (fun x => ln (1 + x))%R toy_raw) <> nd_data toy_raw
  /\ cache_entry (K:=real_numlib) (FloatTensor (nd_map real_numlib (fun x => ln (1 + x))%R toy_raw))
     <> cache_entry (K:=real_numlib) (NdArray toy_raw).
Proof.
  assert (Hhead : nd_data toy_raw !! 0 = Some 115%R) by (vm_compute; reflexivity).
  split; [exact toy_transform|].
  split; [exact toy_run_cache_entry|].
  split; [exact Hhead|]. split; [|discriminate].
  cbn [nd_map nd_data]. eapply map_moves; [exact Hhead|].
  apply ln1p_moves. lra.
Qed.

Lemma parse_audio_saves_on_miss_at_tempo_0_witness :
  saves (snd (parse_audio real_numlib toy_tools plain_parser "/data/a.wav" toy_world))
  = saves toy_world ++ [ESave (tmp_key toy_cache_fn)].
Proof.
  apply (proj1 (parse_audio_saves_on_miss_at_tempo_0 real_numlib toy_tools
                  plain_parser "/data/a.wav" toy_world 0 toy_world toy_cache_fn
                  None toy_looked_up eq_refl eq_refl toy_lookup_misses)
           toy_spect toy_computed toy_recomputation).
Defined.

(** An augmenting parser whose tempo draw gives variant 1, and a cache
    file of the old naming scheme for that variant *)
Definition augmenting_parser : SpectrogramParser :=
  mk_parser (1 # 100) (2 # 100) 16000 hamming (NormBool false) true (-1)
    "/cache" None None.

Definition slow_entry : spect_val R := FloatTensor (mk_ndarray 1 1 [0%R]).

Definition legacy_world : world R :=
  mk_world
    {[ "/data/a.wav" := FBytes riff;
       "/data/a.wav-0.9-avg.npy" := cache_entry (K:=real_numlib) slow_entry ]}
    ∅ (mk_rng (fun _ => 1%N) 0) (seeded_rng 3) (seeded_rng 2) [] None.

(** C6, counterexample: tempo variant 1 is drawn and a cache file for it
    exists.  [parse_audio] moves the file into the cache directory and
    returns its content; sox and the transform are never run, so the
    spectrogram of a tempo variant other than 0 is not recomputed on every
    call. *)
Lemma cached_slow_variant_is_not_recomputed :
  let out := parse_audio real_numlib toy_tools augmenting_parser "/data/a.wav"
               legacy_world in
  choose_tempo real_numlib augmenting_parser legacy_world
    = (Ok 1%Z, set_py_random (mk_rng (fun _ => 1%N) 1) legacy_world)
  /\ fst out = Ok slow_entry
  /\ events (snd out)
     = [EMkdir "/cache/6c";
        EPrint "Moving /data/a.wav-0.9-avg.npy to /cache/6c/a.wav.a0a12c2.0.9.avg.npy";
        EMove "/data/a.wav-0.9-avg.npy" "/cache/6c/a.wav.a0a12c2.0.9.avg.npy"]
  /\ fs (snd out) !! "/cache/6c/a.wav.a0a12c2.0.9.avg.npy"
     = Some (cache_entry (K:=real_numlib) slow_entry).
Proof. vm_compute. repeat split. Qed.

(** A cache file that no [np.save] wrote *)
Definition corrupt_world : world R :=
  world_of
    {[ "/data/a.wav" := FBytes riff;
       "/cache/6c/a.wav.a0a12c2.1.0.avg.npy" := FBytes (bytes_of_string "junk") ]}
    (seeded_rng 3).

Definition corrupt_located : world R :=
  snd (locate_cache real_numlib toy_tools plain_parser "/data/a.wav" "1.0"
         corrupt_world).

Lemma cache_read_error_is_a_miss_witness :
  load_audio_cache real_numlib toy_tools plain_parser "/data/a.wav" 0 corrupt_world
  = (Ok (toy_cache_fn, None),
     log_event ETraceback
       (log_event
          (EPrintExc "Can't load file /cache/6c/a.wav.a0a12c2.1.0.avg.npy with exception:"
             ValueError)
          corrupt_located))
  /\ parse_audio real_numlib toy_tools plain_parser "/data/a.wav" corrupt_world
     = bind (recompute real_numlib toy_tools plain_parser "/data/a.wav" 0 toy_cache_fn)
         (finish real_numlib plain_parser)
         (log_event ETraceback
            (log_event
               (EPrintExc "Can't load file /cache/6c/a.wav.a0a12c2.1.0.avg.npy with exception:"
                  ValueError)
               corrupt_located)).
Proof.
  apply (cache_read_error_is_a_miss real_numlib toy_tools plain_parser
           "/data/a.wav" corrupt_world 0 corrupt_world "1.0" (1, 1)%Q
           toy_cache_fn corrupt_located (FBytes (bytes_of_string "junk"))
           ValueError).
  - reflexivity.
  - reflexivity.
  - vm_compute. reflexivity.
  - vm_compute. reflexivity.
  - vm_compute. reflexivity.
  - reflexivity.
Defined.

(** After the failed read the file is recomputed and written afresh. *)
Example corrupt_cache_is_rewritten :
  let out := parse_audio real_numlib toy_tools plain_parser "/data/a.wav"
               corrupt_world in
  fst out = Ok toy_spect
  /\ fs (snd out) !! cache_key toy_cache_fn = Some (cache_entry (K:=real_numlib) toy_spect).
Proof. vm_compute. split; reflexivity. Qed.

(** The first run again, with a SIGINT arriving during the cache write *)
Definition interrupted_world (point : sigint_at) : world R :=
  mk_world toy_fs ∅ (seeded_rng 1) (seeded_rng 3) (seeded_rng 2) [] (Some point).

(** C3: a KeyboardInterrupt during the cache write of a first run.
    - While [np.save] is writing (three bytes written): the handler
      unlinks the cache file's name, which does not exist yet; the caller
      gets FileNotFoundError, and the truncated temporary file stays.
    - Between [np.save] and [os.rename]: the same, with the complete
      temporary file left behind.
    - After [os.rename]: the handler removes the complete cache file and
      [parse_audio] returns the spectrogram; the caller sees no
      interruption. *)
Theorem interrupted_cache_write :
  let run point :=
    parse_audio real_numlib toy_tools plain_parser "/data/a.wav"
      (interrupted_world point) in
  (fst (run (DuringSave 3)) = Raise FileNotFoundError
   /\ fs (snd (run (DuringSave 3))) !! tmp_key toy_cache_fn
      = Some (FBytes (bytes_of_string "NUM"))
   /\ fs (snd (run (DuringSave 3))) !! cache_key toy_cache_fn = None)
  /\ (fst (run BeforeRename) = Raise FileNotFoundError
      /\ fs (snd (run BeforeRename)) !! tmp_key toy_cache_fn
         = Some (cache_entry (K:=real_numlib) toy_spect)
      /\ fs (snd (run BeforeRename)) !! cache_key toy_cache_fn = None)
  /\ (fst (run AfterRename) = Ok toy_spect
      /\ fs (snd (run AfterRename)) !! cache_key toy_cache_fn = None
      /\ last (events (snd (run AfterRename)))
         = Some (EUnlink "/cache/6c/a.wav.a0a12c2.1.0.avg.npy")).
Proof. vm_compute. repeat split. Qed.

(** C2: two first runs over the same file that differ only in the state
    of NumPy's generator.  The parser does not augment and the tempo
    variant is 0, yet the commands handed to sox ask for gains of 9.076
    and -1.155 dB, and with a tool whose output depends on its arguments
    the spectrograms differ. *)
Theorem canonical_transform_draws_random_gain :
  let run seed :=
    compute_spect real_numlib toy_tools plain_parser "/data/a.wav" (1, 1)%Q
      (world_of toy_fs (seeded_rng seed)) in
  let command gain :=
    sox_augment_command "/data/a.wav" 16000 "/tmp/audio.wav" 1 gain (-1) in
  augment plain_parser = false
  /\ events (snd (run 3%Z)) = [ESystem (command (9076 # 1000)); EStft 320 160]
  /\ events (snd (run 4%Z)) = [ESystem (command (-1155 # 1000)); EStft 320 160]
  /\ command (9076 # 1000) <> command (-1155 # 1000)
  /\ fst (run 3%Z) <> fst (run 4%Z).
Proof.
  cbv zeta. split; [reflexivity|].
  split; [vm_compute; reflexivity|]. split; [vm_compute; reflexivity|].
  split; [vm_compute; discriminate|].
  intros Heq.
  apply (f_equal (fun r => match r with
                           | Ok (FloatTensor a) => nd_cols a
                           | _ => 0
                           end)) in Heq.
  vm_compute in Heq. discriminate.
Qed.


(** ** Claim about the collator *)


(** Three items of lengths 5, 3 and 8 with two frequency rows each *)
Definition ramp (rows cols : nat) (from : Z) : ndarray Z :=
  mk_ndarray rows cols (map (fun i => (from + Z.of_nat i)%Z) (seq 0 (rows * cols))).

Definition batch_5_3_8 : list (sample Z) :=
  [ mk_sample (ramp 2 5 100) [1; 2]%Z "five.wav";
    mk_sample (ramp 2 3 200) [3]%Z "three.wav";
    mk_sample (ramp 2 8 300) [4; 5; 6]%Z "eight.wav" ].


Example collate_5_3_8 :
  exists out,
    _collate_fn 0%Z batch_5_3_8 = Ok out
    /\ input_percentages out = [(8 # 8); (5 # 8); (3 # 8)]%Q
    /\ target_sizes out = [3; 2; 1]%Z
    /\ targets out = [4; 5; 6; 1; 2; 3]%Z
    /\ inputs out !! 2
       = Some [mk_ndarray 2 8 [200; 201; 202; 0; 0; 0; 0; 0;
                                203; 204; 205; 0; 0; 0; 0; 0]%Z].
Proof. vm_compute. eexists. repeat split. Qed.



(** ** Claims about the samplers *)


Lemma reference_randperm_Permutation seed n :
  reference_randperm seed n ≡ₚ seq 0 n.
Proof. apply shuffle_from_Permutation. Qed.

Definition four_bins : DistributedBucketingSampler.t :=
  DistributedBucketingSampler.mk 4 [0; 1; 2; 3] 1 [[0]; [1]; [2]; [3]] 2 0 2 4.



(** C8: with one bin and three replicas the bin list would have to be
    padded from one entry to three; [bins[:2]] supplies only one more, and
    the assertion in [__iter__] fails for every rank. *)
Theorem distributed_iter_padding_short (get_world_size get_rank rank : nat) :
  exists self,
    DistributedBucketingSampler.init get_world_size get_rank 1 1 (Some 3) (Some rank)
      = Ok self
    /\ DistributedBucketingSampler.bins self = [[0]]
    /\ DistributedBucketingSampler.total_size self = 3
    /\ DistributedBucketingSampler.iter self = Raise AssertionError.
Proof. eexists. repeat split. Qed.

(** The same sampler seen from another rank *)
Definition at_rank (self : DistributedBucketingSampler.t) (r : nat)
    : DistributedBucketingSampler.t :=
  DistributedBucketingSampler.mk
    (DistributedBucketingSampler.data_source_len self)
    (DistributedBucketingSampler.ids self)
    (DistributedBucketingSampler.batch_size self)
    (DistributedBucketingSampler.bins self)
    (DistributedBucketingSampler.num_replicas self) r
    (DistributedBucketingSampler.num_samples self)
    (DistributedBucketingSampler.total_size self).

(** Where one wrap-around suffices (at least half as many bins as the
    padded length), no bin is skipped: the bin at position [i] is yielded
    to rank [i mod R] as its item [i / R], and every rank below [R]
    yields [ceil(B / R)] bins, all of them bins of the sampler. *)
Lemma distributed_iter_coverage (get_world_size get_rank : nat)
    (n : nat) (batch_size : Z) (R rank : nat)
    (self : DistributedBucketingSampler.t) :
  DistributedBucketingSampler.init get_world_size get_rank n batch_size
    (Some R) (Some rank) = Ok self ->
  let B := length (DistributedBucketingSampler.bins self) in
  DistributedBucketingSampler.total_size self
    = DistributedBucketingSampler.ceil_div B R * R
  /\ (DistributedBucketingSampler.total_size self - B <= B ->
      (forall i b, DistributedBucketingSampler.bins self !! i = Some b ->
         exists out, DistributedBucketingSampler.iter (at_rank self (i mod R)) = Ok out
                     /\ out !! (i / R) = Some b)
      /\ (forall r, r < R ->
           exists out, DistributedBucketingSampler.iter (at_rank self r) = Ok out
                       /\ length out = DistributedBucketingSampler.ceil_div B R
                       /\ forall b, b ∈ out -> b ∈ DistributedBucketingSampler.bins self)).
Proof.
  unfold DistributedBucketingSampler.init. cbn [default from_option Datatypes.id].
  destruct (make_bins n batch_size) as [bins|e]; cbn [rbind]; [|done].
  destruct (Nat.eqb_spec R 0) as [->|HR]; [done|].
  intros Heq. injection Heq as Heq. subst self.
  cbn [DistributedBucketingSampler.bins
    DistributedBucketingSampler.total_size]. set (B := length bins).
  split; [done|]. intros Hpad.
  set (q := DistributedBucketingSampler.ceil_div B R) in *.
  assert (Hle : B <= q * R).
  { subst q. unfold DistributedBucketingSampler.ceil_div.
    pose proof (Nat.div_mod_eq (B + R - 1) R) as Hdm.
    pose proof (Nat.mod_upper_bound (B + R - 1) R HR). nia. }
  assert (Hiter : forall r,
    DistributedBucketingSampler.iter
      (at_rank (DistributedBucketingSampler.mk n (seq 0 n) batch_size bins R rank q (q * R)) r)
    = Ok (stride_slice (bins ++ take (q * R - B) bins) r R)).
  { intros r. rewrite iter_ok; done. }
  split.
  - intros i b Hi. rewrite Hiter. eexists. split; [done|].
    apply stride_slice_covers; [lia|]. by apply lookup_app_l_Some.
  - intros r Hr. rewrite Hiter. eexists. split; [done|]. split.
    + rewrite stride_slice_length by lia.
      rewrite length_app, length_take. fold B.
      destruct (decide (q = 0)) as [Hq|Hq].
      * rewrite Hq in *. rewrite Nat.div_small by lia. done.
      * replace (B + (q * R - B) `min` B - r + R - 1)
          with (q * R + (R - 1 - r)) by nia.
        rewrite Nat.div_add_l by done. rewrite Nat.div_small by lia. lia.
    + intros b Hb%stride_slice_elem_of.
      apply elem_of_app in Hb as [Hb|Hb]; [done|].
      apply elem_of_take in Hb as (i & Hi & _).
      by eapply list_elem_of_lookup_2.
Qed.

(** * Paths: parsing the string form of a path gives the path back *)

Lemma split_on_free_prefix (sep : ascii) (l l' cur : list ascii) :
  Forall (fun c => c <> sep) l ->
  split_on sep cur (l ++ l') = split_on sep (reverse l ++ cur) l'.
Proof.
  intros H. revert cur. induction H as [|c l Hc _ IH]; intros cur; [done|].
  cbn [app split_on]. destruct (Ascii.eqb_spec c sep) as [->|_]; [done|].
  rewrite IH, reverse_cons, <- app_assoc. done.
Qed.

Lemma chars_String c s : chars (String c s) = c :: chars s.
Proof. done. Qed.

Lemma split_on_join (parts : list string) (cur : list ascii) (x : string) :
  Forall slash_free (x :: parts) ->
  split_on "/" cur (chars (str_join "/" (x :: parts)))
  = string_of_list_ascii (reverse cur ++ chars x) :: parts.
Proof.
  revert cur x. induction parts as [|y parts IH]; intros cur x Hfree.
  - cbn [str_join]. apply Forall_cons in Hfree as [Hx _].
    by rewrite split_on_none.
  - apply Forall_cons in Hfree as [Hx Hrest].
    change (str_join "/" (x :: y :: parts))
      with (x ++ "/" ++ str_join "/" (y :: parts))%string.
    rewrite chars_app, split_on_free_prefix by done.
    change ("/" ++ str_join "/" (y :: parts))%string
      with (String "/" (str_join "/" (y :: parts))).
    rewrite chars_String. cbn [split_on]. rewrite Ascii.eqb_refl.
    rewrite reverse_app, reverse_involutive. f_equal.
    rewrite IH by done. cbn [reverse app].
    change (reverse [] ++ chars y) with (list_ascii_of_string y).
    by rewrite string_of_list_ascii_of_string.
Qed.

(** What [path_of_string] produces: components without [/], none empty
    or [.] *)
Definition path_wf (p : PurePath) : Prop :=
  Forall (fun s => slash_free s /\ keep_part s = true) (p_parts p).

Lemma path_of_string_wf (s : string) : path_wf (path_of_string s).
Proof.
  unfold path_wf, path_of_string. cbn [p_parts].
  pose proof (split_on_pieces "/" (list_ascii_of_string s) [] ltac:(constructor)) as H.
  apply Forall_forall. intros p [Hk Hp]%list_elem_of_filter.
  rewrite Forall_forall in H. split; [by apply H|done].
Qed.

Lemma path_join_wf (p q : PurePath) : path_wf p -> path_wf q -> path_wf (path_join p q).
Proof.
  unfold path_wf, path_join. intros Hp Hq. destruct (p_abs q); [done|].
  cbn [p_parts]. by apply Forall_app_2.
Qed.

Lemma path_parent_wf (p : PurePath) : path_wf p -> path_wf (path_parent p).
Proof.
  unfold path_wf, path_parent. cbn [p_parts]. intros H.
  induction H as [|x l Hx Hl IH]; [constructor|].
  destruct l; [constructor|]. cbn [removelast]. constructor; [done|]. apply IH.
Qed.

Lemma filter_keep_all (parts : list string) :
  Forall (fun s => slash_free s /\ keep_part s = true) parts ->
  filter (fun x => keep_part x = true) parts = parts.
Proof.
  intros H. induction H as [|x l [_ Hx] _ IH]; [done|].
  rewrite filter_cons, decide_True by done. by rewrite IH.
Qed.

Lemma path_of_string_str (p : PurePath) : path_wf p -> path_of_string (path_str p) = p.
Proof.
  destruct p as [abs parts]. unfold path_wf. cbn [p_parts]. intros Hwf.
  assert (Hfree : Forall slash_free parts)
    by (eapply Forall_impl; [exact Hwf|]; by intros ? [? _]).
  unfold path_str. cbn [p_abs p_parts].
  destruct abs, parts as [|x parts]; try done.
  - (* absolute, with components *)
    unfold path_of_string.
    change ("/" ++ str_join "/" (x :: parts))%string
      with (String "/" (str_join "/" (x :: parts))).
    cbn [list_ascii_of_string split_on]. rewrite Ascii.eqb_refl.
    fold (chars (str_join "/" (x :: parts))).
    rewrite split_on_join by done.
    change (reverse [] ++ chars x) with (list_ascii_of_string x).
    rewrite string_of_list_ascii_of_string.
    rewrite filter_cons, decide_False by done.
    by rewrite filter_keep_all.
  - (* relative, with components *)
    unfold path_of_string. f_equal.
    + apply Forall_cons in Hwf as [[Hx Hk] _].
      destruct x as [|c x]; [done|].
      assert (c <> "/"%char) as Hc by (by apply Forall_cons in Hx as [? _]).
      apply Ascii.eqb_neq in Hc.
      destruct parts; cbn [str_join]; [done|]. done.
    + fold (chars (str_join "/" (x :: parts))).
      rewrite split_on_join by done.
      change (reverse [] ++ chars x) with (list_ascii_of_string x).
      rewrite string_of_list_ascii_of_string. by rewrite filter_keep_all.
Qed.

(** The operating system's name of a file is its own name. *)
Lemma fs_key_idemp (s : string) : fs_key (fs_key s) = fs_key s.
Proof.
  unfold fs_key. by rewrite path_of_string_str by apply path_of_string_wf.
Qed.

Lemma fs_key_path_str (p : PurePath) : path_wf p -> fs_key (path_str p) = path_str p.
Proof. intros H. unfold fs_key. by rewrite path_of_string_str. Qed.

Lemma cache_file_wf cache_path audio_path content tempo_name channel :
  path_wf (cache_file cache_path audio_path content tempo_name channel).
Proof.
  unfold cache_file, Path3.
  repeat apply path_join_wf; apply path_of_string_wf.
Qed.

(** * Decoding: which samples [load_audio] returns *)

Section AudioExtras.
Context (K : numlib) (X : extlib K).
Abbreviation F := (num K).
Implicit Types (w : world F) (sound : ndarray F).

Lemma nd_transpose_row sound j :
  j < nd_cols sound ->
  nd_row (nd_transpose K sound) j
  = map (fun i => nth (i * nd_cols sound + j) (nd_data sound) (f_zero K))
        (seq 0 (nd_rows sound)).
Proof.
  intros Hj. unfold nd_row, nd_transpose. cbn [nd_cols nd_data].
  apply take_drop_concat.
  - apply Forall_forall. intros row (i & -> & _)%list_elem_of_fmap.
    by rewrite length_map, length_seq.
  - change (map ?f ?l) with (f <$> l).
    rewrite list_lookup_fmap, lookup_seq_lt by done. done.
Qed.

(** Column [c] of the transposed array is row [c] of the array. *)
Lemma nd_transpose_column sound c :
  nd_wf sound -> c < nd_rows sound ->
  map (fun row => nth c row (f_zero K)) (nd_to_rows (nd_transpose K sound))
  = nd_row sound c.
Proof.
  intros Hwf Hc. unfold nd_wf in Hwf. unfold nd_to_rows.
  change (nd_rows (nd_transpose K sound)) with (nd_cols sound).
  rewrite map_map.
  assert (Hlen : length (nd_row sound c) = nd_cols sound).
  { unfold nd_row. rewrite length_take, length_drop. nia. }
  apply list_eq. intros j.
  change (map ?f ?l) with (f <$> l). rewrite list_lookup_fmap.
  destruct (decide (j < nd_cols sound)) as [Hj|Hj].
  - rewrite lookup_seq_lt by done. cbn [fmap option_fmap option_map].
    rewrite nd_transpose_row by done.
    destruct (lookup_lt_is_Some_2 (nd_row sound c) j ltac:(lia)) as [x Hx].
    rewrite Hx. f_equal.
    erewrite (nth_lookup_Some _ c _ (nth (c * nd_cols sound + j) (nd_data sound) (f_zero K))).
    + unfold nd_row in Hx. rewrite lookup_take_lt, lookup_drop in Hx by done.
      by apply nth_lookup_Some.
    + change (map ?f ?l) with (f <$> l).
      rewrite list_lookup_fmap, lookup_seq_lt by done. done.
  - rewrite lookup_seq_ge by lia. symmetry. apply lookup_ge_None. lia.
Qed.

(** X6: [load_audio] on a file torchaudio decodes into a channels x
    frames tensor.  A single-channel file gives its samples whatever
    [channel] says; several channels with [channel = -1] give the
    per-frame mean; an index from [0] to [channels - 1] gives that
    channel's samples; a negative index from [-channels] to [-2] counts
    from the last channel; any other index but [-1] raises IndexError.  Nothing
    but the result is produced: the process state is left as it was. *)
Theorem load_audio_selects_channel path channel w bs sound sr :
  fs w !! fs_key path = Some (FBytes bs) ->
  torchaudio_load X bs = Ok (sound, sr) ->
  nd_wf sound ->
  let C := nd_rows sound in
  let out := load_audio K X path channel w in
  (C = 1 -> out = (Ok (nd_data sound, sr), w))
  /\ (C <> 1 -> channel = (-1)%Z ->
      out = (Ok (map (f_mean K) (nd_to_rows (nd_transpose K sound)), sr), w))
  /\ (C <> 1 -> (0 <= channel < Z.of_nat C)%Z ->
      out = (Ok (nd_row sound (Z.to_nat channel), sr), w))
  /\ (C <> 1 -> (- Z.of_nat C <= channel < -1)%Z ->
      out = (Ok (nd_row sound (Z.to_nat (Z.of_nat C + channel)), sr), w))
  /\ (C <> 1 -> channel <> (-1)%Z ->
      (channel < - Z.of_nat C \/ Z.of_nat C <= channel)%Z ->
      out = (Raise IndexError, w)).
Proof.
  intros Hfile Hload Hwf C out.
  assert (Hout : out =
    (let sound' := nd_transpose K sound in
     if nd_cols sound' =? 1 then ret (nd_data sound', sr)
     else if (channel =? -1)%Z then
       ret (map (f_mean K) (nd_to_rows sound'), sr)
     else match py_index (nd_cols sound') channel with
          | Some c => ret (map (fun row => nth c row (f_zero K)) (nd_to_rows sound'), sr)
          | None => raise IndexError
          end) w).
  { subst out. unfold load_audio, bind, read_bytes, lift. by rewrite Hfile, Hload. }
  cbv zeta in Hout. change (nd_cols (nd_transpose K sound)) with C in Hout.
  clearbody out. subst out.
  split; [|split; [|split; [|split]]].
  - intros HC. rewrite HC. cbn [Nat.eqb]. unfold ret. do 3 f_equal.
    unfold nd_wf in Hwf. fold C in Hwf. rewrite HC in Hwf.
    unfold nd_transpose. cbn [nd_data]. fold C. rewrite HC.
    cbn [seq map]. rewrite Nat.mul_1_l in Hwf. rewrite <- Hwf.
    rewrite <- (map_nth_seq (nd_data sound) (f_zero K)) at 2.
    generalize (seq 0 (length (nd_data sound))). intros l.
    induction l as [|j l IH]; [done|]. cbn [map concat app]. by rewrite IH.
  - intros HC ->. apply Nat.eqb_neq in HC as ->. done.
  - intros HC Hch. apply Nat.eqb_neq in HC as ->.
    assert ((channel =? -1)%Z = false) as -> by lia.
    unfold py_index.
    assert (((0 <=? channel) && (channel <? Z.of_nat C))%Z = true) as -> by lia.
    unfold ret. do 3 f_equal. apply nd_transpose_column; [done|unfold C in *; lia].
  - intros HC Hch. apply Nat.eqb_neq in HC as ->.
    assert ((channel =? -1)%Z = false) as -> by lia.
    unfold py_index.
    assert (((0 <=? channel) && (channel <? Z.of_nat C))%Z = false) as -> by lia.
    assert (((- Z.of_nat C <=? channel) && (channel <? 0))%Z = true) as -> by lia.
    unfold ret. do 3 f_equal. apply nd_transpose_column; [done|unfold C in *; lia].
  - intros HC Hne Hch. apply Nat.eqb_neq in HC as ->.
    assert ((channel =? -1)%Z = false) as -> by lia.
    unfold py_index.
    assert (((0 <=? channel) && (channel <? Z.of_nat C))%Z = false) as -> by lia.
    assert (((- Z.of_nat C <=? channel) && (channel <? 0))%Z = false) as -> by lia.
    done.
Qed.

End AudioExtras.

(** A decoder for two-channel files: the first half of the bytes is the
    left channel, the second half the right one. *)
Definition stereo_tools : extlib real_numlib :=
  mk_extlib real_numlib
    (fun bs => Ok (mk_ndarray 2 (length bs / 2)
                     (map byte_sample (take (2 * (length bs / 2)) bs)),
                   16000%Z))
    (os_system toy_tools) (check_output toy_tools) (py_float toy_tools)
    (py_str_float toy_tools) (mktemp toy_tools) (find_files toy_tools)
    (stft_magnitude toy_tools) (np_save_bytes toy_tools)
    (np_load_bytes toy_tools).

Definition stereo_riff : ndarray R := mk_ndarray 2 2 [82; 73; 70; 70]%R.

Lemma load_audio_selects_channel_witness :
  load_audio real_numlib stereo_tools "/data/a.wav" 1 toy_world
  = (Ok (nd_row stereo_riff 1, 16000%Z), toy_world).
Proof.
  refine (proj1 (proj2 (proj2
            (load_audio_selects_channel real_numlib stereo_tools "/data/a.wav"
               1 toy_world riff stereo_riff 16000%Z _ _ _))) _ _).
  - vm_compute. reflexivity.
  - vm_compute. reflexivity.
  - reflexivity.
  - cbn. lia.
  - cbn. lia.
Defined.

(** * Noise injection *)

Section NoiseExtras.
Context (K : numlib) (X : extlib K).
Abbreviation F := (num K).
Implicit Types (w : world F) (data : list F) (self : NoiseInjection).

Lemma np_rand_events w : events (snd (np_rand K w)) = events w.
Proof. unfold np_rand. by destruct (rng_double _). Qed.

Lemma audio_with_sox_events path sample_rate t0 t1 w :
  exists cmd,
    events (snd (audio_with_sox K X path sample_rate t0 t1 w))
    = events w ++ [ESystem cmd].
Proof.
  eexists. unfold audio_with_sox, with_tempfile, run_system, emit, modify, bind.
  cbn [fs set_fs log_event].
  match goal with |- context [load_audio K X ?p ?c ?w0] =>
    pose proof (load_audio_events K X p c w0) as Hev;
    destruct (load_audio K X p c w0) as [[[y sr]|e] w'] end;
    cbn [snd events log_event set_fs] in Hev |- *.
  - unfold py_assert, ret, raise.
    repeat case_match; simplify_eq; cbn [snd events set_fs]; exact Hev.
  - exact Hev.
Qed.


(** X8: a noise directory that exists but holds no audio file is
    accepted by the constructor, which changes nothing; every later
    [inject_noise] then raises ValueError (from [np.random.choice])
    before any generator is advanced or any command run. *)
Theorem empty_noise_dir_fails_on_use path sample_rate noise_levels w :
  path_exists path w = (Ok true, w) ->
  find_files X path (fs w) = [] ->
  exists self,
    NoiseInjection_init K X path sample_rate noise_levels w = (Ok self, w)
    /\ forall data w', inject_noise K X self data w' = (Raise ValueError, w').
Proof.
  intros Hex Hfiles. eexists. split.
  - unfold NoiseInjection_init. rewrite (bind_ok _ _ _ _ _ Hex).
    cbn [negb]. unfold bind, gets, ret. by rewrite Hfiles.
  - done.
Qed.

End NoiseExtras.

(** An injector with one noise file, and a signal of 104 samples *)
Definition hum : NoiseInjection := mk_noise ["/noise/hum.wav"] 16000 (0, 1 # 2)%Q.

Definition hummed : result (list R) * world R :=
  inject_noise real_numlib toy_tools hum (replicate 104 1%R) toy_world.

Definition hummed_signal : list R :=
  match fst hummed with Ok out => out | Raise _ => [] end.


(** A process whose noise directory exists and is empty *)
Definition quiet_room : world R :=
  mk_world toy_fs {[ "/noise" ]} (seeded_rng 1) (seeded_rng 3) (seeded_rng 2) [] None.

Lemma empty_noise_dir_fails_on_use_witness :
  exists self,
    NoiseInjection_init real_numlib toy_tools "/noise" 16000 (0, 1 # 2)%Q quiet_room
      = (Ok self, quiet_room)
    /\ forall data w', inject_noise real_numlib toy_tools self data w'
                       = (Raise ValueError, w').
Proof.
  apply (empty_noise_dir_fails_on_use real_numlib toy_tools "/noise" 16000
           (0, 1 # 2)%Q quiet_room).
  - vm_compute. reflexivity.
  - reflexivity.
Defined.

(** * Normalisation modes and the tempo variant *)

Section ParserExtras.
Context (K : numlib) (X : extlib K).
Abbreviation F := (num K).
Implicit Types (w : world F) (self : SpectrogramParser) (spect : ndarray F).


(** X10: [choose_tempo] always yields a key of [TEMPOS].  Without
    augmentation it is 0 and no generator is used; with augmentation it
    is 0, 1 or 2, decided by one draw from Python's [random], the other
    generators being left alone. *)
Theorem choose_tempo_in_TEMPOS self w :
  exists tempo_id w',
    choose_tempo K self w = (Ok tempo_id, w')
    /\ (0 <= tempo_id <= 2)%Z
    /\ is_Some (TEMPOS tempo_id)
    /\ (augment self = false -> tempo_id = 0%Z /\ w' = w)
    /\ (augment self = true ->
        w' = set_py_random (snd (rng_next (py_random w))) w).
Proof.
  unfold choose_tempo. destruct (augment self).
  - unfold random_randrange, rng_below.
    destruct (rng_next (py_random w)) as [x g] eqn:Hx.
    eexists _, _. split; [done|].
    pose proof (N.mod_upper_bound x (N.of_nat 3) ltac:(done)) as Hlt.
    set (i := N.to_nat (x mod N.of_nat 3)) in *.
    assert (Hi : i < 3) by lia.
    split; [lia|]. split; [|by split].
    destruct i as [|[|[|]]]; try lia; by eexists.
  - eexists _, _. split; [done|]. split; [lia|]. split; [by eexists|by split].
Qed.

End ParserExtras.


(** * Frame sizes and centring *)

Lemma py_int_floor (q : Q) : (0 <= q)%Q -> py_int q = Qfloor q.
Proof.
  destruct q as [a b]. unfold Qle, py_int, Qfloor. cbn. intros Ha.
  apply Z.quot_div_nonneg; lia.
Qed.

(** [int(sample_rate * (seconds + 1e-8))] is the exact product whenever
    that product is a whole number. *)
Lemma py_int_with_epsilon (sample_rate n : Z) (seconds : Q) :
  (0 <= sample_rate < 100000000)%Z -> (0 <= n)%Z ->
  (inject_Z sample_rate * seconds == inject_Z n)%Q ->
  py_int (inject_Z sample_rate * (seconds + (1 # 100000000)))%Q = n.
Proof.
  intros Hsr Hn Hexact.
  set (q := (inject_Z sample_rate * (seconds + (1 # 100000000)))%Q).
  assert (Hq : (q == inject_Z n + inject_Z sample_rate * (1 # 100000000))%Q).
  { subst q. rewrite <- Hexact. ring. }
  assert (Heps0 : (0 <= inject_Z sample_rate * (1 # 100000000))%Q).
  { unfold Qle. cbn [Qnum Qden Qmult inject_Z]. lia. }
  assert (Heps1 : (inject_Z sample_rate * (1 # 100000000) < 1)%Q).
  { unfold Qlt. cbn [Qnum Qden Qmult inject_Z]. lia. }
  assert (Hn0 : (0 <= inject_Z n)%Q) by (rewrite <- (Zle_Qle 0); lia).
  assert (Hlow : (inject_Z n <= q)%Q).
  { rewrite Hq. rewrite <- (Qplus_0_r (inject_Z n)) at 1.
    by apply Qplus_le_r. }
  rewrite py_int_floor by (by apply (Qle_trans _ (inject_Z n))).
  apply Z.le_antisymm.
  - apply Z.lt_succ_r. rewrite Zlt_Qlt.
    eapply Qle_lt_trans; [apply Qfloor_le|].
    rewrite Hq. unfold Z.succ. rewrite inject_Z_plus.
    by apply Qplus_lt_r.
  - rewrite <- (Qfloor_Z n). by apply Qfloor_resp_le.
Qed.

Section FrameSizes.
Context (K : numlib) (X : extlib K).


End FrameSizes.


Lemma real_sum_shift (l : list R) (c : R) :
  real_sum (map (fun x => x + c)%R l) = (real_sum l + INR (length l) * c)%R.
Proof.
  unfold real_sum. induction l as [|x l IH]; cbn [map fold_right length].
  - cbn [INR]. lra.
  - rewrite IH, S_INR. lra.
Qed.

(** X25: in exact arithmetic, normalisation mode [mean] centres the
    spectrogram: every element of the returned tensor is [log1p] of the
    input element minus the mean of all [log1p] values, and the mean of
    the returned tensor is zero. *)
Theorem normalize_mean_centres (self : SpectrogramParser) (spect : ndarray R)
    (w : world R) :
  normalize self = NormStr "mean" ->
  nd_data spect <> [] ->
  let logs := map (fun x => ln (1 + x))%R (nd_data spect) in
  exists t,
    normalize_audio real_numlib self spect w = (Ok (FloatTensor t), w)
    /\ nd_data t = map (fun v => v - real_mean logs)%R logs
    /\ real_mean (nd_data t) = 0%R.
Proof.
  intros Hmode Hne logs. unfold normalize_audio. rewrite Hmode.
  cbn [norm_is String.eqb Ascii.eqb Bool.eqb andb].
  eexists. split; [reflexivity|].
  cbn [add_scalar nd_map nd_data f_add f_neg f_log1p f_mean real_numlib].
  fold logs. split; [done|].
  unfold real_mean at 1. rewrite length_map.
  change (fun x : R => (x + - real_mean logs)%R)
    with (fun x : R => (x + (- real_mean logs))%R).
  rewrite real_sum_shift. unfold real_mean.
  assert (Hlen : INR (length logs) <> 0%R).
  { apply not_0_INR. subst logs. rewrite length_map.
    destruct (nd_data spect); [done|]. cbn. lia. }
  field. done.
Qed.

Lemma normalize_mean_centres_witness :
  let self := mk_parser (1 # 100) (2 # 100) 16000 hamming (NormStr "mean") false
                (-1) "/cache" None None in
  let logs := map (fun x => ln (1 + x))%R [0; 1; 2; 3]%R in
  exists t,
    normalize_audio real_numlib self (mk_ndarray 2 2 [0; 1; 2; 3]%R) toy_world
      = (Ok (FloatTensor t), toy_world)
    /\ nd_data t = map (fun v => v - real_mean logs)%R logs
    /\ real_mean (nd_data t) = 0%R.
Proof.
  apply (normalize_mean_centres
           (mk_parser (1 # 100) (2 # 100) 16000 hamming (NormStr "mean") false
              (-1) "/cache" None None)
           (mk_ndarray 2 2 [0; 1; 2; 3]%R) toy_world).
  - reflexivity.
  - discriminate.
Defined.

(** * The cache across calls *)

Section CacheExtras.
Context (K : numlib) (X : extlib K).
Abbreviation F := (num K).
Implicit Types (w : world F) (self : SpectrogramParser) (spect : spect_val F)
  (cache_fn : PurePath) (d : fdata F).

(** What [read_bytes] returns for a file *)
Definition file_bytes d : list byte :=
  match d with FBytes bs => bs | FNpy o => np_save_bytes X o end.

(** [os.path.exists] *)
Definition exists_b (p : string) w : bool :=
  bool_decide (is_Some (fs w !! fs_key p)) || bool_decide (fs_key p ∈ dirs w).

(** The process after [p.mkdir(parents=True, exist_ok=True)] *)
Definition made (p : PurePath) w : world F :=
  log_event (EMkdir (path_str p))
    (set_dirs (fun ds =>
       ds ∪ list_to_set (map (fun n => path_str (mk_path (p_abs p) (take n (p_parts p))))
                            (seq 1 (length (p_parts p))))) w).

(** The process after [shutil.move] of the old cache file *)
Definition migrated (old : string) cache_fn d w : world F :=
  log_event (EMove (fs_key old) (cache_key cache_fn))
    (set_fs (fun f => <[cache_key cache_fn := d]> (delete (fs_key old) f))
       (log_event (EPrint ("Moving " ++ old ++ " to " ++ path_str cache_fn)) w)).

Definition old_cache_name self (audio_path tempo_name : string) : string :=
  (audio_path ++ "-" ++ tempo_name ++ "-" ++ chan_name (channel self) ++ ".npy")%string.

Lemma read_bytes_audio (audio_path : string) w :
  read_bytes K X (path_str (path_of_string audio_path)) w
  = (match fs w !! fs_key audio_path with
     | Some d => Ok (file_bytes d)
     | None => Raise FileNotFoundError
     end, w).
Proof.
  unfold read_bytes. fold (fs_key audio_path). rewrite fs_key_idemp.
  by destruct (fs w !! fs_key audio_path) as [[]|].
Qed.

Lemma exists_b_made p q w : exists_b p w = true -> exists_b p (made q w) = true.
Proof.
  unfold exists_b, made. cbn [fs dirs log_event set_dirs].
  intros [H|H]%orb_true_iff; apply orb_true_iff; [by left|right].
  apply bool_decide_eq_true. apply bool_decide_eq_true in H.
  apply elem_of_union. by left.
Qed.

Lemma locate_cache_missing self audio_path tempo_name w :
  fs w !! fs_key audio_path = None ->
  locate_cache K X self audio_path tempo_name w = (Raise FileNotFoundError, w).
Proof.
  intros Hfile. unfold locate_cache. apply bind_raise.
  by rewrite read_bytes_audio, Hfile.
Qed.

Lemma locate_cache_present self audio_path tempo_name w d :
  fs w !! fs_key audio_path = Some d ->
  let cache_fn :=
    cache_file (cache_path self) audio_path (file_bytes d) tempo_name (channel self) in
  exists_b (path_str cache_fn) (made (path_parent cache_fn) w) = true ->
  locate_cache K X self audio_path tempo_name w
  = (Ok cache_fn, made (path_parent cache_fn) w).
Proof.
  intros Hfile cache_fn Hnew. unfold locate_cache.
  erewrite bind_ok; [|by rewrite read_bytes_audio, Hfile].
  fold cache_fn.
  erewrite bind_ok; [|reflexivity].
  unfold path_exists at 1. erewrite bind_ok; [|reflexivity].
  unfold path_exists at 1. erewrite bind_ok; [|reflexivity].
  fold (made (path_parent cache_fn) w).
  fold (exists_b (path_str cache_fn) (made (path_parent cache_fn) w)).
  rewrite Hnew. rewrite andb_false_r. done.
Qed.

Lemma locate_cache_migrates self audio_path tempo_name w d d_old :
  fs w !! fs_key audio_path = Some d ->
  let cache_fn :=
    cache_file (cache_path self) audio_path (file_bytes d) tempo_name (channel self) in
  let old := old_cache_name self audio_path tempo_name in
  fs w !! fs_key old = Some d_old ->
  exists_b (path_str cache_fn) (made (path_parent cache_fn) w) = false ->
  locate_cache K X self audio_path tempo_name w
  = (Ok cache_fn, migrated old cache_fn d_old (made (path_parent cache_fn) w)).
Proof.
  intros Hfile cache_fn old Hold Hnew. unfold locate_cache.
  erewrite bind_ok; [|by rewrite read_bytes_audio, Hfile].
  fold cache_fn. fold (old_cache_name self audio_path tempo_name). fold old.
  erewrite bind_ok; [|reflexivity].
  unfold path_exists at 1. erewrite bind_ok; [|reflexivity].
  unfold path_exists at 1. erewrite bind_ok; [|reflexivity].
  fold (made (path_parent cache_fn) w).
  fold (exists_b (path_str cache_fn) (made (path_parent cache_fn) w)).
  rewrite Hnew. cbn [negb]. rewrite andb_true_r.
  change (fs (made (path_parent cache_fn) w)) with (fs w).
  rewrite Hold. rewrite bool_decide_eq_true_2 by eauto. cbn [orb].
  unfold bind, print, emit, modify, move_file.
  cbn [fs log_event made set_dirs]. rewrite Hold. done.
Qed.

Lemma locate_cache_inv self audio_path tempo_name w cache_fn w1 :
  locate_cache K X self audio_path tempo_name w = (Ok cache_fn, w1) ->
  exists d, fs w !! fs_key audio_path = Some d
            /\ cache_fn = cache_file (cache_path self) audio_path (file_bytes d)
                            tempo_name (channel self).
Proof.
  unfold locate_cache. intros H.
  apply bind_ok_inv in H as (content & w0 & Hread & H).
  rewrite read_bytes_audio in Hread.
  destruct (fs w !! fs_key audio_path) as [d|]; [|done]. simplify_eq.
  exists d. split; [done|].
  apply bind_ok_inv in H as (u1 & wa & _ & H).
  apply bind_ok_inv in H as (b1 & wb & _ & H).
  apply bind_ok_inv in H as (b2 & wc & _ & H).
  apply bind_ok_inv in H as (u2 & wd & _ & H).
  unfold ret in H. by simplify_eq.
Qed.

Lemma read_cache_Some_inv cache_fn w spect w1 :
  read_cache K X cache_fn w = (Ok (Some spect), w1) ->
  w1 = w /\ exists_b (path_str cache_fn) w = true
  /\ np_load_spect K X (path_str cache_fn) w = (Ok (Some spect), w).
Proof.
  unfold read_cache, bind, path_exists, gets. fold (exists_b (path_str cache_fn) w).
  destruct (exists_b (path_str cache_fn) w); [|done].
  unfold try_except.
  destruct (np_load_spect K X (path_str cache_fn) w) as [[v|e] w2] eqn:Hload.
  - intros ?. simplify_eq.
    pose proof (np_load_spect_world _ _ _ _ _ _ Hload). by subst.
  - destruct (is_Exception e); [|done].
    unfold bind, emit, modify, ret. intros [=].
Qed.

Lemma np_load_spect_same_fs path w w' r :
  fs w' = fs w ->
  np_load_spect K X path w = (r, w) -> np_load_spect K X path w' = (r, w').
Proof.
  unfold np_load_spect, bind, np_load, lift. intros ->.
  repeat case_match; intros; simplify_eq; congruence.
Qed.

Lemma read_cache_of_load cache_fn w spect :
  exists_b (path_str cache_fn) w = true ->
  np_load_spect K X (path_str cache_fn) w = (Ok (Some spect), w) ->
  read_cache K X cache_fn w = (Ok (Some spect), w).
Proof.
  intros Hex Hload. unfold read_cache, bind, path_exists, gets.
  fold (exists_b (path_str cache_fn) w). rewrite Hex.
  unfold try_except. by rewrite Hload.
Qed.

Lemma choose_tempo_plain self w :
  augment self = false -> choose_tempo K self w = (Ok 0%Z, w).
Proof. unfold choose_tempo. by intros ->. Qed.

Lemma finish_unaugmented self spect w :
  augment self = false -> finish K self spect w = (Ok spect, w).
Proof. unfold finish. by intros ->. Qed.

(** A hit of a parser that does not augment: the cached value, read with
    nothing but the shard directory made on the way. *)
Lemma parse_audio_plain_hit self audio_path w d spect :
  augment self = false ->
  fs w !! fs_key audio_path = Some d ->
  let cache_fn :=
    cache_file (cache_path self) audio_path (file_bytes d) "1.0" (channel self) in
  exists_b (path_str cache_fn) w = true ->
  np_load_spect K X (path_str cache_fn) w = (Ok (Some spect), w) ->
  parse_audio K X self audio_path w
  = (Ok spect, made (path_parent cache_fn) w).
Proof.
  intros Haug Hfile cache_fn Hex Hload.
  unfold parse_audio.
  rewrite (bind_ok _ _ _ _ _ (choose_tempo_plain self w Haug)).
  erewrite bind_ok; cycle 1.
  { unfold load_audio_cache. cbn [TEMPOS].
    erewrite bind_ok; [|apply (locate_cache_present _ _ _ _ d Hfile);
                        by apply exists_b_made].
    erewrite bind_ok; [reflexivity|].
    apply read_cache_of_load; [by apply exists_b_made|].
    by apply (np_load_spect_same_fs _ w). }
  cbv beta iota. fold cache_fn. unfold bind at 1, ret at 1.
  by apply finish_unaugmented.
Qed.


Lemma load_audio_cache_missing self audio_path tempo_id w :
  fs w !! fs_key audio_path = None ->
  is_Some (TEMPOS tempo_id) ->
  load_audio_cache K X self audio_path tempo_id w = (Raise FileNotFoundError, w).
Proof.
  intros Hfile [[name range] HT]. unfold load_audio_cache. rewrite HT.
  apply bind_raise. by apply locate_cache_missing.
Qed.

Lemma TEMPOS_below_3 (i : nat) : i < 3 -> is_Some (TEMPOS (Z.of_nat i)).
Proof. intros Hi. destruct i as [|[|[|]]]; try lia; by eexists. Qed.

Lemma choose_tempo_frame self w :
  exists tempo_id w',
    choose_tempo K self w = (Ok tempo_id, w')
    /\ is_Some (TEMPOS tempo_id)
    /\ fs w' = fs w /\ dirs w' = dirs w /\ events w' = events w
    /\ np_random w' = np_random w.
Proof.
  unfold choose_tempo. destruct (augment self).
  - unfold random_randrange.
    destruct (rng_below 3 (py_random w)) as [i g] eqn:Hdraw.
    exists (Z.of_nat i), (set_py_random g w). split; [done|]. split; [|done].
    apply TEMPOS_below_3.
    unfold rng_below in Hdraw. destruct (rng_next (py_random w)) as [x g'].
    simplify_eq.
    pose proof (N.mod_upper_bound x (N.of_nat 3) ltac:(done)). lia.
  - exists 0%Z, w. split; [done|]. split; [by eexists|done].
Qed.

(** X12: asked for an audio file that does not exist, [parse_audio]
    raises FileNotFoundError (from hashing the file) before anything is
    created: no file, no directory and no log entry is added, whatever
    the parser's settings. *)
Theorem parse_audio_missing_file self audio_path w :
  fs w !! fs_key audio_path = None ->
  exists w',
    parse_audio K X self audio_path w = (Raise FileNotFoundError, w')
    /\ fs w' = fs w /\ dirs w' = dirs w /\ events w' = events w
    /\ np_random w' = np_random w.
Proof.
  intros Hfile.
  destruct (choose_tempo_frame self w)
    as (tempo_id & w0 & Ht & HT & Hfs & Hdirs & Hev & Hnp).
  exists w0. split; [|done].
  unfold parse_audio. rewrite (bind_ok _ _ _ _ _ Ht).
  apply bind_raise. apply load_audio_cache_missing; [congruence|done].
Qed.

Lemma path_str_inj (p q : PurePath) :
  path_wf p -> path_wf q -> path_str p = path_str q -> p = q.
Proof.
  intros Hp Hq Heq. apply (f_equal path_of_string) in Heq.
  by rewrite !path_of_string_str in Heq.
Qed.

(** The cache file is none of the directories made for it. *)
Lemma cache_file_not_made self audio_path content tempo_name w :
  slash_free tempo_name ->
  let cache_fn :=
    cache_file (cache_path self) audio_path content tempo_name (channel self) in
  fs w !! cache_key cache_fn = None ->
  cache_key cache_fn ∉ dirs w ->
  exists_b (path_str cache_fn) (made (path_parent cache_fn) w) = false.
Proof.
  intros Hfree cache_fn Hfile Hdir.
  pose proof (cache_file_wf (cache_path self) audio_path content tempo_name
                (channel self)) as Hwf. fold cache_fn in Hwf.
  pose proof (cache_file_parts (cache_path self) audio_path content tempo_name
                (channel self) Hfree) as Hparts. fold cache_fn in Hparts.
  unfold exists_b. fold (cache_key cache_fn).
  change (fs (made (path_parent cache_fn) w)) with (fs w). rewrite Hfile.
  rewrite bool_decide_eq_false_2 by (by intros [? ?]). cbn [orb].
  apply bool_decide_eq_false. unfold made. cbn [dirs log_event set_dirs].
  intros [Hin|Hin]%elem_of_union; [done|].
  apply elem_of_list_to_set in Hin.
  apply list_elem_of_fmap in Hin as (n & Heq & _).
  unfold cache_key in Heq. rewrite fs_key_path_str in Heq by done.
  apply path_str_inj in Heq; [|done|].
  - apply (f_equal (fun p => length (p_parts p))) in Heq.
    cbn [p_parts path_parent p_abs] in Heq.
    rewrite length_take in Heq. rewrite Hparts in Heq. cbn [p_parts] in Heq.
    rewrite removelast_last, !length_app in Heq. cbn [length] in Heq. lia.
  - unfold path_wf. cbn [p_parts]. apply Forall_take.
    by apply path_parent_wf.
Qed.

(** X13: a cache file of the old naming scheme
    ([<audio path>-<tempo>-<channel>.npy], next to the audio file) is
    adopted: when the new cache file does not exist yet,
    [load_audio_cache] makes the shard directory, moves the old file to
    the new name (the old name is gone afterwards) and returns the
    spectrogram stored in it, for every tempo variant. *)
Theorem load_audio_cache_adopts_old_file self audio_path tempo_id tempo_name
    tempo_range w d spect :
  TEMPOS tempo_id = Some (tempo_name, tempo_range) ->
  fs w !! fs_key audio_path = Some d ->
  let cache_fn :=
    cache_file (cache_path self) audio_path (file_bytes d) tempo_name (channel self) in
  let old := old_cache_name self audio_path tempo_name in
  fs w !! fs_key old = Some (cache_entry spect) ->
  fs w !! cache_key cache_fn = None ->
  cache_key cache_fn ∉ dirs w ->
  exists w',
    load_audio_cache K X self audio_path tempo_id w = (Ok (cache_fn, Some spect), w')
    /\ fs w' = <[cache_key cache_fn := cache_entry spect]> (delete (fs_key old) (fs w))
    /\ events w'
       = events w
           ++ [EMkdir (path_str (path_parent cache_fn));
               EPrint ("Moving " ++ old ++ " to " ++ path_str cache_fn);
               EMove (fs_key old) (cache_key cache_fn)].
Proof.
  intros HT Hfile cache_fn old Hold Hnew Hdir.
  pose proof (TEMPOS_slash_free _ _ _ HT) as Hfree.
  pose proof (cache_file_not_made self audio_path (file_bytes d) tempo_name w
                Hfree Hnew Hdir) as Habsent.
  eexists. split; [|split].
  - unfold load_audio_cache. rewrite HT.
    erewrite bind_ok;
      [|by apply (locate_cache_migrates self audio_path tempo_name w d
                    (cache_entry spect))].
    fold cache_fn old.
    erewrite bind_ok; [reflexivity|].
    apply read_cache_hit. unfold migrated. cbn [fs log_event set_fs].
    apply lookup_insert_eq.
  - done.
  - unfold migrated, made. cbn [events log_event set_fs set_dirs].
    by rewrite <- !app_assoc.
Qed.

(** X14: whenever the recomputation of lines 162-175 returns, what it
    returns is a Torch tensor with 161 frequency rows, for every
    normalisation mode, tempo range and noise setting. *)
Theorem compute_spect_is_161_row_tensor self audio_path tempo_range w spect w' :
  compute_spect K X self audio_path tempo_range w = (Ok spect, w') ->
  exists t, spect = FloatTensor t /\ nd_rows t = 161.
Proof.
  intros H.
  destruct (compute_spect_inv K X _ _ _ _ _ _ H)
    as (y & sr & raw & wa & wb & Hstft & Hnorm).
  destruct (normalize_audio_tensor K _ _ _ _ _ Hnorm) as (t & -> & Hrows & _).
  exists t. split; [done|]. rewrite Hrows.
  unfold audio_to_stft in Hstft.
  apply bind_ok_inv in Hstft as (u & w1 & _ & Hstft).
  apply bind_ok_inv in Hstft as (m & w2 & _ & Hfit).
  unfold lift in Hfit.
  destruct (decide (nd_rows m < 161)) as [Hlt|Hge].
  - rewrite fit_freq_bins_small in Hfit by done. by simplify_eq.
  - rewrite fit_freq_bins_large in Hfit by lia. simplify_eq.
    cbn [nd_slice_to nd_rows]. lia.
Qed.

End CacheExtras.

(** * How the cache write can end *)

Section StoreExtras.
Context (K : numlib) (X : extlib K).
Implicit Types (w : world (num K)) (cache_fn : PurePath) (spect : spect_val (num K)).

Ltac run_store :=
  unfold store_in_cache, try_except, np_save, os_rename, bind, deliver_sigint,
    write_file, emit, modify, move_file, os_unlink;
  cbn [sigint set_fs log_event fs dirs py_random np_random torch_random events
       clear_sigint is_KeyboardInterrupt fst snd];
  rewrite ?lookup_insert_eq;
  cbn [sigint set_fs log_event fs dirs py_random np_random torch_random events
       clear_sigint is_KeyboardInterrupt fst snd].


End StoreExtras.

(** ** The cache across calls, on the small file system *)

(** The process after a first run over [/data/a.wav] *)
Definition toy_after : world R :=
  snd (parse_audio real_numlib toy_tools plain_parser "/data/a.wav" toy_world).


Lemma parse_audio_missing_file_witness :
  exists w',
    parse_audio real_numlib toy_tools augmenting_parser "/data/b.wav" toy_world
      = (Raise FileNotFoundError, w')
    /\ fs w' = fs toy_world /\ dirs w' = dirs toy_world
    /\ events w' = events toy_world /\ np_random w' = np_random toy_world.
Proof.
  apply (parse_audio_missing_file real_numlib toy_tools augmenting_parser
           "/data/b.wav" toy_world).
  vm_compute. reflexivity.
Defined.

Definition slow_cache_fn : PurePath := cache_file "/cache" "/data/a.wav" riff "0.9" (-1).

Lemma load_audio_cache_adopts_old_file_witness :
  exists w',
    load_audio_cache real_numlib toy_tools augmenting_parser "/data/a.wav" 1
        legacy_world
      = (Ok (slow_cache_fn, Some slow_entry), w')
    /\ fs w' = <[cache_key slow_cache_fn := cache_entry (K:=real_numlib) slow_entry]>
                 (delete (fs_key (old_cache_name augmenting_parser
                                    "/data/a.wav" "0.9"))
                    (fs legacy_world))
    /\ events w'
       = events legacy_world
           ++ [EMkdir (path_str (path_parent slow_cache_fn));
               EPrint ("Moving "
                         ++ old_cache_name augmenting_parser
                              "/data/a.wav" "0.9"
                         ++ " to " ++ path_str slow_cache_fn);
               EMove (fs_key (old_cache_name augmenting_parser
                                "/data/a.wav" "0.9"))
                     (cache_key slow_cache_fn)].
Proof.
  apply (load_audio_cache_adopts_old_file real_numlib toy_tools
           augmenting_parser "/data/a.wav" 1 "0.9" (85 # 100, 95 # 100)%Q
           legacy_world (FBytes riff) slow_entry).
  - reflexivity.
  - vm_compute. reflexivity.
  - vm_compute. reflexivity.
  - vm_compute. reflexivity.
  - apply not_elem_of_empty.
Defined.

Lemma compute_spect_is_161_row_tensor_witness :
  exists t, toy_spect = FloatTensor t /\ nd_rows t = 161.
Proof.
  apply (compute_spect_is_161_row_tensor real_numlib toy_tools plain_parser
           "/data/a.wav" (1, 1)%Q toy_looked_up toy_spect toy_computed).
  vm_compute. reflexivity.
Defined.


(** * Further properties of the collator *)

(** X5: [_collate_fn] cannot batch nothing: the empty batch raises
    ValueError (from [max]), and a batch whose items all have zero time
    frames raises ZeroDivisionError, whatever their number and
    labels. *)
Theorem collate_fn_degenerate_batches {A : Type} (zero : A)
    (batch : list (sample A)) (F : nat) :
  _collate_fn zero [] = Raise ValueError
  /\ (batch <> [] ->
      Forall (fun s => seq_len s = 0 /\ nd_rows (s_tensor s) = F) batch ->
      _collate_fn zero batch = Raise ZeroDivisionError).
Proof.
  split; [done|]. intros Hne Hall.
  destruct (py_max_sorted batch Hne) as (x & l & Hsorted & Hmax & _ & _).
  pose proof (sorted_desc_Permutation batch) as Hp.
  assert (Hall' : Forall (fun s => seq_len s = 0 /\ nd_rows (s_tensor s) = F)
                    (sorted_desc batch)) by (by rewrite Hp).
  rewrite Hsorted in Hall'. apply Forall_cons in Hall' as [[Hx0 HxF] _].
  unfold _collate_fn. rewrite Hmax. cbn [rbind]. rewrite Hsorted.
  cbn [length seq collate_loop]. unfold collate_step. cbn [lookup list_lookup].
  change (nd_cols (s_tensor x)) with (seq_len x).
  rewrite (narrow_copy_fits zero (nd_rows (s_tensor x)) (seq_len x) x)
    by (split; [lia|by left]).
  cbn [rbind]. by rewrite Hx0.
Qed.

Lemma collate_fn_degenerate_batches_witness :
  _collate_fn 0%Z
    [mk_sample (mk_ndarray 2 0 []) [1]%Z "a.wav";
     mk_sample (mk_ndarray 2 0 []) []%Z "b.wav"]
  = Raise ZeroDivisionError.
Proof.
  apply (collate_fn_degenerate_batches 0%Z
           [mk_sample (mk_ndarray 2 0 []) [1]%Z "a.wav";
            mk_sample (mk_ndarray 2 0 []) []%Z "b.wav"] 2).
  - discriminate.
  - repeat constructor.
Defined.


(** * Further properties of the samplers *)

Lemma concat_chunks {A} (l : list A) (bs m : nat) :
  concat (map (fun k => take bs (drop (k * bs) l)) (seq 0 m)) = take (m * bs) l.
Proof.
  induction m as [|m IH]; [done|].
  rewrite seq_S, map_app, concat_app, IH. cbn [map concat Nat.add].
  rewrite app_nil_r, take_take_drop. f_equal. lia.
Qed.

Lemma make_bins_consecutive (n : nat) (batch_size : Z) :
  (0 < batch_size)%Z ->
  let bs := Z.to_nat batch_size in
  exists bins,
    make_bins n batch_size = Ok bins
    /\ length bins = (n + bs - 1) / bs
    /\ concat bins = seq 0 n
    /\ forall k b, bins !! k = Some b ->
         b = seq (k * bs) (bs `min` (n - k * bs)) /\ 0 < length b <= bs.
Proof.
  intros Hpos bs. unfold make_bins.
  destruct (Z.eqb_spec batch_size 0) as [?|_]; [lia|].
  destruct (Z.ltb_spec batch_size 0) as [?|_]; [lia|].
  fold bs. assert (Hbs : 0 < bs) by (subst bs; lia).
  set (m := (n + bs - 1) / bs).
  assert (Hm : n <= m * bs).
  { subst m. pose proof (Nat.div_mod_eq (n + bs - 1) bs) as Hdm.
    pose proof (Nat.mod_upper_bound (n + bs - 1) bs ltac:(lia)). nia. }
  assert (Hm' : forall k, k < m -> k * bs < n).
  { intros k Hk. subst m.
    pose proof (Nat.Div0.mul_div_le (n + bs - 1) bs) as Hd. nia. }
  eexists. split; [done|]. split; [by rewrite length_map, length_seq|]. split.
  - rewrite concat_chunks. apply take_ge. rewrite length_seq. lia.
  - intros k b Hk. change (map ?f ?l) with (f <$> l) in Hk.
    rewrite list_lookup_fmap in Hk.
    destruct (seq 0 m !! k) as [k'|] eqn:Hseq; [|done].
    apply lookup_seq in Hseq as [-> Hlt]. cbn in Hk. injection Hk as <-.
    rewrite drop_seq, take_seq. cbn [Nat.add].
    split; [done|]. rewrite length_seq. specialize (Hm' k Hlt). lia.
Qed.

(** X1: for a positive batch size the bins built by the samplers'
    constructors split [0..n) into consecutive runs: bin [k] holds the
    indices from [k * batch_size] on, [batch_size] of them or as many as
    are left; there are [ceil(n / batch_size)] bins, none of them empty,
    and together, in order, they are exactly [0, 1, ..., n-1]. *)
Theorem make_bins_partition (n : nat) (batch_size : Z) :
  (0 < batch_size)%Z ->
  let bs := Z.to_nat batch_size in
  exists bins,
    make_bins n batch_size = Ok bins
    /\ length bins = (n + bs - 1) / bs
    /\ concat bins = seq 0 n
    /\ forall k b, bins !! k = Some b ->
         b = seq (k * bs) (bs `min` (n - k * bs)) /\ 0 < length b <= bs.
Proof. apply make_bins_consecutive. Qed.

Lemma make_bins_partition_witness :
  exists bins,
    make_bins 7 3 = Ok bins
    /\ bins = [[0; 1; 2]; [3; 4; 5]; [6]]
    /\ concat bins = seq 0 7.
Proof.
  destruct (make_bins_partition 7 3 ltac:(lia)) as (bins & Hb & _ & Hc & _).
  exists bins. split; [exact Hb|]. split; [|exact Hc].
  vm_compute in Hb. by injection Hb.
Defined.

Lemma np_shuffle_spec {E A} (l : list A) (w : world E) :
  exists l' g,
    np_shuffle l w = (Ok l', set_np_random g w) /\ l' ≡ₚ l.
Proof.
  unfold np_shuffle.
  pose proof (shuffle_from_Permutation (length l - 1) l (np_random w)) as Hp.
  destruct (shuffle_from _ _ _) as [l' g]. eauto.
Qed.

Lemma iter_bins_spec {E} (todo : list (list nat)) (w : world E) :
  exists yielded g,
    BucketingSampler.iter_bins todo w = (Ok yielded, set_np_random g w)
    /\ Forall2 (≡ₚ) yielded todo.
Proof.
  revert w. induction todo as [|ids rest IH]; intros w.
  - exists [], (np_random w). split; [by destruct w|constructor].
  - cbn [BucketingSampler.iter_bins]. unfold bind.
    destruct (np_shuffle_spec ids w) as (ids' & g & -> & Hp).
    destruct (IH (set_np_random g w)) as (rest' & g' & -> & Hrest).
    exists (ids' :: rest'), g'. split; [done|]. by constructor.
Qed.

Lemma concat_Forall2_Permutation {A} (l k : list (list A)) :
  Forall2 (≡ₚ) l k -> concat l ≡ₚ concat k.
Proof. induction 1 as [|x y l k Hxy _ IH]; [done|]. cbn. by rewrite Hxy, IH. Qed.

(** X2: one pass over a [BucketingSampler] built for [n] items yields as
    many bins as the sampler has, in the sampler's order, each holding the
    indices of the corresponding bin in some order; over the pass every
    index of [0..n) occurs exactly once.  The bins are shuffled in place:
    afterwards the sampler's bins are the yielded lists.  Nothing but
    NumPy's generator changes in the process. *)
Theorem bucketing_iter_every_index_once {E} (n : nat) (batch_size : Z)
    (self : BucketingSampler.t) (w : world E) :
  BucketingSampler.init n batch_size = Ok self ->
  exists yielded self' g,
    BucketingSampler.iter self w = (Ok (yielded, self'), set_np_random g w)
    /\ BucketingSampler.bins self' = yielded
    /\ length yielded = BucketingSampler.len self
    /\ Forall2 (≡ₚ) yielded (BucketingSampler.bins self)
    /\ ((0 < batch_size)%Z -> concat yielded ≡ₚ seq 0 n).
Proof.
  intros Hinit. unfold BucketingSampler.iter, bind, ret.
  destruct (iter_bins_spec (BucketingSampler.bins self) w) as (yielded & g & -> & Hp).
  exists yielded, (BucketingSampler.mk (BucketingSampler.data_source_len self) yielded), g.
  split; [done|]. split; [done|].
  split; [by apply Forall2_length in Hp|]. split; [done|].
  intros Hpos. rewrite (concat_Forall2_Permutation _ _ Hp).
  destruct (make_bins_consecutive n batch_size Hpos) as (bins & Hb & _ & Hc & _).
  unfold BucketingSampler.init in Hinit. rewrite Hb in Hinit.
  injection Hinit as <-. by rewrite <- Hc.
Qed.

Lemma bucketing_iter_every_index_once_witness :
  exists yielded self' g,
    BucketingSampler.iter (BucketingSampler.mk 7 [[0; 1; 2]; [3; 4; 5]; [6]])
        (world_of (E:=Z) ∅ (seeded_rng 10))
      = (Ok (yielded, self'), set_np_random g (world_of ∅ (seeded_rng 10)))
    /\ BucketingSampler.bins self' = yielded
    /\ concat yielded ≡ₚ seq 0 7.
Proof.
  destruct (bucketing_iter_every_index_once (E:=Z) 7 3
              (BucketingSampler.mk 7 [[0; 1; 2]; [3; 4; 5]; [6]])
              (world_of ∅ (seeded_rng 10)) eq_refl)
    as (yielded & self' & g & Hrun & Hbins & _ & _ & Hall).
  exists yielded, self', g. split; [exact Hrun|]. split; [exact Hbins|].
  apply Hall. lia.
Defined.

(** X3: [BucketingSampler.shuffle] reorders the bins and does nothing
    else: the new bin list is a rearrangement of the old one (no bin is
    lost, repeated or changed, so [len] stays the same), and of the
    process state only NumPy's generator moves on. *)
Theorem bucketing_shuffle_rearranges {E} (self : BucketingSampler.t)
    (epoch : Z) (w : world E) :
  exists self' g,
    BucketingSampler.shuffle self epoch w = (Ok self', set_np_random g w)
    /\ BucketingSampler.bins self' ≡ₚ BucketingSampler.bins self
    /\ BucketingSampler.len self' = BucketingSampler.len self
    /\ BucketingSampler.data_source_len self'
       = BucketingSampler.data_source_len self.
Proof.
  unfold BucketingSampler.shuffle, bind, ret.
  destruct (np_shuffle_spec (BucketingSampler.bins self) w) as (l' & g & -> & Hp).
  eexists _, g. split; [done|]. split; [done|]. split; [|done].
  unfold BucketingSampler.len. cbn. by rewrite Hp.
Qed.

(** X4: [DistributedBucketingSampler.__iter__] fails its assertion
    exactly when there is at least one bin and fewer than half as many
    bins as replicas; in every other case it returns the bins at positions
    [rank], [rank + R], ... of the padded list. *)
Theorem distributed_iter_fails_iff (get_world_size get_rank : nat)
    (n : nat) (batch_size : Z) (R rank : nat)
    (self : DistributedBucketingSampler.t) :
  DistributedBucketingSampler.init get_world_size get_rank n batch_size
    (Some R) (Some rank) = Ok self ->
  let B := length (DistributedBucketingSampler.bins self) in
  (DistributedBucketingSampler.iter self = Raise AssertionError
   <-> 0 < B /\ 2 * B < R)
  /\ (~ (0 < B /\ 2 * B < R) ->
      DistributedBucketingSampler.iter self
      = Ok (stride_slice
              (DistributedBucketingSampler.bins self
                 ++ take (DistributedBucketingSampler.total_size self - B)
                      (DistributedBucketingSampler.bins self))
              rank R)).
Proof.
  unfold DistributedBucketingSampler.init. cbn [default from_option Datatypes.id].
  destruct (make_bins n batch_size) as [bins|e]; cbn [rbind]; [|done].
  destruct (Nat.eqb_spec R 0) as [->|HR]; [done|].
  intros Heq. injection Heq as Heq. subst self.
  cbn [DistributedBucketingSampler.bins DistributedBucketingSampler.total_size].
  set (B := length bins). cbv zeta.
  set (q := DistributedBucketingSampler.ceil_div B R).
  assert (Hq : (B = 0 /\ q = 0) \/ (0 < B /\ B <= q * R /\ q * R < B + R)).
  { subst q. unfold DistributedBucketingSampler.ceil_div.
    pose proof (Nat.div_mod_eq (B + R - 1) R) as Hdm.
    pose proof (Nat.mod_upper_bound (B + R - 1) R HR) as Hmod.
    destruct (decide (B = 0)) as [HB|HB].
    - left. split; [done|]. rewrite HB. apply Nat.div_small. lia.
    - right. nia. }
  assert (Hfail : 0 < B /\ 2 * B < R <-> B < q * R - B).
  { destruct Hq as [[HB Hq0]|(HB & Hle & Hlt)]; [rewrite HB, Hq0; lia|].
    split.
    - intros [_ H2]. assert (Hq1 : q = 1) by nia. rewrite Hq1. lia.
    - intros Hpad. split; [done|].
      assert (HBR : B < R) by lia.
      assert (Hq1 : q = 1) by nia. rewrite Hq1 in Hpad. lia. }
  split.
  - rewrite Hfail. split.
    + intros Hiter. destruct (decide (B < q * R - B)) as [|Hn]; [done|].
      rewrite iter_ok in Hiter; [done|cbn; fold B; lia|cbn; fold B].
      destruct Hq as [[-> ->]|(_ & ? & _)]; lia.
    + intros Hpad. by apply iter_assertion_fails.
  - intros Hn. rewrite Hfail in Hn. apply iter_ok; cbn; fold B; [lia|].
    destruct Hq as [[-> ->]|(_ & ? & _)]; lia.
Qed.

Lemma distributed_iter_fails_iff_witness :
  exists self,
    DistributedBucketingSampler.init 1 0 100 64 (Some 8) (Some 0) = Ok self
    /\ length (DistributedBucketingSampler.bins self) = 2
    /\ DistributedBucketingSampler.iter self = Raise AssertionError.
Proof.
  eexists. split; [reflexivity|]. split; [reflexivity|].
  apply (distributed_iter_fails_iff 1 0 100 64 8 0 _ eq_refl). vm_compute. lia.
Defined.

(** X27: where the padding of [__iter__] suffices (the sampler has at
    least half as many bins as the padded length), the ranks between
    them yield every bin: the bin at position [i] goes to rank [i mod R]
    as its item number [i / R]; every rank yields [ceil(B / R)] bins,
    the value of [__len__], and only bins of the sampler. *)
Theorem distributed_iter_reaches_every_bin (get_world_size get_rank : nat)
    (n : nat) (batch_size : Z) (R rank : nat)
    (self : DistributedBucketingSampler.t) :
  DistributedBucketingSampler.init get_world_size get_rank n batch_size
    (Some R) (Some rank) = Ok self ->
  let B := length (DistributedBucketingSampler.bins self) in
  DistributedBucketingSampler.len self = DistributedBucketingSampler.ceil_div B R
  /\ (DistributedBucketingSampler.total_size self - B <= B ->
      (forall i b, DistributedBucketingSampler.bins self !! i = Some b ->
         exists out, DistributedBucketingSampler.iter (at_rank self (i mod R)) = Ok out
                     /\ out !! (i / R) = Some b)
      /\ (forall r, r < R ->
           exists out, DistributedBucketingSampler.iter (at_rank self r) = Ok out
                       /\ length out = DistributedBucketingSampler.len self
                       /\ forall b, b ∈ out -> b ∈ DistributedBucketingSampler.bins self)).
Proof.
  intros Hinit B.
  destruct (distributed_iter_coverage _ _ _ _ _ _ _ Hinit) as [_ Hcov].
  assert (Hlen : DistributedBucketingSampler.len self
                 = DistributedBucketingSampler.ceil_div B R).
  { unfold DistributedBucketingSampler.init in Hinit.
    cbn [default from_option Datatypes.id] in Hinit.
    destruct (make_bins n batch_size) as [bins|e]; cbn [rbind] in Hinit; [|done].
    destruct (R =? 0); [done|]. injection Hinit as <-. done. }
  split; [done|]. intros Hpad. rewrite Hlen. by apply Hcov.
Qed.

Lemma distributed_iter_reaches_every_bin_witness :
  exists self out,
    DistributedBucketingSampler.init 1 0 10 2 (Some 3) (Some 0) = Ok self
    /\ DistributedBucketingSampler.bins self !! 4 = Some [8; 9]
    /\ DistributedBucketingSampler.iter (at_rank self (4 mod 3)) = Ok out
    /\ out !! (4 / 3) = Some [8; 9].
Proof.
  eexists.
  destruct (distributed_iter_reaches_every_bin 1 0 10 2 3 0 _ eq_refl) as [_ Hcov].
  destruct Hcov as [Hall _]; [vm_compute; lia|].
  destruct (Hall 4 [8; 9] eq_refl) as (out & Hout & Hb).
  exists out. split; [reflexivity|]. split; [reflexivity|]. split; [exact Hout|exact Hb].
Defined.

(** * The dataset *)

Lemma mapM_length {A B} (f : A -> result B) (l : list A) (l' : list B) :
  mapM f l = Ok l' -> length l' = length l.
Proof.
  revert l'. induction l as [|x l IH]; intros l' H; cbn in H.
  - by simplify_eq.
  - destruct (f x) as [y|e]; cbn in H; [|done].
    destruct (mapM f l) as [ys|e]; cbn in H; [|done].
    simplify_eq. cbn. f_equal. by apply IH.
Qed.

Lemma mapM_Forall2 {A B} (f : A -> result B) (l : list A) (l' : list B) :
  mapM f l = Ok l' -> Forall2 (fun x y => f x = Ok y) l l'.
Proof.
  revert l'. induction l as [|x l IH]; intros l' H; cbn in H.
  - simplify_eq. constructor.
  - destruct (f x) as [y|e] eqn:Hx; cbn in H; [|done].
    destruct (mapM f l) as [ys|e]; cbn in H; [|done].
    simplify_eq. constructor; [done|]. by apply IH.
Qed.

Lemma length_py_slice_to {A} (k : Z) (l : list A) :
  length (py_slice_to k l)
  = if (0 <=? k)%Z then Z.to_nat k `min` length l
    else length l - Z.to_nat (- k).
Proof. unfold py_slice_to. case_match; rewrite length_take; lia. Qed.

Section DatasetExtras.
Context (K : numlib) (X : extlib K).
Context (csv_reader : list byte -> list (list string)).
Context (csv_DictReader : list byte -> list curriculum_row).
Context (float_of_string : string -> result Q).
Context (read_text : list byte -> result string).
Context (Labels : Type) (Labels_init : string -> Labels).
Context (Labels_parse : Labels -> string -> result (list Z)).
Context (Labels_render_transcript : Labels -> list Z -> result string).
Context (seeded_state : Z -> rng).
Context (Curriculum_sample :
  SpectrogramDataset.t Labels -> Z -> Q ->
  SpectrogramDataset.MD K (list manifest_item)).

Local Abbreviation dataset := (SpectrogramDataset.t Labels).
Local Abbreviation state := (SpectrogramDataset.state K).
Local Abbreviation TS_CACHE := (SpectrogramDataset.TS_CACHE K).
Local Abbreviation process := (SpectrogramDataset.process K).
Local Abbreviation ids := (SpectrogramDataset.ids Labels).
Local Abbreviation all_ids := (SpectrogramDataset.all_ids Labels).
Local Abbreviation size := (SpectrogramDataset.size Labels).
Local Abbreviation curriculum := (SpectrogramDataset.curriculum Labels).
Local Abbreviation parser := (SpectrogramDataset.parser Labels).
Local Abbreviation labels := (SpectrogramDataset.labels Labels).
Local Abbreviation init :=
  (SpectrogramDataset.init K X csv_reader csv_DictReader float_of_string Labels
     Labels_init).
Local Abbreviation parse_transcript :=
  (SpectrogramDataset.parse_transcript K X read_text Labels Labels_parse).
Local Abbreviation get_reference_transcript :=
  (SpectrogramDataset.get_reference_transcript K X read_text Labels Labels_parse
     Labels_render_transcript).
Local Abbreviation getitem :=
  (SpectrogramDataset.getitem K X read_text Labels Labels_parse).
Local Abbreviation get_curriculum_info :=
  (SpectrogramDataset.get_curriculum_info K X read_text Labels Labels_parse
     Labels_render_transcript).
Local Abbreviation set_curriculum_epoch :=
  (SpectrogramDataset.set_curriculum_epoch K Labels seeded_state Curriculum_sample).
Local Abbreviation update_curriculum := (SpectrogramDataset.update_curriculum Labels).

Implicit Types (self : dataset) (s : state) (w : world (num K)).

(** ** Transcripts *)

Lemma parse_transcript_cases self path s :
  (exists ts, TS_CACHE s !! path = Some ts
              /\ parse_transcript self path s = (Ok ts, s))
  \/ (TS_CACHE s !! path = None
      /\ ((exists ts, parse_transcript self path s
                      = (Ok ts, SpectrogramDataset.mk_state K
                                  (<[path := ts]> (TS_CACHE s)) (process s)))
          \/ exists e, parse_transcript self path s = (Raise e, s))).
Proof.
  unfold SpectrogramDataset.parse_transcript.
  destruct (TS_CACHE s !! path) as [ts|] eqn:Hc; [left; eauto|right].
  split; [done|].
  match goal with |- context [match ?p with Ok _ => _ | Raise _ => _ end] =>
    destruct p as [ts|e] end; eauto.
Qed.

Lemma parse_transcript_grows self path s :
  TS_CACHE s ⊆ TS_CACHE (snd (parse_transcript self path s))
  /\ process (snd (parse_transcript self path s)) = process s.
Proof.
  destruct (parse_transcript_cases self path s)
    as [(ts & _ & ->)|(Hnone & [(ts & ->)|(e & ->)])]; cbn [snd]; try done.
  split; [|done]. by apply insert_subseteq.
Qed.

Lemma parse_transcript_ok self path s ts s1 :
  parse_transcript self path s = (Ok ts, s1) ->
  TS_CACHE s1 !! path = Some ts
  /\ process s1 = process s
  /\ forall p, p <> path -> TS_CACHE s1 !! p = TS_CACHE s !! p.
Proof.
  intros Hrun.
  destruct (parse_transcript_cases self path s)
    as [(ts' & Hc & Heq)|(Hnone & [(ts' & Heq)|(e & Heq)])];
    rewrite Heq in Hrun; simplify_eq; cbn; try done.
  split; [apply lookup_insert_eq|]. split; [done|].
  intros p Hp. by apply lookup_insert_ne.
Qed.

(** X15: a transcript is read and parsed once per path and process.
    After [parse_transcript] has returned for a path, every later call
    for that path, by this or any other dataset object (whatever its
    label set), returns the same label sequence from [TS_CACHE] without
    opening the file and without changing anything, however the files
    have changed in between.  The call itself changes no part of the
    process other than [TS_CACHE], to which it adds at most that path. *)
Theorem parse_transcript_reads_once self path s ts s1 :
  parse_transcript self path s = (Ok ts, s1) ->
  TS_CACHE s1 !! path = Some ts
  /\ process s1 = process s
  /\ (forall p, p <> path -> TS_CACHE s1 !! p = TS_CACHE s !! p)
  /\ forall (self' : dataset) s2,
       TS_CACHE s1 ⊆ TS_CACHE s2 ->
       parse_transcript self' path s2 = (Ok ts, s2).
Proof.
  intros Hrun.
  destruct (parse_transcript_ok self path s ts s1 Hrun) as (Hin & Hproc & Hother).
  repeat split; try done.
  intros self' s2 Hsub.
  unfold SpectrogramDataset.parse_transcript.
  assert (H2 : TS_CACHE s2 !! path = Some ts) by (eapply lookup_weaken; eauto).
  by rewrite H2.
Qed.

(** X16: the empty transcript path stands for the empty transcript: on
    its first use [parse_transcript] parses the empty string and opens
    no file, so the outcome does not depend on the file system. *)
Theorem parse_transcript_empty_path self s ts :
  TS_CACHE s !! ""%string = None ->
  Labels_parse (labels self) "" = Ok ts ->
  parse_transcript self "" s
  = (Ok ts, SpectrogramDataset.mk_state K (<[""%string := ts]> (TS_CACHE s)) (process s)).
Proof.
  intros Hc Hp. unfold SpectrogramDataset.parse_transcript.
  rewrite Hc. cbn [String.eqb]. by rewrite Hp.
Qed.

(** ** Items *)

Lemma get_reference_transcript_grows self txt s :
  TS_CACHE s ⊆ TS_CACHE (snd (get_reference_transcript self txt s)).
Proof.
  unfold SpectrogramDataset.get_reference_transcript.
  pose proof (parse_transcript_grows self txt s) as [H _].
  by destruct (parse_transcript self txt s) as [[ts|e] s1].
Qed.

(** X17: [TS_CACHE] only grows.  [parse_transcript],
    [get_reference_transcript], [get_curriculum_info] and [__getitem__]
    never remove or replace an entry, whether they return or raise. *)
Theorem TS_CACHE_only_grows self s :
  (forall path, TS_CACHE s ⊆ TS_CACHE (snd (parse_transcript self path s)))
  /\ (forall txt, TS_CACHE s ⊆ TS_CACHE (snd (get_reference_transcript self txt s)))
  /\ (forall item, TS_CACHE s ⊆ TS_CACHE (snd (get_curriculum_info self item s)))
  /\ (forall index, TS_CACHE s ⊆ TS_CACHE (snd (getitem self index s))).
Proof.
  split; [intros path; apply (proj1 (parse_transcript_grows self path s))|].
  split; [intros txt; apply get_reference_transcript_grows|]. split.
  - intros [[audio_path transcript_path] dur].
    unfold SpectrogramDataset.get_curriculum_info.
    destruct (curriculum self !! audio_path) as [row|].
    + by repeat case_match.
    + pose proof (get_reference_transcript_grows self transcript_path s) as H.
      fold get_reference_transcript.
      by destruct (get_reference_transcript self transcript_path s) as [[r|e] s1].
  - intros index. unfold SpectrogramDataset.getitem.
    destruct (py_index _ _) as [i|]; [|done].
    destruct (ids self !! i) as [[[audio_path transcript_path] dur]|]; [|done].
    unfold SpectrogramDataset.in_process.
    destruct (parse_audio K X (parser self) audio_path (process s)) as [[spect|e] w1];
      [|done].
    fold parse_transcript.
    match goal with |- context [parse_transcript self transcript_path ?s1] =>
      pose proof (parse_transcript_grows self transcript_path s1) as [H _];
      destruct (parse_transcript self transcript_path s1) as [[ts|e] s2] end;
      exact H.
Qed.

(** X18: [__getitem__] takes the index as a Python list index.  Outside
    [-len(ids) .. len(ids) - 1] it raises IndexError and changes nothing.
    When it returns [(spect, reference, audio_path)], the path is that of
    the manifest item at the index (counted from the end if negative),
    the spectrogram is what [parse_audio] returned for it in the state
    the call started from, and the reference is now in [TS_CACHE] under
    the item's transcript path. *)
Theorem getitem_spec self index s :
  let n := Z.of_nat (length (ids self)) in
  ((index < - n \/ n <= index)%Z -> getitem self index s = (Raise IndexError, s))
  /\ forall spect reference audio_path s',
       getitem self index s = (Ok (spect, reference, audio_path), s') ->
       (- n <= index < n)%Z
       /\ exists transcript_path dur,
            ids self !! Z.to_nat (index mod n) = Some (audio_path, transcript_path, dur)
            /\ fst (parse_audio K X (parser self) audio_path (process s)) = Ok spect
            /\ TS_CACHE s' !! transcript_path = Some reference.
Proof.
  intros n. unfold SpectrogramDataset.getitem, py_index. fold n. split.
  - intros Hout.
    assert (((0 <=? index) && (index <? n))%Z = false) as -> by lia.
    assert (((- n <=? index) && (index <? 0))%Z = false) as -> by lia.
    done.
  - intros spect reference audio_path s' Hrun.
    assert (Hidx : (- n <= index < n)%Z
                   /\ exists i, i = Z.to_nat (index mod n)
                        /\ (if ((0 <=? index) && (index <? n))%Z then Some (Z.to_nat index)
                            else if ((- n <=? index) && (index <? 0))%Z
                                 then Some (Z.to_nat (n + index)) else None) = Some i).
    { destruct ((0 <=? index) && (index <? n))%Z eqn:H1.
      - split; [lia|]. eexists. split; [|done].
        rewrite Z.mod_small by lia. done.
      - destruct ((- n <=? index) && (index <? 0))%Z eqn:H2; [|done].
        split; [lia|]. eexists. split; [|done].
        f_equal. symmetry.
        rewrite <- (Z.mod_add index 1 n) by lia.
        rewrite Z.mod_small by lia. lia. }
    destruct Hidx as (Hrange & i & Hi & Hsome). rewrite Hsome in Hrun.
    split; [done|]. rewrite <- Hi. cbv beta iota in Hrun.
    match type of Hrun with
    | context [match ?x with Some _ => _ | None => _ end] =>
        destruct x as [[[ap tp] dur]|] eqn:Hitem
    end; [|done].
    unfold SpectrogramDataset.in_process in Hrun.
    destruct (parse_audio K X (parser self) ap (process s)) as [[sp|e] w1] eqn:Hpa;
      [|done].
    match type of Hrun with
    | context [SpectrogramDataset.parse_transcript ?a ?b ?c ?d ?e ?f ?g ?h] =>
        destruct (SpectrogramDataset.parse_transcript a b c d e f g h)
          as [[ts|e'] s2] eqn:Hpt
    end; [|done].
    simplify_eq. exists tp, dur. split; [done|]. split; [by rewrite Hpa|].
    by destruct (parse_transcript_ok self tp _ _ _ Hpt).
Qed.

(** ** Construction *)

Lemma read_bytes_world path w r w' :
  read_bytes K X path w = (r, w') -> w' = w.
Proof. unfold read_bytes. repeat case_match; intros; by simplify_eq. Qed.

Lemma mapM_manifest_row (rows : list (list string)) :
  (exists items, mapM SpectrogramDataset.manifest_row rows = Ok items
                 /\ Forall (fun row => 2 <= length row) rows)
  \/ (mapM SpectrogramDataset.manifest_row rows = Raise IndexError
      /\ Exists (fun row => length row < 2) rows).
Proof.
  induction rows as [|row rows IH].
  - left. exists []. split; [done|constructor].
  - cbn [mapM].
    destruct row as [|a [|b row]].
    + right. split; [done|]. left. cbn. lia.
    + right. split; [done|]. left. cbn. lia.
    + assert (Hrow : exists item,
                SpectrogramDataset.manifest_row (a :: b :: row) = Ok item)
        by (destruct row; eexists; reflexivity).
      destruct Hrow as [item ->]. cbn [rbind].
      destruct IH as [(items & -> & Hall)|[-> Hex]].
      * left. eexists. split; [done|]. constructor; [cbn; lia|done].
      * right. split; [done|]. by right.
Qed.

(** [ids[:max_items]] under [if max_items] *)
Definition kept {A} (max_items : option Z) (items : list A) : list A :=
  match max_items with
  | Some k => if (k =? 0)%Z then items else py_slice_to k items
  | None => items
  end.

Lemma init_inv conf manifest_filepath cache_dir lbl norm aug max_items
    curriculum_filepath w self w' :
  init conf manifest_filepath cache_dir lbl norm aug max_items
    curriculum_filepath w = (Ok self, w') ->
  exists bs items,
    read_bytes K X manifest_filepath w = (Ok bs, w)
    /\ mapM SpectrogramDataset.manifest_row (csv_reader bs) = Ok items
    /\ all_ids self = kept max_items items
    /\ ids self = kept max_items items
    /\ size self = length (kept max_items items)
    /\ labels self = Labels_init lbl
    /\ (curriculum_filepath = None \/ curriculum_filepath = Some ""%string ->
        curriculum self
        = SpectrogramDataset.fresh_curriculum (kept max_items items))
    /\ augment (parser self) = aug /\ normalize (parser self) = norm
    /\ channel (parser self) = (-1)%Z /\ cache_path (parser self) = cache_dir.
Proof.
  unfold SpectrogramDataset.init. intros H.
  apply bind_ok_inv in H as (bs & w0 & Hread & H).
  pose proof (read_bytes_world _ _ _ _ Hread) as ->.
  apply bind_ok_inv in H as (items & w1 & Hitems & H).
  unfold lift in Hitems. simplify_eq.
  apply bind_ok_inv in H as (cur & w2 & Hcur & H).
  apply bind_ok_inv in H as (p & w3 & Hp & H).
  unfold ret in H. simplify_eq.
  exists bs, items. fold (kept max_items items).
  cbn [SpectrogramDataset.parser SpectrogramDataset.all_ids SpectrogramDataset.ids
       SpectrogramDataset.size SpectrogramDataset.labels
       SpectrogramDataset.curriculum].
  do 6 (split; [done|]). split.
  - intros [->| ->]; unfold ret in Hcur; cbn in Hcur; by simplify_eq.
  - unfold SpectrogramParser_init in Hp.
    apply bind_ok_inv in Hp as (inj & w4 & _ & Hp).
    unfold ret in Hp. by simplify_eq.
Qed.

(** X19: the constructor turns every row of the manifest into one item,
    in order, and needs two fields in each: a row with fewer (a blank
    line gives an empty row) makes it raise IndexError before anything
    else happens.  [max_items] is applied as a slice bound: [None] or 0
    keep all items, a positive value keeps that many from the start, a
    negative value [-k] drops the last [k].  [ids] and [all_ids] start
    equal and [size] is their length. *)
Theorem init_reads_manifest conf manifest_filepath cache_dir lbl norm aug
    max_items curriculum_filepath w bs :
  read_bytes K X manifest_filepath w = (Ok bs, w) ->
  let rows := csv_reader bs in
  let out := init conf manifest_filepath cache_dir lbl norm aug max_items
               curriculum_filepath w in
  (Exists (fun row => length row < 2) rows -> out = (Raise IndexError, w))
  /\ forall self w', out = (Ok self, w') ->
       Forall (fun row => 2 <= length row) rows
       /\ all_ids self = ids self
       /\ size self = length (ids self)
       /\ (exists items,
             Forall2 (fun row item =>
                        row !! 0 = Some item.1.1 /\ row !! 1 = Some item.1.2)
                     rows items
             /\ ids self = kept max_items items)
       /\ length (ids self)
          = match max_items with
            | None => length rows
            | Some k =>
                if (k =? 0)%Z then length rows
                else if (0 <? k)%Z then Z.to_nat k `min` length rows
                else length rows - Z.to_nat (- k)
            end.
Proof.
  intros Hread rows out.
  destruct (mapM_manifest_row rows) as [(items & Hitems & Hall)|[Hfail Hex]].
  - split.
    + intros Hshort. exfalso.
      apply Exists_exists in Hshort as (row & Hin & Hlt).
      rewrite Forall_forall in Hall. specialize (Hall row Hin). lia.
    + intros self w' Hout. subst out.
      destruct (init_inv _ _ _ _ _ _ _ _ _ _ _ Hout)
        as (bs' & items' & Hread' & Hitems' & Hall_ids & Hids & Hsize & _).
      rewrite Hread in Hread'. simplify_eq.
      fold rows in Hitems'. rewrite Hitems in Hitems'. simplify_eq.
      split; [done|]. split; [congruence|]. split; [congruence|]. split.
      * exists items'. split; [|done].
        apply mapM_Forall2 in Hitems.
        eapply Forall2_impl; [exact Hitems|].
        intros row [[a b] c] Hrow. cbn.
        destruct row as [|a' [|b' [|c' row]]]; cbn in Hrow; by simplify_eq.
      * rewrite Hids. apply mapM_length in Hitems. unfold kept.
        destruct max_items as [k|]; [|done].
        destruct (Z.eqb_spec k 0); [done|].
        rewrite length_py_slice_to, Hitems.
        destruct (Z.ltb_spec 0 k), (Z.leb_spec 0 k); lia.
  - split.
    + intros _. subst out. unfold SpectrogramDataset.init.
      rewrite (bind_ok _ _ _ _ _ Hread). apply bind_raise.
      unfold lift. fold rows. by rewrite Hfail.
    + intros self w' Hout. subst out.
      destruct (init_inv _ _ _ _ _ _ _ _ _ _ _ Hout)
        as (bs' & items' & Hread' & Hitems' & _).
      rewrite Hread in Hread'. simplify_eq.
      fold rows in Hitems'. by rewrite Hfail in Hitems'.
Qed.

(** ** The curriculum *)

Lemma fresh_curriculum_fold (items : list manifest_item)
    (acc : gmap string curriculum_row) (wav : string) :
  (exists tp dur, (wav, tp, dur) ∈ items)
  \/ acc !! wav = Some (SpectrogramDataset.fresh_row wav) ->
  fold_left (fun acc '(wav, _, _) => <[wav := SpectrogramDataset.fresh_row wav]> acc)
    items acc !! wav
  = Some (SpectrogramDataset.fresh_row wav).
Proof.
  revert acc. induction items as [|[[a b] c] items IH]; intros acc H.
  - destruct H as [(tp & dur & Hin)|H]; [by apply elem_of_nil in Hin|done].
  - cbn [fold_left]. apply IH.
    destruct (decide (a = wav)) as [->|Hne].
    + right. apply lookup_insert_eq.
    + destruct H as [(tp & dur & Hin)|H].
      * apply elem_of_cons in Hin as [Heq|Hin]; [by simplify_eq|].
        left. eauto.
      * right. by rewrite lookup_insert_ne.
Qed.

Lemma fresh_row_info (wav : string) :
  SpectrogramDataset.fresh_row wav !! "text"%string = Some (PStr "")
  /\ SpectrogramDataset.fresh_row wav !! "cer"%string = Some (PFloat (999 # 1000)).
Proof. split; vm_compute; reflexivity. Qed.

Lemma updated_row_info (audio_path : string) (reference transcript offsets cer wer : pyval) :
  let row : curriculum_row :=
    {[ "wav"%string := PStr audio_path; "text"%string := reference;
       "transcript"%string := transcript; "offsets"%string := offsets;
       "cer"%string := cer; "wer"%string := wer ]} in
  row !! "text"%string = Some reference /\ row !! "cer"%string = Some cer.
Proof. split; vm_compute; reflexivity. Qed.

(** X20: a dataset built without a curriculum file starts every
    manifest item at the worst score: [get_curriculum_info] returns the
    empty reference text and a character error rate of 0.999 for each of
    its items, and neither reads a transcript nor changes anything. *)
Theorem fresh_dataset_curriculum_info conf manifest_filepath cache_dir lbl
    norm aug max_items w self w' item s :
  init conf manifest_filepath cache_dir lbl norm aug max_items None w
    = (Ok self, w') ->
  item ∈ all_ids self ->
  get_curriculum_info self item s = (Ok (PStr "", PFloat (999 # 1000)), s).
Proof.
  intros Hinit Hin.
  destruct (init_inv _ _ _ _ _ _ _ _ _ _ _ Hinit)
    as (bs & items & _ & _ & Hall_ids & _ & _ & _ & Hcur & _).
  specialize (Hcur (or_introl eq_refl)).
  rewrite Hall_ids in Hin. destruct item as [[wav tp] dur].
  unfold SpectrogramDataset.get_curriculum_info. rewrite Hcur.
  unfold SpectrogramDataset.fresh_curriculum.
  rewrite fresh_curriculum_fold by (left; eauto).
  cbv beta iota. destruct (fresh_row_info wav) as [-> ->]. done.
Qed.

(** X21: [update_curriculum] followed by [get_curriculum_info].  For
    the updated audio path the information is the reference and error
    rate just stored, whatever was there before and whatever the item's
    transcript path; for every other path it is what it was.  The item
    lists and [size] are not touched. *)
Theorem update_curriculum_then_info self audio_path reference transcript
    offsets cer wer s :
  let self' := update_curriculum self audio_path reference transcript offsets
                 cer wer in
  (forall transcript_path dur,
     get_curriculum_info self' (audio_path, transcript_path, dur) s
     = (Ok (reference, cer), s))
  /\ (forall other transcript_path dur,
        other <> audio_path ->
        get_curriculum_info self' (other, transcript_path, dur) s
        = get_curriculum_info self (other, transcript_path, dur) s)
  /\ ids self' = ids self /\ all_ids self' = all_ids self
  /\ size self' = size self.
Proof.
  intros self'. subst self'. split; [|split; [|done]].
  - intros transcript_path dur.
    unfold SpectrogramDataset.get_curriculum_info,
      SpectrogramDataset.update_curriculum.
    cbn [SpectrogramDataset.curriculum]. rewrite lookup_insert_eq.
    cbv beta iota.
    destruct (updated_row_info audio_path reference transcript offsets cer wer)
      as [-> ->].
    done.
  - intros other transcript_path dur Hne.
    unfold SpectrogramDataset.get_curriculum_info,
      SpectrogramDataset.update_curriculum.
    cbn [SpectrogramDataset.curriculum]. by rewrite lookup_insert_ne.
Qed.

Lemma floated_inv (key : string) (r r' : curriculum_row) :
  SpectrogramDataset.floated float_of_string key r = Ok r' ->
  exists v q, r !! key = Some v
              /\ SpectrogramDataset.py_float_of float_of_string v = Ok q
              /\ r' = <[key := PFloat q]> r.
Proof.
  unfold SpectrogramDataset.floated. destruct (r !! key) as [v|]; [|done].
  destruct (SpectrogramDataset.py_float_of float_of_string v) as [q|e] eqn:Hq;
    cbn [rbind]; [|done].
  intros ?. simplify_eq. eauto.
Qed.

Lemma by_wav_lookup (rows : list curriculum_row)
    (acc cur : gmap string curriculum_row) (p : string) (row : curriculum_row) :
  SpectrogramDataset.by_wav rows acc = Ok cur ->
  cur !! p = Some row ->
  (row ∈ rows /\ row !! "wav"%string = Some (PStr p)) \/ acc !! p = Some row.
Proof.
  revert acc. induction rows as [|r rows IH]; intros acc Hrun Hp.
  - cbn in Hrun. simplify_eq. by right.
  - cbn [SpectrogramDataset.by_wav] in Hrun.
    destruct (r !! "wav"%string) as [v|] eqn:Hwav; [|done].
    assert (Hrest : forall acc',
              SpectrogramDataset.by_wav rows acc' = Ok cur ->
              (acc' !! p = Some row ->
               (row ∈ r :: rows /\ row !! "wav"%string = Some (PStr p))
               \/ acc !! p = Some row) ->
              (row ∈ r :: rows /\ row !! "wav"%string = Some (PStr p))
              \/ acc !! p = Some row).
    { intros acc' Hacc' Hback.
      destruct (IH acc' Hacc' Hp) as [[Hin Hw]|Hold]; [|by apply Hback].
      left. split; [by apply list_elem_of_further|done]. }
    destruct v as [wav| | | |]; try (apply (Hrest acc Hrun); by right).
    apply (Hrest _ Hrun). intros Hlook.
    destruct (decide (wav = p)) as [->|Hne].
    + rewrite lookup_insert_eq in Hlook. simplify_eq.
      left. split; [by apply list_elem_of_here|done].
    + rewrite lookup_insert_ne in Hlook by done. by right.
Qed.

(** X23: a dataset built with a curriculum file takes its curriculum
    from the file's rows.  Every path the curriculum knows is the [wav]
    field of a row of the file; for such a path [get_curriculum_info]
    returns that row's [text] field as it stands and its [cer] field
    converted by [float], without reading any transcript, and raises
    KeyError if the file has no [text] column. *)
Theorem curriculum_file_info conf manifest_filepath cache_dir lbl norm aug
    max_items fn w self w' p row transcript_path dur s :
  fn <> ""%string ->
  init conf manifest_filepath cache_dir lbl norm aug max_items (Some fn) w
    = (Ok self, w') ->
  curriculum self !! p = Some row ->
  exists bs r v q,
    read_bytes K X fn w = (Ok bs, w)
    /\ r ∈ csv_DictReader bs
    /\ r !! "wav"%string = Some (PStr p)
    /\ r !! "cer"%string = Some v
    /\ SpectrogramDataset.py_float_of float_of_string v = Ok q
    /\ get_curriculum_info self (p, transcript_path, dur) s
       = match r !! "text"%string with
         | Some text => (Ok (text, PFloat q), s)
         | None => (Raise KeyError, s)
         end.
Proof.
  intros Hfn Hinit Hrow. unfold SpectrogramDataset.init in Hinit.
  apply bind_ok_inv in Hinit as (bs0 & w0 & Hread0 & H).
  pose proof (read_bytes_world _ _ _ _ Hread0) as ->.
  apply bind_ok_inv in H as (items & w1 & Hitems & H).
  unfold lift in Hitems. simplify_eq.
  apply bind_ok_inv in H as (cur & w2 & Hcur & H).
  apply bind_ok_inv in H as (ps & w3 & Hp & H).
  unfold ret in H. simplify_eq.
  cbn [SpectrogramDataset.curriculum] in Hrow.
  apply String.eqb_neq in Hfn. rewrite Hfn in Hcur.
  apply bind_ok_inv in Hcur as (bs & w4 & Hread & Hcur).
  pose proof (read_bytes_world _ _ _ _ Hread) as ->.
  apply bind_ok_inv in Hcur as (rows & w5 & Hrows & Hcur).
  unfold lift in Hrows, Hcur. simplify_eq.
  match goal with
  | Hx : SpectrogramDataset.by_wav _ _ = Ok _ |- _ => rename Hx into Hby
  end.
  match goal with
  | Hx : mapM _ (csv_DictReader _) = Ok _ |- _ => rename Hx into Hfloated
  end.
  destruct (by_wav_lookup _ _ _ _ _ Hby Hrow) as [[Hin Hwav]|Hempty];
    [|by rewrite lookup_empty in Hempty].
  apply mapM_Forall2 in Hfloated.
  apply list_elem_of_lookup in Hin as [i Hi].
  destruct (Forall2_lookup_r _ _ _ _ _ Hfloated Hi) as (r & Hr & Hfl).
  destruct (SpectrogramDataset.floated float_of_string "cer" r) as [r1|e] eqn:Hcer;
    cbn [rbind] in Hfl; [|done].
  apply floated_inv in Hcer as (v & q & Hv & Hq & ->).
  apply floated_inv in Hfl as (v2 & q2 & Hv2 & Hq2 & ->).
  set (row := <["wer"%string := PFloat q2]> (<["cer"%string := PFloat q]> r)) in *.
  assert (Hother : forall key : string,
            key <> "wer"%string -> key <> "cer"%string -> row !! key = r !! key).
  { intros key H1 H2. subst row.
    etrans; [by apply lookup_insert_ne|]. by apply lookup_insert_ne. }
  assert (Hcer : row !! "cer"%string = Some (PFloat q)).
  { subst row. etrans; [by apply lookup_insert_ne|]. apply lookup_insert_eq. }
  exists bs, r, v, q. split; [done|].
  split; [by eapply list_elem_of_lookup_2|].
  split; [by rewrite <- Hother|]. split; [done|]. split; [done|].
  unfold SpectrogramDataset.get_curriculum_info.
  cbn [SpectrogramDataset.curriculum]. rewrite Hrow. cbv beta iota.
  rewrite Hcer, Hother by done.
  by destruct (r !! "text"%string).
Qed.

(** ** Epochs *)

(** X22: [set_curriculum_epoch] without sampling.  For an epoch that
    NumPy accepts as a seed, the new [ids] are the items of [all_ids] in
    the order the shuffle gives from the freshly seeded generator: a
    rearrangement of [all_ids] that depends on the epoch and on nothing
    else in the process; [size] is the number of items, [all_ids] and
    [TS_CACHE] are kept, and NumPy's process-level generator is left in
    the state after that shuffle.  For any other epoch the call raises
    ValueError from [np.random.seed], after [ids] has already been
    replaced by an unshuffled copy of [all_ids] and before [size] is
    updated. *)
Theorem set_curriculum_epoch_unsampled self epoch s :
  let n := length (all_ids self) in
  let shuffled := shuffle_from (n - 1) (all_ids self) (seeded_state epoch) in
  ((0 <= epoch < 2 ^ 32)%Z ->
   set_curriculum_epoch self epoch false s
   = (Ok tt, SpectrogramDataset.with_ids Labels self shuffled.1 n,
      SpectrogramDataset.mk_state K (TS_CACHE s)
        (set_np_random shuffled.2 (process s)))
   /\ shuffled.1 ≡ₚ all_ids self)
  /\ ((epoch < 0 \/ 2 ^ 32 <= epoch)%Z ->
      set_curriculum_epoch self epoch false s
      = (Raise ValueError,
         SpectrogramDataset.with_ids Labels self (all_ids self) (size self), s)).
Proof.
  intros n shuffled. split.
  - intros Hrange.
    pose proof (shuffle_from_Permutation (n - 1) (all_ids self) (seeded_state epoch))
      as Hperm. fold shuffled in Hperm.
    split; [|done].
    unfold SpectrogramDataset.set_curriculum_epoch,
      SpectrogramDataset.in_process, SpectrogramDataset.np_random_seed.
    assert (((0 <=? epoch) && (epoch <? 2 ^ 32))%Z = true) as -> by lia.
    unfold bind, modify, np_shuffle.
    cbn [SpectrogramDataset.process np_random set_np_random].
    fold n. fold shuffled. destruct shuffled as [ids' g'] eqn:Hsh.
    cbn [fst snd] in *. rewrite (Permutation_length Hperm). fold n.
    destruct s as [cache [f d g1 g2 g3 ev sg]]. reflexivity.
  - intros Hout.
    unfold SpectrogramDataset.set_curriculum_epoch,
      SpectrogramDataset.in_process, SpectrogramDataset.np_random_seed.
    assert (((0 <=? epoch) && (epoch <? 2 ^ 32))%Z = false) as -> by lia.
    unfold bind, raise. by destruct s.
Qed.

End DatasetExtras.

(** ** A small dataset

    Stand-ins for the libraries: a CSV reader that splits at line feeds
    and commas, a [DictReader] over it, a [float] for unsigned decimals,
    labels that are character codes, and a file system with a manifest of
    two items, one transcript and a curriculum file. *)

Definition line_feed : ascii := ascii_of_nat 10.

Definition text_of_bytes (bs : list byte) : string :=
  string_of_list_ascii (map ascii_of_byte bs).

Definition toy_csv_reader (bs : list byte) : list (list string) :=
  map (fun line => split_on "," [] (list_ascii_of_string line))
      (split_on line_feed [] (map ascii_of_byte bs)).

Definition toy_csv_DictReader (bs : list byte) : list curriculum_row :=
  match toy_csv_reader bs with
  | [] => []
  | header :: rows =>
      map (fun row => list_to_map (zip header (map PStr row)) : curriculum_row) rows
  end.

Definition digits_value (s : string) : option N :=
  fold_left (fun acc c =>
               match acc with
               | Some n =>
                   let d := nat_of_ascii c in
                   if (48 <=? d) && (d <=? 57)
                   then Some (10 * n + N.of_nat (d - 48))%N else None
               | None => None
               end)
            (list_ascii_of_string s) (Some 0%N).

Definition toy_float (s : string) : result Q :=
  match split_on "." [] (list_ascii_of_string s) with
  | [a] =>
      match digits_value a with
      | Some n => Ok (inject_Z (Z.of_N n))
      | None => Raise ValueError
      end
  | [a; b] =>
      match digits_value a, digits_value b with
      | Some n, Some m =>
          Ok (inject_Z (Z.of_N n)
              + Qmake (Z.of_N m) (Pos.pow 10 (Pos.of_nat (String.length b))))%Q
      | _, _ => Raise ValueError
      end
  | _ => Raise ValueError
  end.

Definition toy_labels_parse (_ : string) (text : string) : result (list Z) :=
  Ok (map (fun c => Z.of_nat (nat_of_ascii c)) (list_ascii_of_string text)).

Definition toy_render (_ : string) (ts : list Z) : result string :=
  Ok (string_of_list_ascii (map (fun n => ascii_of_nat (Z.to_nat n)) ts)).

Definition toy_conf : audio_conf :=
  mk_audio_conf (1 # 100) (2 # 100) 16000 "hamming" None (0, 1 # 2)%Q None.

Definition lines (l : list string) : list byte :=
  bytes_of_string (str_join (String line_feed "") l).

Definition data_fs : files R :=
  {[ "/data/a.wav" := FBytes riff;
     "/data/a.txt" := FBytes (bytes_of_string "HI");
     "/data/train.csv" :=
       FBytes (lines ["/data/a.wav,/data/a.txt,1.5"; "/data/b.wav,/data/b.txt"]);
     "/data/blank.csv" :=
       FBytes (lines ["/data/a.wav,/data/a.txt,1.5"; ""; "/data/b.wav,/data/b.txt"]);
     "/data/curriculum.csv" :=
       FBytes (lines ["wav,text,cer,wer"; "/data/a.wav,HI,0.25,0.5"]) ]}.

Definition data_world : world R := world_of data_fs (seeded_rng 3).

Definition start : SpectrogramDataset.state real_numlib :=
  SpectrogramDataset.mk_state real_numlib ∅ data_world.

Definition no_dataset : SpectrogramDataset.t string :=
  SpectrogramDataset.mk string plain_parser [] [] 0 "" ∅.

Definition toy_init (max_items : option Z) (curriculum_filepath : option string)
    : result (SpectrogramDataset.t string) * world R :=
  SpectrogramDataset.init real_numlib toy_tools toy_csv_reader toy_csv_DictReader
    toy_float string (fun labels => labels) toy_conf "/data/train.csv" "/cache"
    "HI" (NormBool false) false max_items curriculum_filepath data_world.

Definition built (r : result (SpectrogramDataset.t string) * world R)
    : SpectrogramDataset.t string :=
  match fst r with Ok self => self | Raise _ => no_dataset end.

Definition toy_dataset : SpectrogramDataset.t string := built (toy_init None None).

Definition graded_dataset : SpectrogramDataset.t string :=
  built (toy_init None (Some "/data/curriculum.csv")).

(** The process after the transcript of the first item has been read *)
Definition heard : SpectrogramDataset.state real_numlib :=
  SpectrogramDataset.mk_state real_numlib {[ "/data/a.txt" := [72; 73]%Z ]}
    data_world.

Lemma parse_transcript_reads_once_witness :
  SpectrogramDataset.TS_CACHE real_numlib heard !! "/data/a.txt" = Some [72; 73]%Z
  /\ SpectrogramDataset.process real_numlib heard
     = SpectrogramDataset.process real_numlib start
  /\ (forall p, p <> "/data/a.txt" ->
        SpectrogramDataset.TS_CACHE real_numlib heard !! p
        = SpectrogramDataset.TS_CACHE real_numlib start !! p)
  /\ forall (self' : SpectrogramDataset.t string) s2,
       SpectrogramDataset.TS_CACHE real_numlib heard
         ⊆ SpectrogramDataset.TS_CACHE real_numlib s2 ->
       SpectrogramDataset.parse_transcript real_numlib toy_tools
         (fun bs => Ok (text_of_bytes bs)) string toy_labels_parse self'
         "/data/a.txt" s2
       = (Ok [72; 73]%Z, s2).
Proof.
  refine (parse_transcript_reads_once real_numlib toy_tools
            (fun bs => Ok (text_of_bytes bs)) string toy_labels_parse toy_dataset
            "/data/a.txt" start [72; 73]%Z heard _).
  reflexivity.
Defined.

Lemma parse_transcript_empty_path_witness :
  SpectrogramDataset.parse_transcript real_numlib toy_tools
    (fun bs => Ok (text_of_bytes bs)) string toy_labels_parse toy_dataset "" start
  = (Ok [], SpectrogramDataset.mk_state real_numlib
              (<[""%string := []]> (SpectrogramDataset.TS_CACHE real_numlib start))
              (SpectrogramDataset.process real_numlib start)).
Proof.
  apply (parse_transcript_empty_path real_numlib toy_tools
           (fun bs => Ok (text_of_bytes bs)) string toy_labels_parse toy_dataset
           start []).
  - reflexivity.
  - reflexivity.
Defined.

Definition blank_manifest : list byte :=
  lines ["/data/a.wav,/data/a.txt,1.5"; ""; "/data/b.wav,/data/b.txt"].

Lemma blank_manifest_rows :
  toy_csv_reader blank_manifest
  = [["/data/a.wav"; "/data/a.txt"; "1.5"]; [""]; ["/data/b.wav"; "/data/b.txt"]]%string.
Proof. vm_compute. reflexivity. Qed.

Lemma init_reads_manifest_witness :
  SpectrogramDataset.init real_numlib toy_tools toy_csv_reader toy_csv_DictReader
    toy_float string (fun labels => labels) toy_conf "/data/blank.csv" "/cache"
    "HI" (NormBool false) false None None data_world
  = (Raise IndexError, data_world).
Proof.
  refine (proj1 (init_reads_manifest real_numlib toy_tools toy_csv_reader
                   toy_csv_DictReader toy_float string (fun labels => labels)
                   toy_conf "/data/blank.csv" "/cache" "HI" (NormBool false)
                   false None None data_world blank_manifest _) _).
  - vm_compute. reflexivity.
  - rewrite blank_manifest_rows. apply Exists_cons_tl, Exists_cons_hd. cbn. lia.
Defined.

Lemma fresh_dataset_curriculum_info_witness :
  SpectrogramDataset.get_curriculum_info real_numlib toy_tools
    (fun bs => Ok (text_of_bytes bs)) string toy_labels_parse toy_render
    toy_dataset ("/data/b.wav", "/data/b.txt", PInt 0) start
  = (Ok (PStr "", PFloat (999 # 1000)), start).
Proof.
  apply (fresh_dataset_curriculum_info real_numlib toy_tools toy_csv_reader
           toy_csv_DictReader toy_float (fun bs => Ok (text_of_bytes bs)) string
           (fun labels => labels) toy_labels_parse toy_render toy_conf
           "/data/train.csv" "/cache" "HI" (NormBool false) false None
           data_world toy_dataset (snd (toy_init None None))).
  - vm_compute. reflexivity.
  - vm_compute. apply list_elem_of_further, list_elem_of_here.
Defined.

Definition graded_row : curriculum_row :=
  default ∅ (SpectrogramDataset.curriculum string graded_dataset !! "/data/a.wav").

Lemma curriculum_file_info_witness :
  exists bs r v q,
    read_bytes real_numlib toy_tools "/data/curriculum.csv" data_world
      = (Ok bs, data_world)
    /\ r ∈ toy_csv_DictReader bs
    /\ r !! "wav"%string = Some (PStr "/data/a.wav")
    /\ r !! "cer"%string = Some v
    /\ SpectrogramDataset.py_float_of toy_float v = Ok q
    /\ SpectrogramDataset.get_curriculum_info real_numlib toy_tools
         (fun bs => Ok (text_of_bytes bs)) string toy_labels_parse toy_render
         graded_dataset ("/data/a.wav", "/data/a.txt", PStr "1.5") start
       = match r !! "text"%string with
         | Some text => (Ok (text, PFloat q), start)
         | None => (Raise KeyError, start)
         end.
Proof.
  apply (curriculum_file_info real_numlib toy_tools toy_csv_reader
           toy_csv_DictReader toy_float (fun bs => Ok (text_of_bytes bs)) string
           (fun labels => labels) toy_labels_parse toy_render toy_conf
           "/data/train.csv" "/cache" "HI" (NormBool false) false None
           "/data/curriculum.csv" data_world graded_dataset
           (snd (toy_init None (Some "/data/curriculum.csv")))
           "/data/a.wav" graded_row).
  - discriminate.
  - vm_compute. reflexivity.
  - vm_compute. reflexivity.
Defined.

(** The dataset with a curriculum file, run: the information for
    [/data/a.wav] is the file's text and its error rate as a number. *)
Example graded_dataset_info :
  fst (SpectrogramDataset.get_curriculum_info real_numlib toy_tools
         (fun bs => Ok (text_of_bytes bs)) string toy_labels_parse toy_render
         graded_dataset ("/data/a.wav", "/data/a.txt", PStr "1.5") start)
  = Ok (PStr "HI", PFloat (25 # 100)).
Proof. vm_compute. reflexivity. Qed.

